(** * FLIR camera labs: a shallow embedding of the capture scripts

    The development embeds the Python scripts [lab2-1_single_frame.py] and
    [lab2-2_realtime_with_save.py].  The scripts are sequences of calls into
    the camera SDK (PySpin) and the image library (cv2) wrapped in
    [try]/[finally] blocks, so the embedding is a state-and-exception monad
    over a [world] that holds the camera node map, the numpy arrays that
    exist, and the log of every call that left the script.

    What the collaborators do is modelled as follows.
    - A node is a record of its access flags, its maximum and its value;
      a write to a node that reports itself writable succeeds.
    - The lifecycle calls of the SDK (Init, BeginAcquisition,
      EndAcquisition, DeInit, Clear, ReleaseInstance) raise
      [SpinnakerException] when the [faults] of the run say so;
      BeginAcquisition also raises on a running stream, EndAcquisition on
      a stopped one, GetNextImage without a stream or without an image.
    - [cv2.cvtColor] checks the channel count of its source as OpenCV
      4.5.5 and later do (one channel for grey and Bayer sources; for the
      RGB-to-BGR conversion three or four, or one, which is expanded as
      grey) and returns a new three-channel array of the same rows and
      columns.  The samples themselves are not interpreted.
    - Floats are rationals; rounding is not modelled.
    - The camera, the clock and the keyboard supply a [feed], one
      [delivery] for each turn of the capture loop.

    Layout: strings and formatting, arrays and colour conversion, the world
    and its monad, the SDK and cv2 calls, the functions of the scripts,
    sample devices, the definitions the statements use, and then the
    theorems. *)

From Stdlib Require Import ZArith NArith List String Ascii Bool Lia QArith DecimalString.
From Stdlib Require Import Permutation Sorted DecimalN.
Import ListNotations.

Local Open Scope string_scope.
Local Open Scope Z_scope.

(* ================================================================== *)
(** ** Python strings *)

(** [str.upper()] on the ASCII range, which is where GenICam format names
    live. *)
Definition upper_ascii (c : ascii) : ascii :=
  let n := nat_of_ascii c in
  if (97 <=? n)%nat && (n <=? 122)%nat then ascii_of_nat (n - 32) else c.

Fixpoint upper (s : string) : string :=
  match s with
  | EmptyString => EmptyString
  | String c rest => String (upper_ascii c) (upper rest)
  end.

(** [needle in hay] on strings: the substring test. *)
Fixpoint str_in (needle hay : string) : bool :=
  if String.prefix needle hay then true
  else match hay with
       | EmptyString => false
       | String _ rest => str_in needle rest
       end.

(** Left padding with zeros up to a width, as the [0N] format flag does. *)
Fixpoint zeros (n : nat) : string :=
  match n with
  | O => EmptyString
  | S k => String "0" (zeros k)
  end.

Definition zfill (width : nat) (s : string) : string :=
  zeros (width - String.length s) ++ s.

Definition dec (n : N) : string := NilZero.string_of_uint (N.to_uint n).

(** [f"{z:06d}"]: sign first, then zero padding up to six characters in
    all; longer numbers are printed in full. *)
Definition format_06d (z : Z) : string :=
  if z <? 0 then String "-" (zfill 5 (dec (Z.abs_N z)))
  else zfill 6 (dec (Z.to_N z)).

(** An f-string before rendering: literal text ([Txt]) and the values
    spliced in.  Floats are rationals here, rounding is not modelled; they
    keep their value and the requested precision; their rendering is
    left to the console. *)
Inductive frag : Type :=
| Txt (s : string)
| Str (s : string)
| Int (z : Z)
| Flt (q : Q) (digits : nat).

Definition fstring := list frag.

(** [os.path.join(dir, name)] for a relative [name] on POSIX. *)
Fixpoint ends_with_slash (s : string) : bool :=
  match s with
  | EmptyString => false
  | String c EmptyString => Ascii.eqb c "/"
  | String _ rest => ends_with_slash rest
  end.

Definition path_join (dir name : string) : string :=
  match dir with
  | EmptyString => name
  | _ => if ends_with_slash dir then dir ++ name else dir ++ "/" ++ name
  end.

(** The broken-down local time that [time.strftime] formats. *)
Record struct_time : Type := {
  tm_year : N;
  tm_mon : N;
  tm_mday : N;
  tm_hour : N;
  tm_min : N;
  tm_sec : N
}.

(** [time.strftime(fmt)] for the directives the scripts use; any other
    character is copied. *)
Fixpoint strftime (fmt : string) (t : struct_time) : string :=
  match fmt with
  | EmptyString => EmptyString
  | String "%" (String d rest) =>
      let field :=
        if Ascii.eqb d "Y" then dec (tm_year t)
        else if Ascii.eqb d "m" then zfill 2 (dec (tm_mon t))
        else if Ascii.eqb d "d" then zfill 2 (dec (tm_mday t))
        else if Ascii.eqb d "H" then zfill 2 (dec (tm_hour t))
        else if Ascii.eqb d "M" then zfill 2 (dec (tm_min t))
        else if Ascii.eqb d "S" then zfill 2 (dec (tm_sec t))
        else String "%" (String d EmptyString)
      in field ++ strftime rest t
  | String c rest => String c (strftime rest t)
  end.

(* ================================================================== *)
(** ** Arrays and colour conversion *)

(** The conversion codes of [cv2.cvtColor] that the scripts pass. *)
Inductive ColorConversionCode : Type :=
| COLOR_GRAY2BGR
| COLOR_RGB2BGR
| COLOR_BAYER_RG2BGR
| COLOR_BAYER_GB2BGR
| COLOR_BAYER_GR2BGR
| COLOR_BAYER_BG2BGR.

(** The samples of an array are not interpreted: an array carries the
    history of what produced them, the sensor readout of a frame and the
    library operations applied since. *)
Inductive samples : Type :=
| Sensor (frame : nat)
| Converted (code : ColorConversionCode) (src : samples)
| Overlaid (text : fstring) (src : samples).

(** A numpy array as the scripts see it: [shape] is [(rows, cols)] when
    [chans] is [None] and [(rows, cols, c)] when it is [Some c]. *)
Record ndarray : Type := {
  rows : N;
  cols : N;
  chans : option N;
  data : samples
}.

Definition ndim (a : ndarray) : Z :=
  match chans a with
  | None => 2
  | Some _ => 3
  end.

(** The channel count OpenCV sees: a two-dimensional array is one channel. *)
Definition cv_channels (a : ndarray) : N :=
  match chans a with
  | None => 1%N
  | Some c => c
  end.

Definition cv_empty (a : ndarray) : bool :=
  (rows a =? 0)%N || (cols a =? 0)%N.

(** The input check of [cv2.cvtColor], as OpenCV 4.5.5 and later make it:
    grey and Bayer sources have one channel; for the RGB-to-BGR swap a
    source of three or four channels is swapped and a source of one
    channel is taken for grey and expanded; anything else, a source of two
    channels for one, is refused. *)
Definition cv_accepts (code : ColorConversionCode) (a : ndarray) : bool :=
  negb (cv_empty a) &&
  match code with
  | COLOR_RGB2BGR =>
      (cv_channels a =? 1)%N || (cv_channels a =? 3)%N || (cv_channels a =? 4)%N
  | _ => (cv_channels a =? 1)%N
  end.

(** The array [cv2.cvtColor] returns: same rows and columns, three
    channels. *)
Definition cv_result (code : ColorConversionCode) (a : ndarray) : ndarray :=
  {| rows := rows a; cols := cols a; chans := Some 3%N;
     data := Converted code (data a) |}.

(* ================================================================== *)
(** ** The camera, the world and the monad of the scripts *)

(** An entry of an enumeration node. *)
Record enum_entry : Type := {
  entry_readable : bool;
  entry_value : Z
}.

(** Nodes of the GenICam node map.  A node that the device does not have
    is one that is neither readable nor writable, which is how
    [PySpin.IsReadable] and [PySpin.IsWritable] report a null pointer. *)
Record enum_node : Type := {
  enum_readable : bool;
  enum_writable : bool;
  enum_entries : list (string * enum_entry);
  enum_current : Z
}.

Record int_node : Type := {
  int_readable : bool;
  int_writable : bool;
  int_max : Z;
  int_value : Z
}.

Record bool_node : Type := {
  bool_writable : bool;
  bool_value : bool
}.

Record float_node : Type := {
  float_readable : bool;
  float_writable : bool;
  float_max : Q;
  float_value : Q
}.

Record camera : Type := {
  PixelFormat : enum_node;
  Width : int_node;
  Height : int_node;
  OffsetX : int_node;
  OffsetY : int_node;
  AcquisitionFrameRateEnable : bool_node;
  AcquisitionFrameRate : float_node;
  AcquisitionMode : enum_node;
  initialized : bool;
  streaming : bool
}.

Definition with_current (v : Z) (n : enum_node) : enum_node :=
  {| enum_readable := enum_readable n; enum_writable := enum_writable n;
     enum_entries := enum_entries n; enum_current := v |}.

Definition with_int (v : Z) (n : int_node) : int_node :=
  {| int_readable := int_readable n; int_writable := int_writable n;
     int_max := int_max n; int_value := v |}.

Definition with_bool (v : bool) (n : bool_node) : bool_node :=
  {| bool_writable := bool_writable n; bool_value := v |}.

Definition with_float (v : Q) (n : float_node) : float_node :=
  {| float_readable := float_readable n; float_writable := float_writable n;
     float_max := float_max n; float_value := v |}.

Definition set_PixelFormat (n : enum_node) (c : camera) : camera :=
  {| PixelFormat := n; Width := Width c; Height := Height c;
     OffsetX := OffsetX c; OffsetY := OffsetY c;
     AcquisitionFrameRateEnable := AcquisitionFrameRateEnable c;
     AcquisitionFrameRate := AcquisitionFrameRate c;
     AcquisitionMode := AcquisitionMode c;
     initialized := initialized c; streaming := streaming c |}.

Definition set_Width (n : int_node) (c : camera) : camera :=
  {| PixelFormat := PixelFormat c; Width := n; Height := Height c;
     OffsetX := OffsetX c; OffsetY := OffsetY c;
     AcquisitionFrameRateEnable := AcquisitionFrameRateEnable c;
     AcquisitionFrameRate := AcquisitionFrameRate c;
     AcquisitionMode := AcquisitionMode c;
     initialized := initialized c; streaming := streaming c |}.

Definition set_Height (n : int_node) (c : camera) : camera :=
  {| PixelFormat := PixelFormat c; Width := Width c; Height := n;
     OffsetX := OffsetX c; OffsetY := OffsetY c;
     AcquisitionFrameRateEnable := AcquisitionFrameRateEnable c;
     AcquisitionFrameRate := AcquisitionFrameRate c;
     AcquisitionMode := AcquisitionMode c;
     initialized := initialized c; streaming := streaming c |}.

Definition set_OffsetX (n : int_node) (c : camera) : camera :=
  {| PixelFormat := PixelFormat c; Width := Width c; Height := Height c;
     OffsetX := n; OffsetY := OffsetY c;
     AcquisitionFrameRateEnable := AcquisitionFrameRateEnable c;
     AcquisitionFrameRate := AcquisitionFrameRate c;
     AcquisitionMode := AcquisitionMode c;
     initialized := initialized c; streaming := streaming c |}.

Definition set_OffsetY (n : int_node) (c : camera) : camera :=
  {| PixelFormat := PixelFormat c; Width := Width c; Height := Height c;
     OffsetX := OffsetX c; OffsetY := n;
     AcquisitionFrameRateEnable := AcquisitionFrameRateEnable c;
     AcquisitionFrameRate := AcquisitionFrameRate c;
     AcquisitionMode := AcquisitionMode c;
     initialized := initialized c; streaming := streaming c |}.

Definition set_FrameRateEnable (n : bool_node) (c : camera) : camera :=
  {| PixelFormat := PixelFormat c; Width := Width c; Height := Height c;
     OffsetX := OffsetX c; OffsetY := OffsetY c;
     AcquisitionFrameRateEnable := n;
     AcquisitionFrameRate := AcquisitionFrameRate c;
     AcquisitionMode := AcquisitionMode c;
     initialized := initialized c; streaming := streaming c |}.

Definition set_FrameRate (n : float_node) (c : camera) : camera :=
  {| PixelFormat := PixelFormat c; Width := Width c; Height := Height c;
     OffsetX := OffsetX c; OffsetY := OffsetY c;
     AcquisitionFrameRateEnable := AcquisitionFrameRateEnable c;
     AcquisitionFrameRate := n;
     AcquisitionMode := AcquisitionMode c;
     initialized := initialized c; streaming := streaming c |}.

Definition set_AcquisitionMode (n : enum_node) (c : camera) : camera :=
  {| PixelFormat := PixelFormat c; Width := Width c; Height := Height c;
     OffsetX := OffsetX c; OffsetY := OffsetY c;
     AcquisitionFrameRateEnable := AcquisitionFrameRateEnable c;
     AcquisitionFrameRate := AcquisitionFrameRate c;
     AcquisitionMode := n;
     initialized := initialized c; streaming := streaming c |}.

Definition set_initialized (b : bool) (c : camera) : camera :=
  {| PixelFormat := PixelFormat c; Width := Width c; Height := Height c;
     OffsetX := OffsetX c; OffsetY := OffsetY c;
     AcquisitionFrameRateEnable := AcquisitionFrameRateEnable c;
     AcquisitionFrameRate := AcquisitionFrameRate c;
     AcquisitionMode := AcquisitionMode c;
     initialized := b; streaming := streaming c |}.

Definition set_streaming (b : bool) (c : camera) : camera :=
  {| PixelFormat := PixelFormat c; Width := Width c; Height := Height c;
     OffsetX := OffsetX c; OffsetY := OffsetY c;
     AcquisitionFrameRateEnable := AcquisitionFrameRateEnable c;
     AcquisitionFrameRate := AcquisitionFrameRate c;
     AcquisitionMode := AcquisitionMode c;
     initialized := initialized c; streaming := b |}.

(** Which lifecycle calls of the SDK fail on this run.  A call that fails
    raises [SpinnakerException]. *)
Record faults : Type := {
  fail_Init : bool;
  fail_BeginAcquisition : bool;
  fail_EndAcquisition : bool;
  fail_DeInit : bool;
  fail_Clear : bool;
  fail_ReleaseInstance : bool
}.

Definition no_faults : faults :=
  {| fail_Init := false; fail_BeginAcquisition := false;
     fail_EndAcquisition := false; fail_DeInit := false;
     fail_Clear := false; fail_ReleaseInstance := false |}.

(** A value written to a node. *)
Inductive value : Type :=
| VInt (z : Z)
| VBool (b : bool)
| VFloat (q : Q).

(** Everything a script does to its collaborators, in the order of the
    calls, and [ImageAcquired] for each image the device hands out.
    Arrays are named by their index in the heap, images by the number the
    device gave them. *)
Inductive event : Type :=
| Printed (msg : fstring)
| Makedirs (path : string)
| SystemGetInstance
| SystemGetCameras
| CameraInit
| CameraDeInit
| CameraBeginAcquisition
| CameraEndAcquisition
| CameraListClear
| SystemReleaseInstance
| NodeSet (node : string) (v : value)
| CallGetNextImage (timeout : Z)
| ImageAcquired (id : nat)
| ImageGetNDArray (id : nat)
| ImageRelease (id : nat)
| CvtColor (src : nat) (code : ColorConversionCode)
| PutText (img : nat) (text : fstring)
| Imwrite (path : string) (img : nat)
| Imshow (window : string) (img : nat)
| WaitKey (delay : Z)
| DestroyAllWindows.

Record world : Type := {
  cams : list camera;     (* the cameras the system enumerates *)
  heap : list ndarray;    (* the numpy arrays, by reference *)
  log : list event;       (* the calls made so far, latest first *)
  dirs : list string;     (* the directories that exist *)
  fetched : nat;          (* how many images the device has handed out *)
  sdk : faults
}.

Definition set_cams (l : list camera) (w : world) : world :=
  {| cams := l; heap := heap w; log := log w; dirs := dirs w;
     fetched := fetched w; sdk := sdk w |}.

Definition set_heap (h : list ndarray) (w : world) : world :=
  {| cams := cams w; heap := h; log := log w; dirs := dirs w;
     fetched := fetched w; sdk := sdk w |}.

Definition set_log (l : list event) (w : world) : world :=
  {| cams := cams w; heap := heap w; log := l; dirs := dirs w;
     fetched := fetched w; sdk := sdk w |}.

Definition set_dirs (d : list string) (w : world) : world :=
  {| cams := cams w; heap := heap w; log := log w; dirs := d;
     fetched := fetched w; sdk := sdk w |}.

Definition set_fetched (n : nat) (w : world) : world :=
  {| cams := cams w; heap := heap w; log := log w; dirs := dirs w;
     fetched := n; sdk := sdk w |}.

(** The exceptions that occur in the scripts. *)
Inductive exn : Type :=
| SpinnakerException
| AttributeError
| cv2_error
| ZeroDivisionError
| KeyboardInterrupt.

Definition exn_eqb (a b : exn) : bool :=
  match a, b with
  | SpinnakerException, SpinnakerException
  | AttributeError, AttributeError
  | cv2_error, cv2_error
  | ZeroDivisionError, ZeroDivisionError
  | KeyboardInterrupt, KeyboardInterrupt => true
  | _, _ => false
  end.

Inductive result (A : Type) : Type :=
| Ok (a : A)
| Raise (e : exn).

Arguments Ok {A} a.
Arguments Raise {A} e.

(** A statement of a script: it runs in a world and either yields a value
    or raises, and in both cases leaves a world behind. *)
Definition M (A : Type) : Type := world -> result A * world.

Definition ret {A : Type} (a : A) : M A := fun w => (Ok a, w).

Definition bind {A B : Type} (m : M A) (k : A -> M B) : M B :=
  fun w =>
    match m w with
    | (Ok a, w1) => k a w1
    | (Raise e, w1) => (Raise e, w1)
    end.

Definition raise {A : Type} (e : exn) : M A := fun w => (Raise e, w).

(** [try: body finally: fin].  The final block always runs; what the body
    returned or raised stands unless the final block raises itself. *)
Definition try_finally {A : Type} (body : M A) (fin : M unit) : M A :=
  fun w =>
    match body w with
    | (r, w1) =>
        match fin w1 with
        | (Ok _, w2) => (r, w2)
        | (Raise e, w2) => (Raise e, w2)
        end
    end.

(** [try: body except E: handler]. *)
Definition try_except {A : Type} (body : M A) (E : exn) (handler : M A) : M A :=
  fun w =>
    match body w with
    | (Ok a, w1) => (Ok a, w1)
    | (Raise e, w1) => if exn_eqb e E then handler w1 else (Raise e, w1)
    end.

Declare Scope py_scope.
Delimit Scope py_scope with py.
Notation "x <- m ;; k" := (bind m (fun x => k))
  (at level 61, m at next level, right associativity) : py_scope.
Notation "m ;; k" := (bind m (fun _ => k))
  (at level 61, right associativity) : py_scope.
Local Open Scope py_scope.

Definition emit (e : event) : M unit :=
  fun w => (Ok tt, set_log (e :: log w) w).

Definition print (msg : fstring) : M unit := emit (Printed msg).

(** [cam_list[0]], the camera every call of the scripts goes to. *)
Definition read {A : Type} (f : camera -> A) : M A :=
  fun w =>
    match cams w with
    | c :: _ => (Ok (f c), w)
    | [] => (Raise SpinnakerException, w)
    end.

Definition update (f : camera -> camera) : M unit :=
  fun w =>
    match cams w with
    | c :: l => (Ok tt, set_cams (f c :: l) w)
    | [] => (Raise SpinnakerException, w)
    end.

Definition fault (f : faults -> bool) : M unit :=
  fun w => if f (sdk w) then (Raise SpinnakerException, w) else (Ok tt, w).

(* ================================================================== *)
(** ** The calls into PySpin *)

Definition System_GetInstance : M unit := emit SystemGetInstance.

Definition GetCameras : M unit := emit SystemGetCameras.

Definition GetSize : M nat := fun w => (Ok (List.length (cams w)), w).

Definition Clear : M unit :=
  emit CameraListClear ;; fault fail_Clear.

Definition ReleaseInstance : M unit :=
  emit SystemReleaseInstance ;; fault fail_ReleaseInstance.

Definition Init : M unit :=
  emit CameraInit ;; fault fail_Init ;; update (set_initialized true).

Definition DeInit : M unit :=
  emit CameraDeInit ;; fault fail_DeInit ;; update (set_initialized false).

(** Starting a stream that runs, and ending one that does not, are errors
    of the SDK. *)
Definition BeginAcquisition : M unit :=
  emit CameraBeginAcquisition ;;
  fault fail_BeginAcquisition ;;
  on <- read streaming ;;
  if on then raise SpinnakerException else update (set_streaming true).

Definition EndAcquisition : M unit :=
  emit CameraEndAcquisition ;;
  fault fail_EndAcquisition ;;
  on <- read streaming ;;
  if on then update (set_streaming false) else raise SpinnakerException.

(** A typed pointer to a node, [PySpin.CIntegerPtr(nodemap.GetNode(name))]
    and its siblings: the name and the place of the node in the camera. *)
Record CIntegerPtr : Type := {
  int_name : string;
  int_get : camera -> int_node;
  int_put : int_node -> camera -> camera
}.

Record CEnumerationPtr : Type := {
  enum_name : string;
  enum_get : camera -> enum_node;
  enum_put : enum_node -> camera -> camera
}.

Definition node_Width : CIntegerPtr :=
  {| int_name := "Width"; int_get := Width; int_put := set_Width |}.
Definition node_Height : CIntegerPtr :=
  {| int_name := "Height"; int_get := Height; int_put := set_Height |}.
Definition node_OffsetX : CIntegerPtr :=
  {| int_name := "OffsetX"; int_get := OffsetX; int_put := set_OffsetX |}.
Definition node_OffsetY : CIntegerPtr :=
  {| int_name := "OffsetY"; int_get := OffsetY; int_put := set_OffsetY |}.
Definition node_PixelFormat : CEnumerationPtr :=
  {| enum_name := "PixelFormat"; enum_get := PixelFormat;
     enum_put := set_PixelFormat |}.
Definition node_AcquisitionMode : CEnumerationPtr :=
  {| enum_name := "AcquisitionMode"; enum_get := AcquisitionMode;
     enum_put := set_AcquisitionMode |}.

(** A write to a node that reports itself writable is taken to succeed. *)
Definition int_SetValue (p : CIntegerPtr) (v : Z) : M unit :=
  emit (NodeSet (int_name p) (VInt v)) ;;
  update (fun c => int_put p (with_int v (int_get p c)) c).

Definition enum_SetIntValue (p : CEnumerationPtr) (v : Z) : M unit :=
  emit (NodeSet (enum_name p) (VInt v)) ;;
  update (fun c => enum_put p (with_current v (enum_get p c)) c).

Definition bool_SetValue (v : bool) : M unit :=
  emit (NodeSet "AcquisitionFrameRateEnable" (VBool v)) ;;
  update (fun c =>
    set_FrameRateEnable (with_bool v (AcquisitionFrameRateEnable c)) c).

Definition float_SetValue (v : Q) : M unit :=
  emit (NodeSet "AcquisitionFrameRate" (VFloat v)) ;;
  update (fun c => set_FrameRate (with_float v (AcquisitionFrameRate c)) c).

Fixpoint lookup_entry (name : string) (l : list (string * enum_entry))
  : option enum_entry :=
  match l with
  | [] => None
  | (n, e) :: rest => if String.eqb n name then Some e else lookup_entry name rest
  end.

Fixpoint lookup_value (v : Z) (l : list (string * enum_entry))
  : option (string * enum_entry) :=
  match l with
  | [] => None
  | (n, e) :: rest => if entry_value e =? v then Some (n, e) else lookup_value v rest
  end.

(** [node.GetEntryByName(name)]; [None] is the null pointer. *)
Definition GetEntryByName (p : CEnumerationPtr) (name : string)
  : M (option enum_entry) :=
  read (fun c => lookup_entry name (enum_entries (enum_get p c))).

Definition GetCurrentEntry (p : CEnumerationPtr)
  : M (option (string * enum_entry)) :=
  read (fun c => lookup_value (enum_current (enum_get p c))
                              (enum_entries (enum_get p c))).

Definition IsReadable_entry (e : option enum_entry) : bool :=
  match e with
  | Some e => entry_readable e
  | None => false
  end.

(** [entry.GetValue()]: an error of the SDK on a null or unreadable entry. *)
Definition entry_GetValue (e : option enum_entry) : M Z :=
  match e with
  | Some e => if entry_readable e then ret (entry_value e)
              else raise SpinnakerException
  | None => raise SpinnakerException
  end.

(** What the device hands out for one image. *)
Record frame : Type := {
  incomplete : bool;
  image_status : Z;
  pixel_format : Z;
  format_name : option string;   (* [None]: no [GetPixelFormatName] in this PySpin *)
  shape_rows : N;
  shape_cols : N;
  shape_chans : option N
}.

Record image : Type := {
  image_id : nat;
  image_frame : frame
}.

Definition IsIncomplete (i : image) : bool := incomplete (image_frame i).
Definition GetImageStatus (i : image) : Z := image_status (image_frame i).
Definition GetPixelFormat (i : image) : Z := pixel_format (image_frame i).

Definition GetPixelFormatName (i : image) : M string :=
  match format_name (image_frame i) with
  | Some s => ret s
  | None => raise AttributeError
  end.

Definition alloc (a : ndarray) : M nat :=
  fun w => (Ok (List.length (heap w)), set_heap (heap w ++ [a]) w).

Definition deref (r : nat) : M ndarray :=
  fun w =>
    match nth_error (heap w) r with
    | Some a => (Ok a, w)
    | None => (Raise cv2_error, w)
    end.

Fixpoint list_set {A : Type} (i : nat) (x : A) (l : list A) : list A :=
  match l, i with
  | [], _ => []
  | _ :: t, O => x :: t
  | h :: t, S j => h :: list_set j x t
  end.

Definition assign (r : nat) (a : ndarray) : M unit :=
  fun w => (Ok tt, set_heap (list_set r a (heap w)) w).

(** [image.GetNDArray()]: a new array with the samples of the image. *)
Definition GetNDArray (i : image) : M nat :=
  emit (ImageGetNDArray (image_id i)) ;;
  alloc {| rows := shape_rows (image_frame i);
           cols := shape_cols (image_frame i);
           chans := shape_chans (image_frame i);
           data := Sensor (image_id i) |}.

Definition Release (i : image) : M unit := emit (ImageRelease (image_id i)).

(** What the environment supplies at one turn of the capture loop. *)
Inductive fetch : Type :=
| Arrives (f : frame)
| TimesOut
| Interrupted.

Record tick : Type := {
  clock : Q;                 (* [time.time()] *)
  localtime : struct_time;   (* what [time.strftime] formats *)
  pressed : Z                (* what [cv2.waitKey(1)] returns *)
}.

Record delivery : Type := {
  outcome : fetch;
  at_tick : tick
}.

(** [cam.GetNextImage(timeout)].  With no stream running, or nothing
    arriving in time, the SDK raises. *)
Definition GetNextImage (timeout : Z) (next : option fetch) : M image :=
  emit (CallGetNextImage timeout) ;;
  on <- read streaming ;;
  if negb on then raise SpinnakerException
  else match next with
       | Some (Arrives f) =>
           id <- (fun w => (Ok (fetched w), set_fetched (S (fetched w)) w)) ;;
           emit (ImageAcquired id) ;;
           ret {| image_id := id; image_frame := f |}
       | Some Interrupted => raise KeyboardInterrupt
       | Some TimesOut | None => raise SpinnakerException
       end.

(* ================================================================== *)
(** ** The calls into cv2, os and time *)

(** [cv2.cvtColor(src, code)] returns a new array and leaves [src] alone. *)
Definition cv2_cvtColor (src : nat) (code : ColorConversionCode) : M nat :=
  emit (CvtColor src code) ;;
  a <- deref src ;;
  if cv_accepts code a then alloc (cv_result code a) else raise cv2_error.

(** [cv2.putText(img, text, ...)] draws into [img]. *)
Definition cv2_putText (img : nat) (text : fstring) : M unit :=
  emit (PutText img text) ;;
  a <- deref img ;;
  assign img {| rows := rows a; cols := cols a; chans := chans a;
                data := Overlaid text (data a) |}.

Definition cv2_imwrite (path : string) (img : nat) : M unit :=
  emit (Imwrite path img).

Definition cv2_imshow (window : string) (img : nat) : M unit :=
  emit (Imshow window img).

Definition cv2_waitKey (delay : Z) (t : tick) : M Z :=
  emit (WaitKey delay) ;; ret (pressed t).

Definition cv2_destroyAllWindows : M unit := emit DestroyAllWindows.

(** [os.makedirs(path, exist_ok=True)]. *)
Definition os_makedirs (path : string) : M unit :=
  emit (Makedirs path) ;;
  fun w =>
    if existsb (String.eqb path) (dirs w) then (Ok tt, w)
    else (Ok tt, set_dirs (path :: dirs w) w).

(** [a % b] on Python integers. *)
Definition py_mod (a b : Z) : M Z :=
  if b =? 0 then raise ZeroDivisionError else ret (a mod b).

(** [min] and [max] of two floats. *)
Definition py_min (a b : Q) : Q := if Qle_bool a b then a else b.
Definition py_max (a b : Q) : Q := if Qle_bool b a then a else b.

(* ================================================================== *)
(** ** The functions of the scripts *)

(** [debug_pixel_format(cam)] *)
Definition debug_pixel_format : M unit :=
  readable <- read (fun c => enum_readable (PixelFormat c)) ;;
  if negb readable then print [Txt "[WARN] PixelFormat is not readable."]
  else
    current_entry <- GetCurrentEntry node_PixelFormat ;;
    match current_entry with
    | Some (symbolic, e) =>
        if entry_readable e
        then print [Txt "[INFO] Current PixelFormat: "; Str symbolic]
        else print [Txt "[WARN] Current PixelFormat entry is not readable."]
    | None => print [Txt "[WARN] Current PixelFormat entry is not readable."]
    end.

(** The [for fmt_name in [...]] loop of [set_pixel_format]; the result says
    whether the loop returned from the function. *)
Fixpoint try_formats (names : list string) : M bool :=
  match names with
  | [] => ret false
  | fmt_name :: rest =>
      entry <- GetEntryByName node_PixelFormat fmt_name ;;
      if IsReadable_entry entry then
        v <- entry_GetValue entry ;;
        enum_SetIntValue node_PixelFormat v ;;
        print [Txt "[INFO] PixelFormat set to "; Str fmt_name] ;;
        ret true
      else try_formats rest
  end.

(** [set_pixel_format(cam)], the same in both scripts. *)
Definition set_pixel_format : M unit :=
  writable <- read (fun c => enum_writable (PixelFormat c)) ;;
  if negb writable
  then print [Txt "[WARN] Cannot write PixelFormat. Using current format."]
  else
    returned <- try_formats ["RGB8Packed"; "BGR8"; "Mono8"] ;;
    if returned then ret tt
    else print [Txt "[WARN] No preferred PixelFormat found. Using default."].

(** The fallback of [convert_image_to_bgr] that goes by [img.ndim]. *)
Definition generic_conversion (img : nat) : M nat :=
  a <- deref img ;;
  if ndim a =? 2 then cv2_cvtColor img COLOR_GRAY2BGR
  else cv2_cvtColor img COLOR_RGB2BGR.

(** [convert_image_to_bgr(image_result)], the same in both scripts.  The
    result is the reference of [frame_bgr]. *)
Definition convert_image_to_bgr (image_result : image) : M nat :=
  img <- GetNDArray image_result ;;
  let pixel_format := GetPixelFormat image_result in
  fmt_name <- try_except
                (s <- GetPixelFormatName image_result ;; ret (Some s))
                AttributeError
                (ret None) ;;
  match fmt_name with
  | Some fmt_name =>
      let fmt_name_upper := upper fmt_name in
      if str_in "MONO8" fmt_name_upper then cv2_cvtColor img COLOR_GRAY2BGR
      else if str_in "RGB8" fmt_name_upper then cv2_cvtColor img COLOR_RGB2BGR
      else if str_in "BGR8" fmt_name_upper then ret img
      else if str_in "BAYERRG8" fmt_name_upper then cv2_cvtColor img COLOR_BAYER_RG2BGR
      else if str_in "BAYERGB8" fmt_name_upper then cv2_cvtColor img COLOR_BAYER_GB2BGR
      else if str_in "BAYERGR8" fmt_name_upper then cv2_cvtColor img COLOR_BAYER_GR2BGR
      else if str_in "BAYERBG8" fmt_name_upper then cv2_cvtColor img COLOR_BAYER_BG2BGR
      else
        print [Txt "[WARN] Unhandled PixelFormat name '"; Str fmt_name;
               Txt "'. Using generic conversion."] ;;
        generic_conversion img
  | None =>
      print [Txt "[WARN] PixelFormat ("; Int pixel_format;
             Txt ") without name. Using generic conversion."] ;;
      generic_conversion img
  end.

(** The four parts of [configure_camera_resolution_fps], split where the
    source has its section comments. *)
Definition even_down (v : Z) : Z := if v mod 2 =? 1 then v - 1 else v.

Definition configure_resolution (width height : Z) : M unit :=
  w_ok <- read (fun c => int_writable (Width c)) ;;
  h_ok <- read (fun c => int_writable (Height c)) ;;
  if w_ok && h_ok then
    max_w <- read (fun c => int_max (Width c)) ;;
    max_h <- read (fun c => int_max (Height c)) ;;
    let width := Z.min width max_w in
    let height := Z.min height max_h in
    let width := even_down width in
    let height := even_down height in
    int_SetValue node_Width width ;;
    int_SetValue node_Height height ;;
    print [Txt "[INFO] Resolution set to "; Int width; Txt " x "; Int height]
  else print [Txt "[WARN] Width/Height not writable"].

Definition configure_offsets : M unit :=
  x_ok <- read (fun c => int_writable (OffsetX c)) ;;
  y_ok <- read (fun c => int_writable (OffsetY c)) ;;
  if x_ok && y_ok then
    max_offset_x <- read (fun c => int_max (OffsetX c)) ;;
    max_offset_y <- read (fun c => int_max (OffsetY c)) ;;
    let offset_x := max_offset_x / 2 in
    let offset_y := max_offset_y / 2 in
    int_SetValue node_OffsetX offset_x ;;
    int_SetValue node_OffsetY offset_y
  else ret tt.

Definition configure_frame_rate (fps : Q) : M unit :=
  en_ok <- read (fun c => bool_writable (AcquisitionFrameRateEnable c)) ;;
  (if en_ok then bool_SetValue true
   else print [Txt "[WARN] AcquisitionFrameRateEnable not writable (might be always on)."]) ;;
  fps_ok <- read (fun c => float_writable (AcquisitionFrameRate c)) ;;
  if fps_ok then
    max_fps <- read (fun c => float_max (AcquisitionFrameRate c)) ;;
    let fps := py_min fps max_fps in
    float_SetValue fps ;;
    print [Txt "[INFO] Frame rate set to "; Flt fps 2; Txt " FPS"]
  else print [Txt "[WARN] Cannot set AcquisitionFrameRate."].

Definition report_applied : M unit :=
  current_width <- read (fun c =>
    if int_readable (Width c) then int_value (Width c) else -1) ;;
  current_height <- read (fun c =>
    if int_readable (Height c) then int_value (Height c) else -1) ;;
  current_fps <- read (fun c =>
    if float_readable (AcquisitionFrameRate c)
    then float_value (AcquisitionFrameRate c) else (-1 # 1)%Q) ;;
  print [Txt "[CHECK] Applied resolution: "; Int current_width; Txt " x ";
         Int current_height; Txt ", FPS: "; Flt current_fps 2].

(** [configure_camera_resolution_fps(cam, width, height, fps)] *)
Definition configure_camera_resolution_fps (width height : Z) (fps : Q) : M unit :=
  configure_resolution width height ;;
  configure_offsets ;;
  configure_frame_rate fps ;;
  report_applied.

(** [start_continuous_mode(cam)] *)
Definition start_continuous_mode : M unit :=
  writable <- read (fun c => enum_writable (AcquisitionMode c)) ;;
  if negb writable
  then print [Txt "[ERROR] Cannot set AcquisitionMode to Continuous."]
  else
    cont_entry <- GetEntryByName node_AcquisitionMode "Continuous" ;;
    v <- entry_GetValue cont_entry ;;
    enum_SetIntValue node_AcquisitionMode v ;;
    BeginAcquisition ;;
    print [Txt "[INFO] Acquisition mode: Continuous"].

(** The arguments of [realtime_view_and_save]. *)
Record settings : Type := {
  output_dir : string;
  save_every_n_frames : Z;
  window_name : string;
  width : Z;
  height : Z;
  fps : Q
}.

Definition default_settings : settings :=
  {| output_dir := "captures"; save_every_n_frames := 10;
     window_name := "FLIR Realtime"; width := 1280; height := 720;
     fps := (30 # 1)%Q |}.

Definition save_name (t : tick) (frame_count : Z) : string :=
  "frame_" ++ strftime "%Y%m%d_%H%M%S" (localtime t) ++ "_"
           ++ format_06d frame_count ++ ".png".

(** What follows the fetch of a complete image in the [while True] loop,
    up to the key test; the result is the new frame count and whether the
    loop breaks. *)
Definition process_frame (s : settings) (t0 : Q) (image_result : image)
    (t : tick) (frame_count : Z) : M (Z * bool) :=
  frame_bgr <- convert_image_to_bgr image_result ;;
  Release image_result ;;
  let frame_count := frame_count + 1 in
  let elapsed := (clock t - t0)%Q in
  let fps_measured := (inject_Z frame_count / py_max elapsed (1 # 1000000))%Q in
  cv2_putText frame_bgr [Txt "FPS: "; Flt fps_measured 1] ;;
  m <- py_mod frame_count (save_every_n_frames s) ;;
  (if m =? 0 then
     let save_path := path_join (output_dir s) (save_name t frame_count) in
     cv2_imwrite save_path frame_bgr ;;
     print [Txt "[INFO] Saved frame #"; Int frame_count; Txt " -> "; Str save_path]
   else ret tt) ;;
  cv2_imshow (window_name s) frame_bgr ;;
  key <- cv2_waitKey 1 t ;;
  if Z.land key 255 =? 113
  then print [Txt "[INFO] 'q' pressed. Exiting loop."] ;; ret (frame_count, true)
  else ret (frame_count, false).

(** The [while True] loop of [realtime_view_and_save], one turn for each
    delivery of the environment; when the environment has nothing more,
    the fetch times out. *)
Fixpoint capture_loop (s : settings) (t0 : Q) (feed : list delivery)
    (frame_count : Z) : M unit :=
  match feed with
  | [] => _ <- GetNextImage 1000 None ;; ret tt
  | d :: rest =>
      image_result <- GetNextImage 1000 (Some (outcome d)) ;;
      if IsIncomplete image_result then
        print [Txt "[WARN] Incomplete image. Status: ";
               Int (GetImageStatus image_result)] ;;
        Release image_result ;;
        capture_loop s t0 rest frame_count
      else
        r <- process_frame s t0 image_result (at_tick d) frame_count ;;
        if snd r then ret tt else capture_loop s t0 rest (fst r)
  end.

(** The [finally] block of [realtime_view_and_save]. *)
Definition cleanup : M unit :=
  try_except EndAcquisition SpinnakerException (ret tt) ;;
  DeInit ;;
  Clear ;;
  ReleaseInstance ;;
  cv2_destroyAllWindows ;;
  print [Txt "[INFO] Cleanup done."].

(** The [try] block of [realtime_view_and_save]; [t0] is the first
    reading of the clock and [feed] what the camera, the clock and the
    keyboard supply. *)
Definition capture_session (s : settings) (t0 : Q) (feed : list delivery)
  : M unit :=
  Init ;;
  print [Txt "[INFO] Before setting PixelFormat:"] ;;
  debug_pixel_format ;;
  set_pixel_format ;;
  print [Txt "[INFO] After setting PixelFormat:"] ;;
  debug_pixel_format ;;
  configure_camera_resolution_fps (width s) (height s) (fps s) ;;
  start_continuous_mode ;;
  print [Txt "[INFO] Start realtime streaming. Press 'q' to quit."] ;;
  print [Txt "[INFO] Auto save: every "; Int (save_every_n_frames s);
         Txt " frames to directory: "; Str (output_dir s)] ;;
  capture_loop s t0 feed 0.

(** [realtime_view_and_save(...)] *)
Definition realtime_view_and_save (s : settings) (t0 : Q) (feed : list delivery)
  : M unit :=
  os_makedirs (output_dir s) ;;
  System_GetInstance ;;
  GetCameras ;;
  n <- GetSize ;;
  if (n =? 0)%nat then
    print [Txt "[ERROR] No FLIR cameras found."] ;;
    Clear ;;
    ReleaseInstance
  else try_finally (capture_session s t0 feed) cleanup.

(** The [try] block of [acquire_single_frame]; [next] is what the camera
    supplies. *)
Definition single_fetch (timeout_ms : Z) (next : option fetch) : M (option nat) :=
  image_result <- GetNextImage timeout_ms next ;;
  if IsIncomplete image_result then
    print [Txt "[WARN] Image incomplete. Status: ";
           Int (GetImageStatus image_result)] ;;
    Release image_result ;;
    ret None
  else
    frame <- convert_image_to_bgr image_result ;;
    Release image_result ;;
    ret (Some frame).

(** [acquire_single_frame(cam, timeout_ms)] of the single-frame script;
    the result is [None] or the reference of the converted frame. *)
Definition acquire_single_frame (timeout_ms : Z) (next : option fetch)
  : M (option nat) :=
  writable <- read (fun c => enum_writable (AcquisitionMode c)) ;;
  if negb writable
  then print [Txt "[ERROR] Cannot set AcquisitionMode."] ;; ret None
  else
    single_entry <- GetEntryByName node_AcquisitionMode "SingleFrame" ;;
    v <- entry_GetValue single_entry ;;
    enum_SetIntValue node_AcquisitionMode v ;;
    BeginAcquisition ;;
    try_finally (single_fetch timeout_ms next) EndAcquisition.

(** [lab2_single_frame(output_path)] *)
Definition lab2_single_frame (output_path : string) (next : option fetch)
  : M unit :=
  System_GetInstance ;;
  GetCameras ;;
  n <- GetSize ;;
  if (n =? 0)%nat then
    print [Txt "[ERROR] No FLIR cameras found."] ;;
    Clear ;;
    ReleaseInstance
  else
    try_finally
      (Init ;;
       print [Txt "[INFO] Before setting PixelFormat:"] ;;
       debug_pixel_format ;;
       set_pixel_format ;;
       print [Txt "[INFO] After setting PixelFormat:"] ;;
       debug_pixel_format ;;
       frame <- acquire_single_frame 1000 next ;;
       match frame with
       | None => print [Txt "[ERROR] Failed to acquire single frame."]
       | Some frame =>
           cv2_imwrite output_path frame ;;
           print [Txt "[INFO] Saved single frame to: "; Str output_path]
       end)
      (DeInit ;; Clear ;; ReleaseInstance).

(** A world at the start of a script: nothing logged, no array, no image
    handed out. *)
Definition boot (cameras : list camera) (existing_dirs : list string)
    (f : faults) : world :=
  {| cams := cameras; heap := []; log := []; dirs := existing_dirs;
     fetched := 0; sdk := f |}.

(** The log in the order of the calls. *)
Definition history (w : world) : list event := rev (log w).

(* ================================================================== *)
(** ** Sample devices and frames *)

Definition rw_int (m v : Z) : int_node :=
  {| int_readable := true; int_writable := true; int_max := m; int_value := v |}.

Definition ro_int (m v : Z) : int_node :=
  {| int_readable := true; int_writable := false; int_max := m; int_value := v |}.

Definition entry (v : Z) : enum_entry :=
  {| entry_readable := true; entry_value := v |}.

Definition demo_formats : enum_node :=
  {| enum_readable := true; enum_writable := true;
     enum_entries := [("BayerRG8", entry 1); ("BGR8", entry 2); ("Mono8", entry 3)];
     enum_current := 1 |}.

Definition demo_modes : enum_node :=
  {| enum_readable := true; enum_writable := true;
     enum_entries := [("Continuous", entry 0); ("SingleFrame", entry 1)];
     enum_current := 0 |}.

Definition demo_camera : camera :=
  {| PixelFormat := demo_formats;
     Width := rw_int 1921 640; Height := rw_int 1200 480;
     OffsetX := rw_int 10 0; OffsetY := rw_int 20 0;
     AcquisitionFrameRateEnable := {| bool_writable := true; bool_value := false |};
     AcquisitionFrameRate :=
       {| float_readable := true; float_writable := true;
          float_max := (60 # 1)%Q; float_value := (10 # 1)%Q |};
     AcquisitionMode := demo_modes;
     initialized := false; streaming := false |}.

(** The same device with its geometry locked. *)
Definition locked_camera : camera :=
  set_OffsetX (ro_int 10 0)
    (set_Width (ro_int 1921 640) demo_camera).

(** The same device in the middle of a stream. *)
Definition streaming_camera : camera :=
  set_streaming true (set_initialized true demo_camera).

(** The same device with its acquisition mode locked: no stream can be
    started on it. *)
Definition idle_camera : camera :=
  set_AcquisitionMode
    {| enum_readable := true; enum_writable := false;
       enum_entries := enum_entries demo_modes; enum_current := 0 |}
    demo_camera.


Definition demo_world : world := boot [demo_camera] [] no_faults.

Definition mk_frame (partial : bool) (name : option string) (ch : option N)
  : frame :=
  {| incomplete := partial; image_status := 0; pixel_format := 0;
     format_name := name; shape_rows := 4; shape_cols := 6; shape_chans := ch |}.

Definition mk_image (name : option string) (ch : option N) : image :=
  {| image_id := 0; image_frame := mk_frame false name ch |}.

Definition noon : struct_time :=
  {| tm_year := 2025; tm_mon := 3; tm_mday := 9;
     tm_hour := 12; tm_min := 0; tm_sec := 5 |}.

Definition tick_with (key : Z) : tick :=
  {| clock := (1 # 1)%Q; localtime := noon; pressed := key |}.

Definition arrival (f : frame) (key : Z) : delivery :=
  {| outcome := Arrives f; at_tick := tick_with key |}.

(** The time stamp of the [k]-th delivery of a feed, counted from 0. *)
Definition stamp_of (feed : list delivery) (k : nat) : string :=
  strftime "%Y%m%d_%H%M%S"
    (localtime (at_tick (nth k feed (arrival (mk_frame false None None) 0)))).

(** An incomplete image followed by thirty-five BGR8 frames, with no key
    pressed. *)
Definition demo_feed : list delivery :=
  arrival (mk_frame true (Some "BGR8") (Some 3%N)) (-1)
  :: repeat (arrival (mk_frame false (Some "BGR8") (Some 3%N)) (-1)) 35.

(** The key 'q' came with this delivery: [cv2.waitKey(1) & 0xFF == ord("q")]. *)
Definition quits (d : delivery) : bool :=
  Z.land (pressed (at_tick d)) 255 =? 113.

(** The deliveries that are complete images. *)
Definition complete (d : delivery) : bool :=
  match outcome d with
  | Arrives f => negb (incomplete f)
  | _ => false
  end.

(* ================================================================== *)
(** ** What the specification says, in its own words *)

(** "Clamp requested values to [0, device-max], then decrement any odd
    value by one." *)
Definition clamp_then_even (requested device_max : Z) : Z :=
  let clamped := Z.max 0 (Z.min requested device_max) in
  if Z.odd clamped then clamped - 1 else clamped.

(** "Writes the first candidate whose enumeration entry is readable." *)
Definition first_readable (candidates : list string) (n : enum_node)
  : option string :=
  find (fun name => IsReadable_entry (lookup_entry name (enum_entries n)))
       candidates.

(** "Saves on frame counts N, 2N, 3N, ... and on no others." *)
Definition save_counts (n : Z) (produced : nat) : list Z :=
  filter (fun c => c mod n =? 0) (map Z.of_nat (seq 1 produced)).

(* ================================================================== *)
(** ** Outcomes, ledgers and relations used in the statements *)

Local Open Scope list_scope.

(** The world after [set_pixel_format] wrote the entry [name] of value [v]. *)
Definition format_written (name : string) (v : Z) (c : camera)
    (rest : list camera) (w : world) : world :=
  {| cams := set_PixelFormat (with_current v (PixelFormat c)) c :: rest;
     heap := heap w;
     log := Printed [Txt "[INFO] PixelFormat set to "; Str name]
            :: NodeSet "PixelFormat" (VInt v) :: log w;
     dirs := dirs w; fetched := fetched w; sdk := sdk w |}.

(** The world after the resolution block wrote [wd] and [ht]. *)
Definition resolution_written (wd ht : Z) (c : camera) (rest : list camera)
    (w : world) : world :=
  {| cams := set_Height (with_int ht (Height c))
               (set_Width (with_int wd (Width c)) c) :: rest;
     heap := heap w;
     log := Printed [Txt "[INFO] Resolution set to "; Int wd; Txt " x "; Int ht]
            :: NodeSet "Height" (VInt ht) :: NodeSet "Width" (VInt wd) :: log w;
     dirs := dirs w; fetched := fetched w; sdk := sdk w |}.

(** The world after the offset block wrote [ox] and [oy]. *)
Definition offsets_written (ox oy : Z) (c : camera) (rest : list camera)
    (w : world) : world :=
  {| cams := set_OffsetY (with_int oy (OffsetY c))
               (set_OffsetX (with_int ox (OffsetX c)) c) :: rest;
     heap := heap w;
     log := NodeSet "OffsetY" (VInt oy) :: NodeSet "OffsetX" (VInt ox) :: log w;
     dirs := dirs w; fetched := fetched w; sdk := sdk w |}.

(** The first camera of a world; the sample camera stands in when there is
    none. *)
Definition camera_of (w : world) : camera := hd demo_camera (cams w).

(** The array [GetNDArray] makes of an image. *)
Definition raw_of (i : image) : ndarray :=
  {| rows := shape_rows (image_frame i);
     cols := shape_cols (image_frame i);
     chans := shape_chans (image_frame i);
     data := Sensor (image_id i) |}.

(** The world after [convert_image_to_bgr] took the array of [i], printed
    [notes] and asked [cv2.cvtColor] for [code]: a second array exists if
    OpenCV accepted the first, and the first is as it was. *)
Definition cvt_outcome (code : ColorConversionCode) (notes : list event)
    (i : image) (w : world) : result nat * world :=
  let img := List.length (heap w) in
  let calls := CvtColor img code :: notes ++ ImageGetNDArray (image_id i) :: log w in
  if cv_accepts code (raw_of i)
  then (Ok (S img),
        {| cams := cams w;
           heap := heap w ++ [raw_of i; cv_result code (raw_of i)];
           log := calls; dirs := dirs w; fetched := fetched w; sdk := sdk w |})
  else (Raise cv2_error,
        {| cams := cams w; heap := heap w ++ [raw_of i];
           log := calls; dirs := dirs w; fetched := fetched w; sdk := sdk w |}).

(** The world after the array of [i] was returned as it is. *)
Definition reused (i : image) (w : world) : result nat * world :=
  (Ok (List.length (heap w)),
   {| cams := cams w; heap := heap w ++ [raw_of i];
      log := ImageGetNDArray (image_id i) :: log w;
      dirs := dirs w; fetched := fetched w; sdk := sdk w |}).

Definition unhandled_warning (fmt_name : string) : event :=
  Printed [Txt "[WARN] Unhandled PixelFormat name '"; Str fmt_name;
           Txt "'. Using generic conversion."].

Definition unnamed_warning (pixel_format : Z) : event :=
  Printed [Txt "[WARN] PixelFormat ("; Int pixel_format;
           Txt ") without name. Using generic conversion."].

Definition generic_code (a : ndarray) : ColorConversionCode :=
  if ndim a =? 2 then COLOR_GRAY2BGR else COLOR_RGB2BGR.

Definition is_gb_demosaic (e : event) : bool :=
  match e with
  | CvtColor _ COLOR_BAYER_GB2BGR => true
  | _ => false
  end.

(** How often [cv2.cvtColor] was asked for the GB demosaic. *)
Definition gb_demosaics (l : list event) : nat :=
  List.length (filter is_gb_demosaic l).

(** A name that none of the seven tests of the dispatch recognizes. *)
Definition unrecognized (fmt_name : string) : bool :=
  let u := upper fmt_name in
  negb (str_in "MONO8" u || str_in "RGB8" u || str_in "BGR8" u
        || str_in "BAYERRG8" u || str_in "BAYERGB8" u
        || str_in "BAYERGR8" u || str_in "BAYERBG8" u).

(** The buffers the generic conversion can handle: the two-dimensional
    ones, and those with a third axis of one, three or four channels. *)
Definition generic_ok (a : ndarray) : bool :=
  negb (cv_empty a) &&
  match chans a with
  | None => true
  | Some c => (c =? 1)%N || (c =? 3)%N || (c =? 4)%N
  end.

(** The calls an event list may contain are given by a test; [quiet ok]
    relates two worlds when the later one has the same directories, the
    same faults and as many cameras, and its log extends the earlier log
    by calls that pass the test. *)
Definition quiet (ok : event -> bool) (w w' : world) : Prop :=
  dirs w' = dirs w /\ sdk w' = sdk w /\
  List.length (cams w') = List.length (cams w) /\
  exists delta, log w' = delta ++ log w /\ forallb ok delta = true.

(** The four calls of the teardown. *)
Definition is_teardown (e : event) : bool :=
  match e with
  | CameraEndAcquisition | CameraDeInit | CameraListClear
  | SystemReleaseInstance => true
  | _ => false
  end.

Definition teardown_calls : list event :=
  [CameraEndAcquisition; CameraDeInit; CameraListClear; SystemReleaseInstance].


(** The images handed out, released, and given to the normalizer, and the
    paths written, as a log records them (latest first, like the log). *)
Definition acquired (l : list event) : list nat :=
  flat_map (fun e => match e with ImageAcquired id => [id] | _ => [] end) l.

Definition released (l : list event) : list nat :=
  flat_map (fun e => match e with ImageRelease id => [id] | _ => [] end) l.

Definition normalized (l : list event) : list nat :=
  flat_map (fun e => match e with ImageGetNDArray id => [id] | _ => [] end) l.

Definition saved_paths (l : list event) : list string :=
  flat_map (fun e => match e with Imwrite p _ => [p] | _ => [] end) l.

(** Calls that neither hand out nor release an image nor write a file. *)
Definition calm (e : event) : bool :=
  match e with
  | ImageAcquired _ | ImageRelease _ | Imwrite _ _ => false
  | _ => true
  end.

Definition is_print (e : event) : bool :=
  match e with
  | Printed _ => true
  | _ => false
  end.

(** Whether OpenCV accepts what the dispatch sends it for a frame; the
    image number and the world play no part in it. *)
Definition convertible (f : frame) : bool :=
  match fst (convert_image_to_bgr {| image_id := 0; image_frame := f |} demo_world) with
  | Ok _ => true
  | Raise _ => false
  end.

Definition overlay (text : fstring) (a : ndarray) : ndarray :=
  {| rows := rows a; cols := cols a; chans := chans a;
     data := Overlaid text (data a) |}.

Definition fps_text (t0 : Q) (t : tick) (frame_count : Z) : fstring :=
  [Txt "FPS: ";
   Flt (inject_Z frame_count / py_max (clock t - t0) (1 # 1000000))%Q 1].

(** The calls of the save step for frame number [n] kept in [r], latest
    first; none when [n] is not due. *)
Definition save_calls (s : settings) (t : tick) (n : Z) (r : nat) : list event :=
  if n mod save_every_n_frames s =? 0 then
    [Printed [Txt "[INFO] Saved frame #"; Int n; Txt " -> ";
              Str (path_join (output_dir s) (save_name t n))];
     Imwrite (path_join (output_dir s) (save_name t n)) r]
  else [].

(** [process_frame] from the point where the conversion has returned the
    reference [r] of the array [a] and left the world [w1]. *)
Definition shown (s : settings) (t0 : Q) (i : image) (t : tick)
    (frame_count : Z) (r : nat) (a : ndarray) (w1 : world)
  : result (Z * bool) * world :=
  let n := frame_count + 1 in
  let drawn := PutText r (fps_text t0 t n) :: ImageRelease (image_id i) :: log w1 in
  let h := list_set r (overlay (fps_text t0 t n) a) (heap w1) in
  let at_log l :=
    {| cams := cams w1; heap := h; log := l; dirs := dirs w1;
       fetched := fetched w1; sdk := sdk w1 |} in
  if save_every_n_frames s =? 0 then (Raise ZeroDivisionError, at_log drawn)
  else
    let displayed :=
      WaitKey 1 :: Imshow (window_name s) r :: save_calls s t n r ++ drawn in
    if Z.land (pressed t) 255 =? 113
    then (Ok (n, true),
          at_log (Printed [Txt "[INFO] 'q' pressed. Exiting loop."] :: displayed))
    else (Ok (n, false), at_log displayed).

(** The world after the device handed out its next image. *)
Definition handed_out (timeout : Z) (w : world) : world :=
  {| cams := cams w; heap := heap w;
     log := ImageAcquired (fetched w) :: CallGetNextImage timeout :: log w;
     dirs := dirs w; fetched := S (fetched w); sdk := sdk w |}.

(** The world after an incomplete image was reported and released. *)
Definition skipped (i : image) (w1 : world) : world :=
  set_log (ImageRelease (image_id i)
           :: Printed [Txt "[WARN] Incomplete image. Status: ";
                       Int (GetImageStatus i)]
           :: log w1) w1.

Definition is_cv2_error {A : Type} (r : result A) : bool :=
  match r with
  | Raise cv2_error => true
  | _ => false
  end.

(** The books of a stretch [d] of the log that starts when [n0] images
    had been handed out: [k] more images were handed out, numbered in a
    row; only they went to the normalizer; and each was released once,
    except that when the stretch ends in OpenCV's exception the image
    handed out last, the one in conversion, was not released. *)
Definition ledger (n0 : nat) (raised : bool) (d : list event) (k : nat) : Prop :=
  acquired d = rev (seq n0 k) /\
  incl (normalized d) (acquired d) /\
  if raised
  then exists id more, acquired d = id :: released d /\ normalized d = id :: more
  else released d = acquired d.

(** The books of a single fetch: either no image was handed out, or one
    was, and it was released once unless its conversion raised. *)
Definition single_ledger (n0 : nat) (next : option fetch) (d : list event) : Prop :=
  (acquired d = [] /\ released d = [] /\ normalized d = [])
  \/ (exists f, next = Some (Arrives f) /\
        acquired d = [n0] /\
        released d = (if incomplete f || convertible f then [n0] else []) /\
        normalized d = (if incomplete f then [] else [n0])).

(** A delivery that becomes a frame: a complete image that OpenCV accepts. *)
Definition good (d : delivery) : bool :=
  match outcome d with
  | Arrives f => negb (incomplete f) && convertible f
  | _ => false
  end.

(** A delivery that does not end the loop: an incomplete image, or a
    complete one that OpenCV accepts. *)
Definition usable (d : delivery) : bool :=
  match outcome d with
  | Arrives f => incomplete f || convertible f
  | _ => false
  end.

(** The paths due over the frames of a run that starts at frame count
    [n], in the order of the frames. *)
Fixpoint due (s : settings) (n : Z) (feed : list delivery) : list string :=
  match feed with
  | [] => []
  | d :: rest =>
      (if (n + 1) mod save_every_n_frames s =? 0
       then [path_join (output_dir s) (save_name (at_tick d) (n + 1))]
       else [])
      ++ due s (n + 1) rest
  end.

(** [m] relates by [P] the world it starts in to the world it leaves,
    whether it returns or raises. *)
Definition keeps (P : world -> world -> Prop) {A : Type} (m : M A) : Prop :=
  forall w, P w (snd (m w)).

(* ================================================================== *)
(** ** The device-information script of the SDK *)

(** A string node of the transport-layer node map. *)
Record string_node : Type := {
  str_readable : bool;
  str_value : string
}.

(** [cam.GetTLDeviceNodeMap()] of the first camera, as far as
    [print_camera_info] reads it. *)
Record tl_device : Type := {
  DeviceModelName : string_node;
  DeviceSerialNumber : string_node;
  DeviceVendorName : string_node
}.

(** [node.GetValue() if PySpin.IsReadable(node) else "Unknown"] *)
Definition value_or_unknown (n : string_node) : string :=
  if str_readable n then str_value n else "Unknown"%string.

(** [print_camera_info(cam)] of [lab1_camera_info.py] *)
Definition print_camera_info (tl : tl_device) : M unit :=
  let model_name := value_or_unknown (DeviceModelName tl) in
  let serial := value_or_unknown (DeviceSerialNumber tl) in
  let vendor := value_or_unknown (DeviceVendorName tl) in
  print [Txt "=== Camera Information ==="] ;;
  print [Txt "  Vendor : "; Str vendor] ;;
  print [Txt "  Model  : "; Str model_name] ;;
  print [Txt "  Serial : "; Str serial].

(** [lab1_camera_info()] *)
Definition lab1_camera_info (tl : tl_device) : M unit :=
  System_GetInstance ;;
  GetCameras ;;
  num_cams <- GetSize ;;
  print [Txt "[INFO] Number of FLIR cameras detected: "; Int (Z.of_nat num_cams)] ;;
  if (num_cams =? 0)%nat then
    Clear ;;
    ReleaseInstance
  else
    try_finally
      (Init ;; print_camera_info tl)
      (DeInit ;; Clear ;; ReleaseInstance).

Definition demo_tl : tl_device :=
  {| DeviceModelName := {| str_readable := true; str_value := "Blackfly S" |};
     DeviceSerialNumber := {| str_readable := false; str_value := "" |};
     DeviceVendorName := {| str_readable := true; str_value := "FLIR" |} |}.

(** An SDK whose [Init] fails. *)
Definition init_fails : faults :=
  {| fail_Init := true; fail_BeginAcquisition := false;
     fail_EndAcquisition := false; fail_DeInit := false;
     fail_Clear := false; fail_ReleaseInstance := false |}.

(* ================================================================== *)
(** ** The V4L2 script *)

(** [lab1_gstreamer.py] talks to the operating system and to
    [cv2.VideoCapture] only, so it has a world and a log of its own. *)

(** What [cv2.VideoCapture(path, cv2.CAP_V4L2)] gives: the constructor
    raises, or it returns a capture that is not opened, or one that is
    opened and whose first [read()] yields a frame of some shape or
    nothing. *)
Inductive capture : Type :=
| ConstructorRaises
| NotOpened
| Opened (first_frame : option (list Z)).

Record v4l2 : Type := {
  listdir_dev : list string;            (* [os.listdir("/dev")] *)
  realpath : string -> option string;   (* [None]: [OSError] *)
  VideoCapture : string -> capture
}.

Inductive v4l2_event : Type :=
| Said (msg : fstring)
| CaptureCreated (path : string)
| CaptureRead
| CaptureReleased
| WindowsDestroyed.

(** [sorted(...)] on strings: the order is the one of the code points,
    and the result is the ordered permutation, here built by insertion. *)
Fixpoint insert_sorted (x : string) (l : list string) : list string :=
  match l with
  | [] => [x]
  | y :: t => if String.leb x y then x :: l else y :: insert_sorted x t
  end.

Definition sorted (l : list string) : list string :=
  fold_right insert_sorted [] l.

(** [str(frame.shape)] as the pieces of the printed tuple. *)
Fixpoint tuple_items (l : list Z) : fstring :=
  match l with
  | [] => []
  | [z] => [Int z]
  | z :: rest => Int z :: Txt ", " :: tuple_items rest
  end.

Definition tuple_repr (l : list Z) : fstring :=
  match l with
  | [z] => [Txt "("; Int z; Txt ",)"]
  | _ => Txt "(" :: tuple_items l ++ [Txt ")"]
  end.

(** [print_gstreamer_info(device_path)] *)
Definition print_gstreamer_info (os : v4l2) (device_path : string)
  : list v4l2_event :=
  [Said [Txt "=== Video Device Information ==="];
   Said [Txt "  Device Path: "; Str device_path];
   match realpath os device_path with
   | Some real_path => Said [Txt "  Real Path  : "; Str real_path]
   | None => Said [Txt "  Real Path  : Could not resolve link"]
   end].

(** The list comprehension and the sort of [lab1_gstreamer_info]. *)
Definition video_devices (os : v4l2) : list string :=
  sorted (filter (String.prefix "video") (listdir_dev os)).

(** [lab1_gstreamer_info()]: what it returns or raises, and the calls it
    makes, in their order. *)
Definition lab1_gstreamer_info (os : v4l2) : result unit * list v4l2_event :=
  let num_devices := List.length (video_devices os) in
  let counted :=
    Said [Txt "[INFO] Number of V4L2 video devices detected: ";
          Int (Z.of_nat num_devices)] in
  match video_devices os with
  | [] => (Ok tt, [counted; Said [Txt "[INFO] No /dev/video* devices found."]])
  | device_name :: _ =>
      let device_path := ("/dev/" ++ device_name)%string in
      let before := counted :: print_gstreamer_info os device_path in
      match VideoCapture os device_path with
      | ConstructorRaises =>
          (* [cap] is not among the locals in the [finally] block *)
          (Raise cv2_error, before ++ [CaptureCreated device_path; WindowsDestroyed])
      | NotOpened =>
          (Ok tt,
           before ++
           [CaptureCreated device_path;
            Said [Txt "[ERROR] Failed to open "; Str device_path;
                  Txt ". The device might be in use or requires a specific GStreamer pipeline (e.g., for CSI)."];
            WindowsDestroyed])
      | Opened first_frame =>
          (Ok tt,
           before ++
           [CaptureCreated device_path;
            Said [Txt "[SUCCESS] Successfully opened "; Str device_path;
                  Txt " using OpenCV/V4L2."];
            CaptureRead;
            match first_frame with
            | Some shape =>
                Said (Txt "[SUCCESS] Read one frame of size: " :: tuple_repr shape)
            | None => Said [Txt "[WARNING] Could not read frame from device."]
            end;
            CaptureReleased;
            WindowsDestroyed])
      end
  end.

Definition demo_dev : v4l2 :=
  {| listdir_dev := ["tty0"; "video2"; "null"; "video10"; "videodev"; "v4l"]%string;
     realpath := fun p => Some p;
     VideoCapture := fun p =>
       if String.eqb p "/dev/video10" then Opened (Some [480; 640; 3])
       else NotOpened |}.

(* ================================================================== *)
(** ** Definitions for the statements about the rest of the scripts *)

(** The same frame under another format name. *)
Definition with_name (name : option string) (f : frame) : frame :=
  {| incomplete := incomplete f; image_status := image_status f;
     pixel_format := pixel_format f; format_name := name;
     shape_rows := shape_rows f; shape_cols := shape_cols f;
     shape_chans := shape_chans f |}.

(** The three calls that close the device and the session. *)
Definition is_closing (e : event) : bool :=
  match e with
  | CameraDeInit | CameraListClear | SystemReleaseInstance => true
  | _ => false
  end.

Definition not_closing (e : event) : bool := negb (is_closing e).

Definition closing_calls : list event :=
  [CameraDeInit; CameraListClear; SystemReleaseInstance].

Definition count_event (p : event -> bool) (l : list event) : nat :=
  List.length (filter p l).

Definition is_end_acquisition (e : event) : bool :=
  match e with
  | CameraEndAcquisition => true
  | _ => false
  end.

Definition is_begin_acquisition (e : event) : bool :=
  match e with
  | CameraBeginAcquisition => true
  | _ => false
  end.

Definition is_display (e : event) : bool :=
  match e with
  | Imshow _ _ | WaitKey _ => true
  | _ => false
  end.

(** Whether [acquire_single_frame] gets as far as a running stream: the
    mode is writable, its SingleFrame entry is readable, and
    [BeginAcquisition] works. *)
Definition single_starts (c : camera) (f : faults) : bool :=
  enum_writable (AcquisitionMode c)
  && IsReadable_entry (lookup_entry "SingleFrame" (enum_entries (AcquisitionMode c)))
  && negb (fail_BeginAcquisition f).

(** The values of the entries of an enumeration. *)
Definition entry_values (n : enum_node) : list Z :=
  map (fun p => entry_value (snd p)) (enum_entries n).

(** A delivery that is an incomplete image. *)
Definition partial_image (d : delivery) : bool :=
  match outcome d with
  | Arrives f => incomplete f
  | _ => false
  end.

(** The calls [convert_image_to_bgr] makes. *)
Definition is_conversion_call (e : event) : bool :=
  match e with
  | ImageGetNDArray _ | CvtColor _ _ | Printed _ => true
  | _ => false
  end.

Definition is_fetch_call (e : event) : bool :=
  match e with
  | CallGetNextImage _ => true
  | _ => false
  end.

(** The calls of the set-up of a camera: lines printed and nodes written. *)
Definition is_setup_call (e : event) : bool :=
  match e with
  | Printed _ | NodeSet _ _ => true
  | _ => false
  end.

(** The device delivers a complete image that OpenCV accepts. *)
Definition frame_arrives (next : option fetch) : bool :=
  match next with
  | Some (Arrives f) => negb (incomplete f) && convertible f
  | _ => false
  end.

(** A call returned a frame, not [None] and not an exception. *)
Definition returns_frame (r : result (option nat)) : bool :=
  match r with
  | Ok (Some _) => true
  | _ => false
  end.

Local Open Scope string_scope.
Local Open Scope Z_scope.

(* ================================================================== *)
(** ** Proof tools *)

(** Unfold the monad and compute the calls whose arguments are known. *)
Ltac run :=
  unfold bind, ret, raise, read, update, emit, print, fault, try_except,
    try_finally;
  cbn -[try_formats str_in upper Z.min Z.max Z.div Z.modulo Z.land Z.add Z.sub
        strftime format_06d path_join List.length nth_error app
        convert_image_to_bgr process_frame capture_loop capture_session cleanup
        single_fetch].

(** Run, and split on every test the run gets stuck on. *)
Ltac run_cases :=
  run;
  repeat (match goal with
          | |- context [if ?b then _ else _] => destruct b eqn:?
          end; run).

(** Replace a world by its fields, so that every projection computes. *)
Ltac open_world w H :=
  destruct w as [? ? ? ? ? ?]; cbn [cams heap log dirs fetched sdk] in H |- *; subst.

(* ================================================================== *)
(** ** Pixel-format selection *)

Lemma try_formats_spec (names : list string) (w : world) (c : camera)
    (rest : list camera) (Hcam : cams w = c :: rest) :
  try_formats names w =
    match first_readable names (PixelFormat c) with
    | Some name =>
        match lookup_entry name (enum_entries (PixelFormat c)) with
        | Some e => (Ok true, format_written name (entry_value e) c rest w)
        | None => (Ok false, w)
        end
    | None => (Ok false, w)
    end.
Proof.
  open_world w Hcam.
  induction names as [|name names IH]; [reflexivity|].
  unfold first_readable in *. cbn [try_formats find].
  unfold GetEntryByName. run.
  destruct (lookup_entry name (enum_entries (PixelFormat c))) as [e|] eqn:E; cbn.
  - destruct (entry_readable e) eqn:R.
    + rewrite E. reflexivity.
    + exact IH.
  - exact IH.
Qed.

Lemma first_readable_sound (names : list string) (n : enum_node) (name : string) :
  first_readable names n = Some name ->
  In name names /\
  exists e, lookup_entry name (enum_entries n) = Some e /\ entry_readable e = true.
Proof.
  unfold first_readable. intros H. apply find_some in H. destruct H as [Hin H].
  split; [exact Hin|].
  destruct (lookup_entry name (enum_entries n)) as [e|]; [|discriminate].
  exists e. auto.
Qed.

(** C10.  With a camera at hand, [set_pixel_format] always returns
    normally.  When the PixelFormat node is not writable it only prints a
    warning and the world is otherwise as before.  When it is writable the
    candidates RGB8Packed, BGR8, Mono8 are probed in this order and the
    value of the first one whose entry is readable is written; when none
    is readable it only prints a warning and the node is left alone. *)
Theorem set_pixel_format_selection (w : world) (c : camera) (rest : list camera)
    (Hcam : cams w = c :: rest) :
  let pf := PixelFormat c in
  let candidates := ["RGB8Packed"; "BGR8"; "Mono8"] in
  (enum_writable pf = false ->
     set_pixel_format w =
       (Ok tt,
        set_log (Printed [Txt "[WARN] Cannot write PixelFormat. Using current format."]
                 :: log w) w))
  /\ (enum_writable pf = true ->
      match first_readable candidates pf with
      | Some name =>
          exists e, lookup_entry name (enum_entries pf) = Some e /\
            entry_readable e = true /\
            set_pixel_format w = (Ok tt, format_written name (entry_value e) c rest w)
      | None =>
          set_pixel_format w =
            (Ok tt,
             set_log (Printed [Txt "[WARN] No preferred PixelFormat found. Using default."]
                      :: log w) w)
      end).
Proof.
  intros pf candidates. open_world w Hcam.
  match goal with
  | |- context [set_pixel_format ?W] =>
      assert (Hloop := try_formats_spec candidates W c rest eq_refl)
  end.
  fold pf in Hloop.
  split; intros Hw.
  - unfold set_pixel_format. run. fold pf. rewrite Hw. reflexivity.
  - destruct (first_readable candidates pf) as [name|] eqn:F.
    + destruct (first_readable_sound _ _ _ F) as [_ [e [E R]]].
      exists e. rewrite E in Hloop. repeat split; auto.
      unfold set_pixel_format. run. fold pf candidates. rewrite Hw. cbn [negb].
      rewrite Hloop. reflexivity.
    + unfold set_pixel_format. run. fold pf candidates. rewrite Hw. cbn [negb].
      rewrite Hloop. reflexivity.
Qed.

(** On the sample device, which lists no RGB8Packed, BGR8 is written. *)
Lemma set_pixel_format_selection_witness :
  cams demo_world = demo_camera :: [] /\
  set_pixel_format demo_world =
    (Ok tt, format_written "BGR8" 2 demo_camera [] demo_world).
Proof.
  split; [reflexivity|].
  destruct (set_pixel_format_selection demo_world demo_camera [] eq_refl) as [_ H].
  specialize (H eq_refl). cbn in H. destruct H as [e [E [_ H]]].
  injection E as <-. exact H.
Defined.

(* ================================================================== *)
(** ** Resolution and offsets *)

Lemma even_down_floor (v : Z) : even_down v = 2 * (v / 2).
Proof.
  unfold even_down.
  pose proof (Z.mod_pos_bound v 2 ltac:(lia)) as Hb.
  pose proof (Z.div_mod v 2 ltac:(lia)) as Hd.
  destruct (Z.eqb_spec (v mod 2) 1); lia.
Qed.

Lemma even_down_odd (v : Z) : Z.odd v = true -> even_down v = v - 1.
Proof.
  intros H. unfold even_down. rewrite Zmod_odd, H. reflexivity.
Qed.

Lemma even_down_as_spec (v : Z) :
  even_down v = if Z.odd v then v - 1 else v.
Proof.
  unfold even_down. rewrite Zmod_odd. destruct (Z.odd v); reflexivity.
Qed.

Lemma configure_resolution_runs (width height : Z) (w : world) (c : camera)
    (rest : list camera) (Hcam : cams w = c :: rest) :
  configure_resolution width height w =
    if int_writable (Width c) && int_writable (Height c)
    then (Ok tt,
          resolution_written (even_down (Z.min width (int_max (Width c))))
                             (even_down (Z.min height (int_max (Height c))))
                             c rest w)
    else (Ok tt, set_log (Printed [Txt "[WARN] Width/Height not writable"] :: log w) w).
Proof.
  open_world w Hcam. unfold configure_resolution, int_SetValue. run.
  destruct (int_writable (Width c)), (int_writable (Height c)); reflexivity.
Qed.

Lemma configure_offsets_runs (w : world) (c : camera) (rest : list camera)
    (Hcam : cams w = c :: rest) :
  configure_offsets w =
    if int_writable (OffsetX c) && int_writable (OffsetY c)
    then (Ok tt,
          offsets_written (int_max (OffsetX c) / 2) (int_max (OffsetY c) / 2) c rest w)
    else (Ok tt, w).
Proof.
  open_world w Hcam. unfold configure_offsets, int_SetValue. run.
  destruct (int_writable (OffsetX c)), (int_writable (OffsetY c)); reflexivity.
Qed.

(** The frame-rate block and the report return normally and touch neither
    the geometry nodes nor anything but the log and the frame-rate nodes. *)
Lemma configure_frame_rate_runs (fps : Q) (w : world) (c : camera)
    (rest : list camera) (Hcam : cams w = c :: rest) :
  exists w',
    (configure_frame_rate fps ;; report_applied) w = (Ok tt, w') /\
    Width (camera_of w') = Width c /\ Height (camera_of w') = Height c /\
    OffsetX (camera_of w') = OffsetX c /\ OffsetY (camera_of w') = OffsetY c.
Proof.
  open_world w Hcam.
  unfold configure_frame_rate, report_applied, bool_SetValue, float_SetValue. run.
  run_cases; eexists; (split; [reflexivity | cbn; auto]).
Qed.

(** [configure_camera_resolution_fps] is its four blocks in a row and
    returns normally. *)
Lemma configure_camera_runs (width height : Z) (fps : Q) (w : world)
    (c : camera) (rest : list camera) (Hcam : cams w = c :: rest) :
  exists w1 w2 w',
    configure_resolution width height w = (Ok tt, w1) /\
    configure_offsets w1 = (Ok tt, w2) /\
    configure_camera_resolution_fps width height fps w = (Ok tt, w') /\
    Width (camera_of w') = Width (camera_of w2) /\
    Height (camera_of w') = Height (camera_of w2) /\
    OffsetX (camera_of w') = OffsetX (camera_of w2) /\
    OffsetY (camera_of w') = OffsetY (camera_of w2) /\
    OffsetX (camera_of w1) = OffsetX c /\ OffsetY (camera_of w1) = OffsetY c /\
    Width (camera_of w2) = Width (camera_of w1) /\
    Height (camera_of w2) = Height (camera_of w1).
Proof.
  pose proof (configure_resolution_runs width height w c rest Hcam) as H1.
  assert (exists w1 c1, configure_resolution width height w = (Ok tt, w1) /\
            cams w1 = c1 :: rest /\ OffsetX c1 = OffsetX c /\ OffsetY c1 = OffsetY c)
    as (w1 & c1 & E1 & Hc1 & Hx1 & Hy1).
  { rewrite H1. destruct (int_writable (Width c) && int_writable (Height c));
      eexists; eexists; (split; [reflexivity|]); cbn; rewrite ?Hcam; auto. }
  pose proof (configure_offsets_runs w1 c1 rest Hc1) as H2.
  assert (exists w2 c2, configure_offsets w1 = (Ok tt, w2) /\
            cams w2 = c2 :: rest /\ Width c2 = Width c1 /\ Height c2 = Height c1)
    as (w2 & c2 & E2 & Hc2 & Hw2 & Hh2).
  { rewrite H2. destruct (int_writable (OffsetX c1) && int_writable (OffsetY c1));
      eexists; eexists; (split; [reflexivity|]); cbn; rewrite ?Hc1; auto. }
  destruct (configure_frame_rate_runs fps w2 c2 rest Hc2) as (w' & E3 & A & B & C & D).
  exists w1, w2, w'.
  assert (camera_of w1 = c1) as K1 by (unfold camera_of; rewrite Hc1; reflexivity).
  assert (camera_of w2 = c2) as K2 by (unfold camera_of; rewrite Hc2; reflexivity).
  rewrite K1, K2. repeat split; auto.
  unfold configure_camera_resolution_fps.
  unfold bind at 1. rewrite E1. unfold bind at 1. rewrite E2. exact E3.
Qed.

(** C4, as amended.  When Width and Height are both writable, the value
    written for each is the request capped at the device maximum (there is
    no lower bound) and then decremented by one if odd.  Hence a request
    above the maximum gives the maximum rounded down to even, an odd
    request within the maximum gives the request minus one, and for a
    request and a maximum that are not negative the value is the one the
    specification describes.  When either node is not writable, nothing
    is written and only a warning is printed.  The later blocks of
    [configure_camera_resolution_fps] leave the two nodes as the
    resolution block left them. *)
Theorem configure_resolution_negotiates (width height : Z) (fps : Q) (w : world)
    (c : camera) (rest : list camera) (Hcam : cams w = c :: rest) :
  let max_w := int_max (Width c) in
  let max_h := int_max (Height c) in
  let negotiated req mx := even_down (Z.min req mx) in
  (int_writable (Width c) && int_writable (Height c) = true ->
     configure_resolution width height w =
       (Ok tt, resolution_written (negotiated width max_w)
                                  (negotiated height max_h) c rest w))
  /\ (int_writable (Width c) && int_writable (Height c) = false ->
     configure_resolution width height w =
       (Ok tt, set_log (Printed [Txt "[WARN] Width/Height not writable"] :: log w) w))
  /\ (exists w1 w',
        configure_resolution width height w = (Ok tt, w1) /\
        configure_camera_resolution_fps width height fps w = (Ok tt, w') /\
        Width (camera_of w') = Width (camera_of w1) /\
        Height (camera_of w') = Height (camera_of w1))
  /\ (forall req mx, negotiated req mx = if Z.odd (Z.min req mx)
                                        then Z.min req mx - 1 else Z.min req mx)
  /\ (forall req mx, mx < req -> negotiated req mx = 2 * (mx / 2))
  /\ (forall req mx, req <= mx -> Z.odd req = true -> negotiated req mx = req - 1)
  /\ (forall req mx, 0 <= req -> 0 <= mx -> negotiated req mx = clamp_then_even req mx).
Proof.
  intros max_w max_h negotiated.
  pose proof (configure_resolution_runs width height w c rest Hcam) as H.
  split; [intros Hw; rewrite H, Hw; reflexivity|].
  split; [intros Hw; rewrite H, Hw; reflexivity|].
  split.
  { destruct (configure_camera_runs width height fps w c rest Hcam)
      as (w1 & w2 & w' & E1 & E2 & E3 & A & B & _ & _ & _ & _ & C & D).
    exists w1, w'. repeat split; auto; congruence. }
  unfold negotiated. repeat split; intros req mx.
  - apply even_down_as_spec.
  - intros Hlt. rewrite Z.min_r by lia. apply even_down_floor.
  - intros Hle Hodd. rewrite Z.min_l by lia. apply even_down_odd, Hodd.
  - intros Hr Hm. unfold clamp_then_even. rewrite Z.max_r by lia.
    apply even_down_as_spec.
Qed.

Lemma configure_resolution_negotiates_witness :
  cams demo_world = demo_camera :: [] /\
  configure_resolution 2000 721 demo_world =
    (Ok tt, resolution_written 1920 720 demo_camera [] demo_world).
Proof.
  split; [reflexivity|].
  exact (proj1 (configure_resolution_negotiates 2000 721 (30 # 1) demo_world
                  demo_camera [] eq_refl) eq_refl).
Defined.

(** C4 as stated fails for a negative request: the specification's clamp
    to [0, device-max] gives 0 where the code writes -4. *)
Lemma configure_resolution_no_lower_clamp :
  exists w',
    configure_resolution (-3) 480 demo_world = (Ok tt, w') /\
    int_writable (Width demo_camera) && int_writable (Height demo_camera) = true /\
    int_value (Width (camera_of w')) = -4 /\
    clamp_then_even (-3) (int_max (Width demo_camera)) = 0 /\
    int_value (Width (camera_of w')) <>
      clamp_then_even (-3) (int_max (Width demo_camera)).
Proof.
  eexists. split; [vm_compute; reflexivity|].
  vm_compute. repeat split; discriminate.
Qed.

(** C9.  When OffsetX and OffsetY are both writable, the offset block
    writes to each half of its device maximum, by floor division, and
    nothing else happens; with maxima 10 and 20 the values are 5 and 10.
    When either is not writable the block does nothing at all: no write,
    no message, no exception.  [configure_camera_resolution_fps] runs the
    block after the resolution block, which leaves the offset nodes alone,
    and the blocks after it leave them as the offset block left them. *)
Theorem configure_offsets_centres (w : world) (c : camera) (rest : list camera)
    (Hcam : cams w = c :: rest) :
  (int_writable (OffsetX c) && int_writable (OffsetY c) = true ->
     configure_offsets w =
       (Ok tt, offsets_written (int_max (OffsetX c) / 2) (int_max (OffsetY c) / 2)
                               c rest w))
  /\ (int_writable (OffsetX c) && int_writable (OffsetY c) = true ->
      int_max (OffsetX c) = 10 -> int_max (OffsetY c) = 20 ->
      configure_offsets w = (Ok tt, offsets_written 5 10 c rest w))
  /\ (int_writable (OffsetX c) && int_writable (OffsetY c) = false ->
      configure_offsets w = (Ok tt, w))
  /\ (forall width height fps,
      exists w1 w2 w',
        configure_resolution width height w = (Ok tt, w1) /\
        configure_offsets w1 = (Ok tt, w2) /\
        configure_camera_resolution_fps width height fps w = (Ok tt, w') /\
        OffsetX (camera_of w1) = OffsetX c /\ OffsetY (camera_of w1) = OffsetY c /\
        OffsetX (camera_of w') = OffsetX (camera_of w2) /\
        OffsetY (camera_of w') = OffsetY (camera_of w2)).
Proof.
  pose proof (configure_offsets_runs w c rest Hcam) as H.
  split; [intros Hw; rewrite H, Hw; reflexivity|].
  split; [intros Hw Hx Hy; rewrite H, Hw, Hx, Hy; reflexivity|].
  split; [intros Hw; rewrite H, Hw; reflexivity|].
  intros width height fps.
  destruct (configure_camera_runs width height fps w c rest Hcam)
    as (w1 & w2 & w' & E1 & E2 & E3 & _ & _ & A & B & C & D & _).
  exists w1, w2, w'. repeat split; auto.
Qed.

Lemma configure_offsets_centres_witness :
  cams demo_world = demo_camera :: [] /\
  configure_offsets demo_world =
    (Ok tt, offsets_written 5 10 demo_camera [] demo_world) /\
  configure_offsets (boot [locked_camera] [] no_faults) =
    (Ok tt, boot [locked_camera] [] no_faults).
Proof.
  split; [reflexivity|]. split.
  - exact (proj1 (proj2 (configure_offsets_centres demo_world demo_camera []
                           eq_refl)) eq_refl eq_refl eq_refl).
  - exact (proj1 (proj2 (proj2 (configure_offsets_centres
                           (boot [locked_camera] [] no_faults) locked_camera []
                           eq_refl))) eq_refl).
Defined.

(* ================================================================== *)
(** ** Substrings *)

Lemma prefix_nil (s : string) : String.prefix "" s = true.
Proof. destruct s; reflexivity. Qed.

Lemma append_assoc (a b c : string) : (a ++ b) ++ c = a ++ (b ++ c).
Proof. induction a as [|x a IH]; cbn; [reflexivity | rewrite IH; reflexivity]. Qed.

Lemma prefix_inv (a s : string) :
  String.prefix a s = true -> exists t, s = a ++ t.
Proof.
  revert s. induction a as [|c a IH]; intros s H.
  - exists s. reflexivity.
  - destruct s as [|d s]; [discriminate|]. cbn in H.
    destruct (ascii_dec c d) as [->|]; [|discriminate].
    destruct (IH s H) as [t ->]. exists t. reflexivity.
Qed.

Lemma prefix_app (a t : string) : String.prefix a (a ++ t) = true.
Proof.
  induction a as [|c a IH]; [apply prefix_nil|]. cbn.
  destruct (ascii_dec c c); [exact IH | congruence].
Qed.

Lemma str_in_prefix (n s : string) : String.prefix n s = true -> str_in n s = true.
Proof. intros H. destruct s; cbn [str_in]; rewrite H; reflexivity. Qed.

Lemma str_in_cons (n : string) (c : ascii) (s : string) :
  str_in n s = true -> str_in n (String c s) = true.
Proof.
  intros H. cbn [str_in]. destruct (String.prefix n (String c s)); auto.
Qed.

Lemma str_in_app_r (n a t : string) : str_in n t = true -> str_in n (a ++ t) = true.
Proof.
  intros H. induction a as [|c a IH]; [exact H|]. apply str_in_cons, IH.
Qed.

(** Whatever contains a string contains each of its suffixes. *)
Lemma str_in_suffix (a b s : string) :
  str_in (a ++ b) s = true -> str_in b s = true.
Proof.
  assert (forall s, String.prefix (a ++ b) s = true -> str_in b s = true) as P.
  { intros s0 H. destruct (prefix_inv _ _ H) as [t ->].
    rewrite append_assoc. apply str_in_app_r, str_in_prefix, prefix_app. }
  induction s as [|c s IH]; intros H.
  - apply P. cbn [str_in] in H.
    destruct (String.prefix (a ++ b) ""); [reflexivity | discriminate].
  - cbn [str_in] in H. destruct (String.prefix (a ++ b) (String c s)) eqn:E.
    + apply P, E.
    + apply str_in_cons, IH, H.
Qed.

(** The name of the GB Bayer pattern contains the letters of RGB8. *)
Lemma bayer_gb_contains_rgb (s : string) :
  str_in "BAYERGB8" s = true -> str_in "RGB8" s = true.
Proof. apply (str_in_suffix "BAYE" "RGB8"). Qed.

(* ================================================================== *)
(** ** The normalizer *)

Local Open Scope list_scope.

Lemma nth_error_snoc {A : Type} (l : list A) (x : A) (t : list A) :
  nth_error (l ++ x :: t) (List.length l) = Some x.
Proof.
  rewrite nth_error_app2 by lia. rewrite Nat.sub_diag. reflexivity.
Qed.

Lemma cvtColor_on_loaded (code : ColorConversionCode) (notes : list event)
    (i : image) (w : world) :
  cv2_cvtColor (List.length (heap w)) code
    {| cams := cams w; heap := heap w ++ [raw_of i];
       log := notes ++ ImageGetNDArray (image_id i) :: log w;
       dirs := dirs w; fetched := fetched w; sdk := sdk w |}
  = cvt_outcome code notes i w.
Proof.
  unfold cv2_cvtColor, cvt_outcome, deref, alloc. run.
  rewrite nth_error_snoc.
  destruct (cv_accepts code (raw_of i)); run; [|reflexivity].
  rewrite length_app, Nat.add_1_r, <- app_assoc. reflexivity.
Qed.

Lemma generic_on_loaded (notes : list event) (i : image) (w : world) :
  generic_conversion (List.length (heap w))
    {| cams := cams w; heap := heap w ++ [raw_of i];
       log := notes ++ ImageGetNDArray (image_id i) :: log w;
       dirs := dirs w; fetched := fetched w; sdk := sdk w |}
  = cvt_outcome (generic_code (raw_of i)) notes i w.
Proof.
  unfold generic_conversion, generic_code, bind, deref.
  cbn [heap]. rewrite nth_error_snoc.
  destruct (ndim (raw_of i) =? 2); apply cvtColor_on_loaded.
Qed.

(** [convert_image_to_bgr], branch by branch. *)
Lemma convert_image_to_bgr_runs (i : image) (w : world) :
  convert_image_to_bgr i w =
    match format_name (image_frame i) with
    | Some fmt_name =>
        let u := upper fmt_name in
        if str_in "MONO8" u then cvt_outcome COLOR_GRAY2BGR [] i w
        else if str_in "RGB8" u then cvt_outcome COLOR_RGB2BGR [] i w
        else if str_in "BGR8" u then reused i w
        else if str_in "BAYERRG8" u then cvt_outcome COLOR_BAYER_RG2BGR [] i w
        else if str_in "BAYERGB8" u then cvt_outcome COLOR_BAYER_GB2BGR [] i w
        else if str_in "BAYERGR8" u then cvt_outcome COLOR_BAYER_GR2BGR [] i w
        else if str_in "BAYERBG8" u then cvt_outcome COLOR_BAYER_BG2BGR [] i w
        else cvt_outcome (generic_code (raw_of i)) [unhandled_warning fmt_name] i w
    | None =>
        cvt_outcome (generic_code (raw_of i))
                    [unnamed_warning (pixel_format (image_frame i))] i w
    end.
Proof.
  unfold convert_image_to_bgr, GetNDArray, GetPixelFormatName, alloc.
  unfold bind at 1 2 3. unfold emit at 1. cbn [fst snd].
  fold (raw_of i).
  destruct (format_name (image_frame i)) as [fmt_name|]; run.
  - repeat match goal with
           | |- context [if str_in ?n ?u then _ else _] => destruct (str_in n u)
           end;
      try apply (cvtColor_on_loaded _ [] i w);
      try reflexivity.
    apply (generic_on_loaded [unhandled_warning fmt_name] i w).
  - apply (generic_on_loaded [unnamed_warning _] i w).
Qed.

Lemma cvt_outcome_log (code : ColorConversionCode) (notes : list event)
    (i : image) (w : world) :
  log (snd (cvt_outcome code notes i w)) =
    CvtColor (List.length (heap w)) code
    :: notes ++ ImageGetNDArray (image_id i) :: log w.
Proof.
  unfold cvt_outcome. destruct (cv_accepts code (raw_of i)); reflexivity.
Qed.

Lemma cvt_outcome_heap (code : ColorConversionCode) (notes : list event)
    (i : image) (w : world) :
  exists extra,
    heap (snd (cvt_outcome code notes i w)) = heap w ++ raw_of i :: extra.
Proof.
  unfold cvt_outcome. destruct (cv_accepts code (raw_of i)); eexists; reflexivity.
Qed.

(** The dispatch reaches the GB branch for no name at all. *)
Lemma gb_branch_dead (i : image) (w : world) :
  gb_demosaics (log (snd (convert_image_to_bgr i w))) = gb_demosaics (log w).
Proof.
  rewrite convert_image_to_bgr_runs.
  destruct (format_name (image_frame i)) as [fmt_name|]; cbv zeta.
  - destruct (str_in "MONO8" (upper fmt_name)); [rewrite cvt_outcome_log; reflexivity|].
    destruct (str_in "RGB8" (upper fmt_name)) eqn:Rgb;
      [rewrite cvt_outcome_log; reflexivity|].
    destruct (str_in "BGR8" (upper fmt_name)); [reflexivity|].
    destruct (str_in "BAYERRG8" (upper fmt_name));
      [rewrite cvt_outcome_log; reflexivity|].
    destruct (str_in "BAYERGB8" (upper fmt_name)) eqn:Gb.
    { apply bayer_gb_contains_rgb in Gb. congruence. }
    destruct (str_in "BAYERGR8" (upper fmt_name));
      [rewrite cvt_outcome_log; reflexivity|].
    destruct (str_in "BAYERBG8" (upper fmt_name));
      [rewrite cvt_outcome_log; reflexivity|].
    rewrite cvt_outcome_log. unfold generic_code.
    destruct (ndim (raw_of i) =? 2); reflexivity.
  - rewrite cvt_outcome_log. unfold generic_code.
    destruct (ndim (raw_of i) =? 2); reflexivity.
Qed.

(** C3, where the code departs from it.  A frame in the GB Bayer pattern
    carries the name BayerGB8, whose upper case contains RGB8, so the
    dispatch takes the RGB branch before it reaches the Bayer branches:
    what [cv2.cvtColor] is asked for is the RGB-to-BGR conversion of the
    single-plane buffer, and whenever a frame comes out of it, it is the
    result of that conversion and not the demosaic of the GB pattern.
    This holds for every name that contains BAYERGB8 and not MONO8.  The
    GB demosaic that the source has a branch for is requested for no
    frame at all. *)
Theorem bayer_gb_takes_rgb_branch :
  str_in "RGB8" (upper "BayerGB8") = true
  /\ convert_image_to_bgr (mk_image (Some "BayerGB8") None) demo_world
     = cvt_outcome COLOR_RGB2BGR [] (mk_image (Some "BayerGB8") None) demo_world
  /\ log (snd (convert_image_to_bgr (mk_image (Some "BayerGB8") None) demo_world))
     = [CvtColor 0 COLOR_RGB2BGR; ImageGetNDArray 0]
  /\ (forall (i : image) (w : world) (fmt_name : string),
        format_name (image_frame i) = Some fmt_name ->
        str_in "BAYERGB8" (upper fmt_name) = true ->
        str_in "MONO8" (upper fmt_name) = false ->
        convert_image_to_bgr i w = cvt_outcome COLOR_RGB2BGR [] i w
        /\ forall (r : nat) (w1 : world),
             convert_image_to_bgr i w = (Ok r, w1) ->
             nth_error (heap w1) r = Some (cv_result COLOR_RGB2BGR (raw_of i))
             /\ cv_result COLOR_RGB2BGR (raw_of i)
                <> cv_result COLOR_BAYER_GB2BGR (raw_of i))
  /\ (forall (i : image) (w : world),
        gb_demosaics (log (snd (convert_image_to_bgr i w))) = gb_demosaics (log w)).
Proof.
  split; [reflexivity|].
  split; [rewrite convert_image_to_bgr_runs; reflexivity|].
  split; [rewrite convert_image_to_bgr_runs; reflexivity|].
  split; [|exact gb_branch_dead].
  intros i w fmt_name Hname Hgb Hmono.
  assert (convert_image_to_bgr i w = cvt_outcome COLOR_RGB2BGR [] i w) as E.
  { rewrite convert_image_to_bgr_runs, Hname. cbv zeta.
    rewrite Hmono, (bayer_gb_contains_rgb _ Hgb). reflexivity. }
  split; [exact E|].
  intros r w1 Hret. rewrite E in Hret. unfold cvt_outcome in Hret.
  destruct (cv_accepts COLOR_RGB2BGR (raw_of i)); [|discriminate].
  inversion Hret. subst. cbn [heap].
  split; [|unfold cv_result; intros K; inversion K].
  change (heap w ++ [raw_of i; cv_result COLOR_RGB2BGR (raw_of i)])
    with (heap w ++ raw_of i :: [cv_result COLOR_RGB2BGR (raw_of i)]).
  rewrite nth_error_app2 by lia.
  replace (S (List.length (heap w)) - List.length (heap w))%nat with 1%nat by lia.
  reflexivity.
Qed.

(** The other branches of the dispatch do what C3 says: with a buffer of
    the shape the name announces, the result is a new three-channel array
    of the same rows and columns, and for BGR8 it is the buffer itself. *)
Lemma convert_supported_shape (i : image) (w : world) (fmt_name : string)
    (Hname : format_name (image_frame i) = Some fmt_name)
    (Hfull : cv_empty (raw_of i) = false) :
  let u := upper fmt_name in
  let made code :=
    exists w', convert_image_to_bgr i w = (Ok (S (List.length (heap w))), w') /\
      nth_error (heap w') (S (List.length (heap w))) = Some (cv_result code (raw_of i)) in
  (str_in "MONO8" u = true -> cv_channels (raw_of i) = 1%N -> made COLOR_GRAY2BGR)
  /\ (str_in "MONO8" u = false -> str_in "RGB8" u = true ->
      chans (raw_of i) = Some 3%N -> made COLOR_RGB2BGR)
  /\ (str_in "MONO8" u = false -> str_in "RGB8" u = false -> str_in "BGR8" u = false ->
      str_in "BAYERRG8" u = true -> cv_channels (raw_of i) = 1%N ->
      made COLOR_BAYER_RG2BGR)
  /\ (str_in "MONO8" u = false -> str_in "RGB8" u = false -> str_in "BGR8" u = false ->
      str_in "BAYERRG8" u = false -> str_in "BAYERGR8" u = true ->
      cv_channels (raw_of i) = 1%N -> made COLOR_BAYER_GR2BGR)
  /\ (str_in "MONO8" u = false -> str_in "RGB8" u = false -> str_in "BGR8" u = false ->
      str_in "BAYERRG8" u = false -> str_in "BAYERGR8" u = false ->
      str_in "BAYERBG8" u = true -> cv_channels (raw_of i) = 1%N ->
      made COLOR_BAYER_BG2BGR).
Proof.
  intros u made.
  assert (forall code notes,
            cv_accepts code (raw_of i) = true ->
            convert_image_to_bgr i w = cvt_outcome code notes i w -> made code) as K.
  { intros code notes Hacc E. unfold made. rewrite E. unfold cvt_outcome.
    rewrite Hacc. eexists. split; [reflexivity|]. cbn [heap].
    change (heap w ++ [raw_of i; cv_result code (raw_of i)])
      with (heap w ++ raw_of i :: [cv_result code (raw_of i)]).
    rewrite nth_error_app2 by lia.
    replace (S (List.length (heap w)) - List.length (heap w))%nat with 1%nat by lia.
    reflexivity. }
  pose proof (convert_image_to_bgr_runs i w) as R. rewrite Hname in R.
  cbv zeta in R. fold u in R.
  assert (Hgb : str_in "RGB8" u = false -> str_in "BAYERGB8" u = false).
  { intros Hr. destruct (str_in "BAYERGB8" u) eqn:G; [|reflexivity].
    apply bayer_gb_contains_rgb in G. congruence. }
  repeat split.
  - intros Hm Hc. rewrite Hm in R. apply (K _ [] ); [|exact R].
    unfold cv_accepts. rewrite Hfull, Hc. reflexivity.
  - intros Hm Hr Hc. rewrite Hm, Hr in R. apply (K _ []); [|exact R].
    unfold cv_accepts, cv_channels. rewrite Hfull, Hc. reflexivity.
  - intros Hm Hr Hb Hrg Hc. rewrite Hm, Hr, Hb, Hrg in R. apply (K _ []); [|exact R].
    unfold cv_accepts. rewrite Hfull, Hc. reflexivity.
  - intros Hm Hr Hb Hrg Hgr Hc. rewrite Hm, Hr, Hb, Hrg, (Hgb Hr), Hgr in R.
    apply (K _ []); [|exact R].
    unfold cv_accepts. rewrite Hfull, Hc. reflexivity.
  - intros Hm Hr Hb Hrg Hgr Hbg Hc.
    rewrite Hm, Hr, Hb, Hrg, (Hgb Hr), Hgr, Hbg in R.
    apply (K _ []); [|exact R].
    unfold cv_accepts. rewrite Hfull, Hc. reflexivity.
Qed.

Lemma generic_accepts (a : ndarray) :
  cv_accepts (generic_code a) a = generic_ok a.
Proof.
  unfold cv_accepts, generic_code, generic_ok, ndim, cv_channels.
  destruct (chans a); reflexivity.
Qed.

Lemma convert_unrecognized (i : image) (w : world) (fmt_name : string) :
  format_name (image_frame i) = Some fmt_name ->
  unrecognized fmt_name = true ->
  convert_image_to_bgr i w =
    cvt_outcome (generic_code (raw_of i)) [unhandled_warning fmt_name] i w.
Proof.
  intros Hname Hun. rewrite convert_image_to_bgr_runs, Hname. cbv zeta.
  unfold unrecognized in Hun. apply negb_true_iff in Hun.
  repeat (apply orb_false_iff in Hun; destruct Hun as [Hun ?]).
  repeat match goal with H : str_in _ _ = false |- _ => rewrite H; clear H end.
  reflexivity.
Qed.

Lemma convert_unnamed (i : image) (w : world) :
  format_name (image_frame i) = None ->
  convert_image_to_bgr i w =
    cvt_outcome (generic_code (raw_of i))
                [unnamed_warning (pixel_format (image_frame i))] i w.
Proof.
  intros Hname. rewrite convert_image_to_bgr_runs, Hname. reflexivity.
Qed.

(** C6 as stated fails: an unrecognized name on a two-channel buffer sends
    the buffer to the RGB-to-BGR swap, and the exception of OpenCV leaves
    [convert_image_to_bgr]. *)
Lemma convert_unrecognized_can_raise :
  unrecognized "YUV422Packed" = true /\
  convert_image_to_bgr (mk_image (Some "YUV422Packed") (Some 2%N)) demo_world
  = (Raise cv2_error,
     {| cams := [demo_camera];
        heap := [raw_of (mk_image (Some "YUV422Packed") (Some 2%N))];
        log := [CvtColor 0 COLOR_RGB2BGR; unhandled_warning "YUV422Packed";
                ImageGetNDArray 0];
        dirs := []; fetched := 0; sdk := no_faults |}).
Proof.
  split; [reflexivity|]. rewrite convert_image_to_bgr_runs. reflexivity.
Qed.

(** C6, as amended.  For a frame whose name is present but unrecognized,
    and for a frame without a name, [convert_image_to_bgr] prints one
    warning and converts by the dimensionality of the buffer: for a
    two-dimensional buffer it asks for the expansion of grey, for any
    other for the RGB-to-BGR conversion.  It returns the new array, of
    three channels, when the buffer is not empty and is two-dimensional or
    has one, three or four channels.  It is not free of exceptions: for a
    buffer of two channels OpenCV's exception leaves the function, which
    has no handler for it. *)
Theorem convert_generic_fallback (i : image) (w : world) :
  let raw := raw_of i in
  let code := generic_code raw in
  let note :=
    match format_name (image_frame i) with
    | Some fmt_name => unhandled_warning fmt_name
    | None => unnamed_warning (pixel_format (image_frame i))
    end in
  match format_name (image_frame i) with
  | Some fmt_name => unrecognized fmt_name = true
  | None => True
  end ->
  convert_image_to_bgr i w = cvt_outcome code [note] i w
  /\ code = match chans raw with
            | None => COLOR_GRAY2BGR
            | Some _ => COLOR_RGB2BGR
            end
  /\ log (snd (convert_image_to_bgr i w)) =
       [CvtColor (List.length (heap w)) code; note; ImageGetNDArray (image_id i)]
       ++ log w
  /\ (generic_ok raw = true ->
      fst (convert_image_to_bgr i w) = Ok (S (List.length (heap w))) /\
      heap (snd (convert_image_to_bgr i w)) = heap w ++ [raw; cv_result code raw])
  /\ (chans raw = Some 2%N ->
      fst (convert_image_to_bgr i w) = Raise cv2_error /\
      heap (snd (convert_image_to_bgr i w)) = heap w ++ [raw]).
Proof.
  intros raw code note Hcase.
  assert (convert_image_to_bgr i w = cvt_outcome code [note] i w) as E.
  { unfold note. destruct (format_name (image_frame i)) as [fmt_name|] eqn:Hname.
    - apply convert_unrecognized; assumption.
    - apply convert_unnamed; assumption. }
  split; [exact E|].
  split; [unfold code, generic_code, ndim; destruct (chans raw); reflexivity|].
  split; [rewrite E, cvt_outcome_log; reflexivity|].
  rewrite E. unfold cvt_outcome. fold raw.
  pose proof (generic_accepts raw) as Hacc. fold code in Hacc. rewrite Hacc.
  split.
  - intros Hok. rewrite Hok. cbn. auto.
  - intros Htwo. unfold generic_ok. rewrite Htwo. cbn [N.eqb Pos.eqb orb].
    rewrite andb_false_r. cbn. auto.
Qed.

Lemma convert_generic_fallback_witness :
  convert_image_to_bgr (mk_image (Some "Mono16") None) demo_world
  = cvt_outcome COLOR_GRAY2BGR [unhandled_warning "Mono16"]
      (mk_image (Some "Mono16") None) demo_world
  /\ convert_image_to_bgr (mk_image None (Some 3%N)) demo_world
  = cvt_outcome COLOR_RGB2BGR [unnamed_warning 0] (mk_image None (Some 3%N)) demo_world
  /\ fst (convert_image_to_bgr (mk_image (Some "YUV422Packed") (Some 1%N)) demo_world)
  = Ok 1%nat
  /\ fst (convert_image_to_bgr (mk_image (Some "YUV422Packed") (Some 2%N)) demo_world)
  = Raise cv2_error.
Proof.
  split; [|split; [|split]].
  - exact (proj1 (convert_generic_fallback (mk_image (Some "Mono16") None)
                    demo_world eq_refl)).
  - exact (proj1 (convert_generic_fallback (mk_image None (Some 3%N)) demo_world I)).
  - exact (proj1 (proj1 (proj2 (proj2 (proj2
             (convert_generic_fallback (mk_image (Some "YUV422Packed") (Some 1%N))
                demo_world eq_refl)))) eq_refl)).
  - exact (proj1 (proj2 (proj2 (proj2 (proj2
             (convert_generic_fallback (mk_image (Some "YUV422Packed") (Some 2%N))
                demo_world eq_refl)))) eq_refl)).
Defined.

(** C7.  For a name that reaches the BGR8 branch, [convert_image_to_bgr]
    returns the very array that [GetNDArray] made: its reference is the
    one of that array, the array holds the samples of the image, and no
    other array is created.  For every name the array of the image, and
    every array that existed before, is the same after the call as before:
    a conversion only adds arrays. *)
Theorem convert_bgr8_reuses_buffer (i : image) (w : world) :
  (forall fmt_name,
     format_name (image_frame i) = Some fmt_name ->
     str_in "MONO8" (upper fmt_name) = false ->
     str_in "RGB8" (upper fmt_name) = false ->
     str_in "BGR8" (upper fmt_name) = true ->
     convert_image_to_bgr i w = reused i w /\
     fst (convert_image_to_bgr i w) = Ok (List.length (heap w)) /\
     heap (snd (convert_image_to_bgr i w)) = heap w ++ [raw_of i] /\
     nth_error (heap (snd (convert_image_to_bgr i w))) (List.length (heap w))
       = Some (raw_of i))
  /\ (exists extra,
        heap (snd (convert_image_to_bgr i w)) = heap w ++ raw_of i :: extra)
  /\ nth_error (heap (snd (convert_image_to_bgr i w))) (List.length (heap w))
       = Some (raw_of i)
  /\ (forall r, (r < List.length (heap w))%nat ->
        nth_error (heap (snd (convert_image_to_bgr i w))) r = nth_error (heap w) r).
Proof.
  assert (exists extra,
            heap (snd (convert_image_to_bgr i w)) = heap w ++ raw_of i :: extra) as Hx.
  { rewrite convert_image_to_bgr_runs.
    destruct (format_name (image_frame i)) as [fmt_name|]; cbv zeta;
      repeat match goal with
             | |- context [if str_in ?n ?u then _ else _] => destruct (str_in n u)
             end;
      try apply cvt_outcome_heap.
    exists []. reflexivity. }
  split.
  { intros fmt_name Hname Hm Hr Hb.
    assert (convert_image_to_bgr i w = reused i w) as E.
    { rewrite convert_image_to_bgr_runs, Hname. cbv zeta. rewrite Hm, Hr, Hb.
      reflexivity. }
    rewrite E. cbn. repeat split. apply nth_error_snoc. }
  split; [exact Hx|].
  destruct Hx as [extra Hx]. rewrite Hx.
  split; [apply nth_error_snoc|].
  intros r Hr. apply nth_error_app1, Hr.
Qed.

Lemma convert_bgr8_reuses_buffer_witness :
  format_name (image_frame (mk_image (Some "BGR8") (Some 3%N))) = Some "BGR8" /\
  convert_image_to_bgr (mk_image (Some "BGR8") (Some 3%N)) demo_world
  = reused (mk_image (Some "BGR8") (Some 3%N)) demo_world.
Proof.
  split; [reflexivity|].
  exact (proj1 (proj1 (convert_bgr8_reuses_buffer (mk_image (Some "BGR8") (Some 3%N))
                         demo_world) "BGR8" eq_refl eq_refl eq_refl eq_refl)).
Defined.

(* ================================================================== *)
(** ** Relations that every statement of a block maintains *)

Section Keeps.

Variable P : world -> world -> Prop.
Hypothesis P_refl : forall w, P w w.
Hypothesis P_trans : forall a b c, P a b -> P b c -> P a c.

Lemma keeps_ret {A : Type} (a : A) : keeps P (ret a).
Proof. intros w. apply P_refl. Qed.

Lemma keeps_raise {A : Type} (e : exn) : keeps P (@raise A e).
Proof. intros w. apply P_refl. Qed.

Lemma keeps_read {A : Type} (f : camera -> A) : keeps P (read f).
Proof. intros w. unfold read. destruct (cams w); apply P_refl. Qed.

Lemma keeps_fault (f : faults -> bool) : keeps P (fault f).
Proof. intros w. unfold fault. destruct (f (sdk w)); apply P_refl. Qed.

(** The continuation only has to be considered after a normal return
    of the first statement. *)
Lemma keeps_bind_from {A B : Type} (m : M A) (k : A -> M B) :
  keeps P m ->
  (forall w a w1, m w = (Ok a, w1) -> P w1 (snd (k a w1))) ->
  keeps P (bind m k).
Proof.
  intros Hm Hk w. unfold bind. specialize (Hm w).
  destruct (m w) as [[a|e] w1] eqn:E; cbn in Hm.
  - eapply P_trans; [exact Hm | eapply Hk; exact E].
  - exact Hm.
Qed.

Lemma keeps_bind {A B : Type} (m : M A) (k : A -> M B) :
  keeps P m -> (forall a, keeps P (k a)) -> keeps P (bind m k).
Proof.
  intros Hm Hk. apply keeps_bind_from; [exact Hm|].
  intros w a w1 _. apply Hk.
Qed.

Lemma keeps_try_finally {A : Type} (body : M A) (fin : M unit) :
  keeps P body -> keeps P fin -> keeps P (try_finally body fin).
Proof.
  intros Hb Hf w. unfold try_finally. specialize (Hb w).
  destruct (body w) as [r w1]. cbn in Hb. specialize (Hf w1).
  destruct (fin w1) as [[u|e] w2]; cbn in *; eapply P_trans; eauto.
Qed.

Lemma keeps_try_except {A : Type} (body : M A) (E : exn) (handler : M A) :
  keeps P body -> keeps P handler -> keeps P (try_except body E handler).
Proof.
  intros Hb Hh w. unfold try_except. specialize (Hb w).
  destruct (body w) as [[a|e] w1]; cbn in Hb; [exact Hb|].
  destruct (exn_eqb e E); [|exact Hb].
  eapply P_trans; [exact Hb | apply Hh].
Qed.

End Keeps.

Lemma quiet_refl (ok : event -> bool) (w : world) : quiet ok w w.
Proof. repeat split. exists []. auto. Qed.

Lemma quiet_trans (ok : event -> bool) (a b c : world) :
  quiet ok a b -> quiet ok b c -> quiet ok a c.
Proof.
  intros (D1 & S1 & C1 & d1 & L1 & F1) (D2 & S2 & C2 & d2 & L2 & F2).
  repeat split; try congruence.
  exists (d2 ++ d1). rewrite L2, L1, app_assoc, forallb_app, F1, F2. auto.
Qed.

Lemma quiet_emit (ok : event -> bool) (e : event) :
  ok e = true -> keeps (quiet ok) (emit e).
Proof.
  intros H w. repeat split. exists [e]. cbn. rewrite H. auto.
Qed.

Lemma quiet_update (ok : event -> bool) (f : camera -> camera) :
  keeps (quiet ok) (update f).
Proof.
  intros w. unfold update. destruct (cams w) eqn:E; cbn.
  - apply quiet_refl.
  - repeat split; [rewrite E; reflexivity|]. exists []. auto.
Qed.

Lemma quiet_heap (ok : event -> bool) {A : Type} (m : M A) :
  (forall w, exists a h, m w = (a, set_heap h w)) -> keeps (quiet ok) m.
Proof.
  intros H w. destruct (H w) as (a & h & ->). repeat split. exists []. auto.
Qed.

Lemma quiet_alloc (ok : event -> bool) (a : ndarray) : keeps (quiet ok) (alloc a).
Proof. apply quiet_heap. intros w. eexists. eexists. reflexivity. Qed.

Lemma quiet_assign (ok : event -> bool) (r : nat) (a : ndarray) :
  keeps (quiet ok) (assign r a).
Proof. apply quiet_heap. intros w. eexists. eexists. reflexivity. Qed.

Lemma quiet_deref (ok : event -> bool) (r : nat) : keeps (quiet ok) (deref r).
Proof.
  intros w. unfold deref. destruct (nth_error (heap w) r); apply quiet_refl.
Qed.

Lemma quiet_ret (ok : event -> bool) {A : Type} (a : A) : keeps (quiet ok) (ret a).
Proof. apply keeps_ret, quiet_refl. Qed.

Lemma quiet_raise (ok : event -> bool) {A : Type} (e : exn) :
  keeps (quiet ok) (@raise A e).
Proof. apply keeps_raise, quiet_refl. Qed.

Lemma quiet_read (ok : event -> bool) {A : Type} (f : camera -> A) :
  keeps (quiet ok) (read f).
Proof. apply keeps_read, quiet_refl. Qed.

Lemma quiet_fault (ok : event -> bool) (f : faults -> bool) :
  keeps (quiet ok) (fault f).
Proof. apply keeps_fault, quiet_refl. Qed.

Lemma quiet_bind (ok : event -> bool) {A B : Type} (m : M A) (k : A -> M B) :
  keeps (quiet ok) m -> (forall a, keeps (quiet ok) (k a)) ->
  keeps (quiet ok) (bind m k).
Proof. apply keeps_bind, quiet_trans. Qed.

Lemma quiet_try_finally (ok : event -> bool) {A : Type} (body : M A) (fin : M unit) :
  keeps (quiet ok) body -> keeps (quiet ok) fin ->
  keeps (quiet ok) (try_finally body fin).
Proof. apply keeps_try_finally, quiet_trans. Qed.

Lemma quiet_try_except (ok : event -> bool) {A : Type} (body : M A) (E : exn)
    (handler : M A) :
  keeps (quiet ok) body -> keeps (quiet ok) handler ->
  keeps (quiet ok) (try_except body E handler).
Proof. apply keeps_try_except, quiet_trans. Qed.

(** Break a block into its statements and settle the primitive ones. *)
Ltac quiet_step :=
  match goal with
  | |- keeps _ (ret _) => apply quiet_ret
  | |- keeps _ (raise _) => apply quiet_raise
  | |- keeps _ (read _) => apply quiet_read
  | |- keeps _ (fault _) => apply quiet_fault
  | |- keeps _ (update _) => apply quiet_update
  | |- keeps _ (alloc _) => apply quiet_alloc
  | |- keeps _ (assign _ _) => apply quiet_assign
  | |- keeps _ (deref _) => apply quiet_deref
  | |- keeps _ (bind _ _) => apply quiet_bind; [ | intros ?]
  | |- keeps _ (try_finally _ _) => apply quiet_try_finally
  | |- keeps _ (try_except _ _ _) => apply quiet_try_except
  | |- keeps _ (if ?b then _ else _) => destruct b
  | |- keeps _ (match ?x with _ => _ end) => destruct x
  end.

Section Blocks.

(** Any test that lets through everything but the teardown calls. *)
Variable ok : event -> bool.
Hypothesis ok_body : forall e, is_teardown e = false -> ok e = true.

Let rel := quiet ok.

Ltac say :=
  match goal with
  | |- keeps _ (emit _) => apply quiet_emit; apply ok_body; reflexivity
  end.
Ltac block := repeat first [say | quiet_step].

Lemma quiet_debug_pixel_format : keeps rel debug_pixel_format.
Proof. unfold debug_pixel_format, GetCurrentEntry, print. block. Qed.

Lemma quiet_try_formats (names : list string) : keeps rel (try_formats names).
Proof.
  induction names as [|n names IH]; cbn [try_formats].
  - block.
  - unfold GetEntryByName, entry_GetValue, enum_SetIntValue, print. block.
    exact IH.
Qed.

Lemma quiet_set_pixel_format : keeps rel set_pixel_format.
Proof.
  unfold set_pixel_format, print. block. apply quiet_try_formats.
Qed.

Lemma quiet_configure (width height : Z) (fps : Q) :
  keeps rel (configure_camera_resolution_fps width height fps).
Proof.
  unfold configure_camera_resolution_fps, configure_resolution,
    configure_offsets, configure_frame_rate, report_applied,
    int_SetValue, bool_SetValue, float_SetValue, print.
  block.
Qed.

Lemma quiet_start_continuous_mode : keeps rel start_continuous_mode.
Proof.
  unfold start_continuous_mode, GetEntryByName, entry_GetValue,
    enum_SetIntValue, BeginAcquisition, print.
  block.
Qed.

Lemma quiet_cvtColor (src : nat) (code : ColorConversionCode) :
  keeps rel (cv2_cvtColor src code).
Proof. unfold cv2_cvtColor. block. Qed.

Lemma quiet_convert (i : image) : keeps rel (convert_image_to_bgr i).
Proof.
  unfold convert_image_to_bgr, GetNDArray, GetPixelFormatName,
    generic_conversion, print.
  block; apply quiet_cvtColor.
Qed.

Lemma quiet_GetNextImage (timeout : Z) (next : option fetch) :
  keeps rel (GetNextImage timeout next).
Proof.
  unfold GetNextImage. block.
  intros w. repeat split. exists []. auto.
Qed.

Lemma quiet_process_frame (s : settings) (t0 : Q) (i : image) (t : tick)
    (frame_count : Z) :
  keeps rel (process_frame s t0 i t frame_count).
Proof.
  unfold process_frame, Release, cv2_putText, py_mod, cv2_imwrite,
    cv2_imshow, cv2_waitKey, print.
  block. apply quiet_convert.
Qed.

Lemma quiet_capture_loop (s : settings) (t0 : Q) (feed : list delivery)
    (frame_count : Z) :
  keeps rel (capture_loop s t0 feed frame_count).
Proof.
  revert frame_count. induction feed as [|d rest IH]; intros frame_count;
    cbn [capture_loop].
  - block. apply quiet_GetNextImage.
  - unfold Release, print. block;
      first [apply quiet_GetNextImage | apply quiet_process_frame | apply IH].
Qed.

Lemma quiet_capture_session (s : settings) (t0 : Q) (feed : list delivery) :
  keeps rel (capture_session s t0 feed).
Proof.
  unfold capture_session, Init, print.
  block;
    first [ apply quiet_debug_pixel_format | apply quiet_set_pixel_format
          | apply quiet_configure | apply quiet_start_continuous_mode
          | apply quiet_capture_loop ].
Qed.

End Blocks.

(* ================================================================== *)
(** ** Teardown *)







(* ================================================================== *)
(** ** One turn of the capture loop *)

Lemma calm_lists (d : list event) :
  forallb calm d = true ->
  acquired d = [] /\ released d = [] /\ saved_paths d = [].
Proof.
  induction d as [|e d IH]; [auto|]. cbn [forallb]. intros H.
  apply andb_true_iff in H. destruct H as [He Hd].
  destruct (IH Hd) as (A & B & C).
  unfold acquired, released, saved_paths in *. cbn [flat_map].
  rewrite A, B, C. destruct e; try discriminate; auto.
Qed.

Lemma prints_are_calm (notes : list event) :
  forallb is_print notes = true ->
  forallb calm notes = true /\ normalized notes = [].
Proof.
  induction notes as [|e notes IH]; [auto|]. cbn [forallb]. intros H.
  apply andb_true_iff in H. destruct H as [He Hn]. destruct (IH Hn) as [A B].
  destruct e; try discriminate. cbn. rewrite A. auto.
Qed.

Lemma cvt_outcome_facts (code : ColorConversionCode) (notes : list event)
    (i : image) (w : world) :
  forallb is_print notes = true ->
  let out := cvt_outcome code notes i w in
  cams (snd out) = cams w /\ fetched (snd out) = fetched w /\
  sdk (snd out) = sdk w /\ dirs (snd out) = dirs w /\
  (exists d, log (snd out) = d ++ log w /\ forallb calm d = true /\
             normalized d = [image_id i]) /\
  (if cv_accepts code (raw_of i)
   then exists r a, fst out = Ok r /\ nth_error (heap (snd out)) r = Some a
   else fst out = Raise cv2_error).
Proof.
  intros Hn out. subst out. unfold cvt_outcome.
  destruct (prints_are_calm notes Hn) as [Hcalm Hnorm].
  assert (exists d, CvtColor (List.length (heap w)) code
                    :: notes ++ ImageGetNDArray (image_id i) :: log w = d ++ log w /\
                    forallb calm d = true /\ normalized d = [image_id i]) as Hd.
  { exists (CvtColor (List.length (heap w)) code :: notes ++ [ImageGetNDArray (image_id i)]).
    split; [cbn; rewrite <- app_assoc; reflexivity|].
    split; [cbn; rewrite forallb_app, Hcalm; reflexivity|].
    unfold normalized in *. cbn [flat_map]. rewrite flat_map_app, Hnorm. reflexivity. }
  destruct (cv_accepts code (raw_of i)); cbn; repeat split; auto.
  exists (S (List.length (heap w))), (cv_result code (raw_of i)). split; [reflexivity|].
  change (heap w ++ [raw_of i; cv_result code (raw_of i)])
    with (heap w ++ raw_of i :: [cv_result code (raw_of i)]).
  rewrite nth_error_app2 by lia.
  replace (S (List.length (heap w)) - List.length (heap w))%nat with 1%nat by lia.
  reflexivity.
Qed.

Lemma cvt_outcome_accepts (code : ColorConversionCode) (notes : list event)
    (i : image) (w : world) :
  match fst (cvt_outcome code notes i w) with
  | Ok _ => true
  | Raise _ => false
  end = cv_accepts code (raw_of i).
Proof.
  unfold cvt_outcome. destruct (cv_accepts code (raw_of i)); reflexivity.
Qed.

(** What a conversion leaves behind, whichever branch it takes: the
    cameras, the counter of images, the faults and the directories are as
    before, the log has grown by calls that touch no image handle and no
    file, and the result is a valid reference or OpenCV's exception,
    according to the frame alone. *)
Lemma convert_facts (i : image) (w : world) :
  let out := convert_image_to_bgr i w in
  cams (snd out) = cams w /\ fetched (snd out) = fetched w /\
  sdk (snd out) = sdk w /\ dirs (snd out) = dirs w /\
  (exists d, log (snd out) = d ++ log w /\ forallb calm d = true /\
             normalized d = [image_id i]) /\
  (if convertible (image_frame i)
   then exists r a, fst out = Ok r /\ nth_error (heap (snd out)) r = Some a
   else fst out = Raise cv2_error).
Proof.
  unfold convertible. cbv zeta. rewrite !convert_image_to_bgr_runs.
  cbn [image_frame].
  assert (forall code notes,
            forallb is_print notes = true ->
            let out := cvt_outcome code notes i w in
            cams (snd out) = cams w /\ fetched (snd out) = fetched w /\
            sdk (snd out) = sdk w /\ dirs (snd out) = dirs w /\
            (exists d, log (snd out) = d ++ log w /\ forallb calm d = true /\
                       normalized d = [image_id i]) /\
            (if match fst (cvt_outcome code notes
                             {| image_id := 0; image_frame := image_frame i |}
                             demo_world) with
                | Ok _ => true
                | Raise _ => false
                end
             then exists r a, fst out = Ok r /\ nth_error (heap (snd out)) r = Some a
             else fst out = Raise cv2_error)) as K.
  { intros code notes Hn. pose proof (cvt_outcome_facts code notes i w Hn) as F.
    cbv zeta in *. rewrite cvt_outcome_accepts.
    change (cv_accepts code (raw_of {| image_id := 0; image_frame := image_frame i |}))
      with (cv_accepts code (raw_of i)).
    exact F. }
  change (generic_code (raw_of {| image_id := 0; image_frame := image_frame i |}))
    with (generic_code (raw_of i)).
  destruct (format_name (image_frame i)) as [fmt_name|]; cbv zeta;
    repeat match goal with
           | |- context [if str_in ?n ?u then _ else _] => destruct (str_in n u)
           end;
    try (apply K; reflexivity).
  cbn. repeat split; auto.
  - exists [ImageGetNDArray (image_id i)]. auto.
  - exists (List.length (heap w)), (raw_of i). split; [reflexivity|].
    apply nth_error_snoc.
Qed.

Lemma process_frame_shown (s : settings) (t0 : Q) (i : image) (t : tick)
    (frame_count : Z) (w w1 : world) (r : nat) (a : ndarray) :
  convert_image_to_bgr i w = (Ok r, w1) ->
  nth_error (heap w1) r = Some a ->
  process_frame s t0 i t frame_count w = shown s t0 i t frame_count r a w1.
Proof.
  intros Hc Hr. unfold process_frame, bind at 1. rewrite Hc.
  destruct w1 as [cs hp lg ds ft fl]. cbn [heap] in Hr.
  unfold Release, cv2_putText, deref, assign, py_mod, cv2_imwrite, cv2_imshow,
    cv2_waitKey, shown, save_calls, fps_text, overlay.
  run. rewrite Hr. run.
  destruct (save_every_n_frames s =? 0); run; [reflexivity|].
  destruct ((frame_count + 1) mod save_every_n_frames s =? 0); run;
    destruct (Z.land (pressed t) 255 =? 113); reflexivity.
Qed.

Lemma process_frame_raises (s : settings) (t0 : Q) (i : image) (t : tick)
    (frame_count : Z) (w w1 : world) (e : exn) :
  convert_image_to_bgr i w = (Raise e, w1) ->
  process_frame s t0 i t frame_count w = (Raise e, w1).
Proof.
  intros Hc. unfold process_frame, bind at 1. rewrite Hc. reflexivity.
Qed.

Lemma GetNextImage_arrives (timeout : Z) (f : frame) (w : world) (c : camera)
    (rest : list camera) :
  cams w = c :: rest -> streaming c = true ->
  GetNextImage timeout (Some (Arrives f)) w =
    (Ok {| image_id := fetched w; image_frame := f |}, handed_out timeout w).
Proof.
  intros Hc Hs. open_world w Hc. unfold GetNextImage. run. rewrite Hs. reflexivity.
Qed.

(** In general a fetch hands out an image or raises something that is not
    OpenCV's exception, having logged the call and nothing else. *)
Lemma GetNextImage_cases (timeout : Z) (next : option fetch) (w : world) :
  (exists f, next = Some (Arrives f) /\
     GetNextImage timeout next w =
       (Ok {| image_id := fetched w; image_frame := f |}, handed_out timeout w))
  \/ (exists e, e <> cv2_error /\
        GetNextImage timeout next w =
          (Raise e, set_log (CallGetNextImage timeout :: log w) w)).
Proof.
  destruct w as [cs hp lg ds ft fl]. unfold GetNextImage. run.
  destruct cs as [|c cs]; run.
  { right. exists SpinnakerException. split; [discriminate | reflexivity]. }
  destruct (streaming c); run.
  - destruct next as [[f| |]|].
    + left. exists f. split; reflexivity.
    + right. exists SpinnakerException. split; [discriminate | reflexivity].
    + right. exists KeyboardInterrupt. split; [discriminate | reflexivity].
    + right. exists SpinnakerException. split; [discriminate | reflexivity].
  - right. exists SpinnakerException. split; [discriminate | reflexivity].
Qed.

(** One turn of the loop, once the fetch has handed out the image [i]. *)
Lemma capture_loop_turn (s : settings) (t0 : Q) (d : delivery)
    (rest : list delivery) (frame_count : Z) (w w1 : world) (i : image) :
  GetNextImage 1000 (Some (outcome d)) w = (Ok i, w1) ->
  capture_loop s t0 (d :: rest) frame_count w =
    if IsIncomplete i then capture_loop s t0 rest frame_count (skipped i w1)
    else match process_frame s t0 i (at_tick d) frame_count w1 with
         | (Ok (n, true), w2) => (Ok tt, w2)
         | (Ok (n, false), w2) => capture_loop s t0 rest n w2
         | (Raise e, w2) => (Raise e, w2)
         end.
Proof.
  intros Hg. cbn [capture_loop]. unfold bind at 1. rewrite Hg.
  destruct (IsIncomplete i).
  - unfold Release, print. unfold bind, emit. reflexivity.
  - unfold bind. destruct (process_frame s t0 i (at_tick d) frame_count w1)
      as [[[n [|]]|e] w2]; reflexivity.
Qed.

Lemma capture_loop_fetch_fails (s : settings) (t0 : Q) (feed : list delivery)
    (frame_count : Z) (w w1 : world) (e : exn) :
  GetNextImage 1000 (option_map outcome (hd_error feed)) w = (Raise e, w1) ->
  capture_loop s t0 feed frame_count w = (Raise e, w1).
Proof.
  intros Hg. destruct feed as [|d rest]; cbn [capture_loop hd_error option_map] in *;
    unfold bind at 1; rewrite Hg; reflexivity.
Qed.

Lemma save_calls_ledger (s : settings) (t : tick) (n : Z) (r : nat) :
  acquired (save_calls s t n r) = [] /\ released (save_calls s t n r) = [] /\
  normalized (save_calls s t n r) = [] /\
  saved_paths (save_calls s t n r) =
    if n mod save_every_n_frames s =? 0
    then [path_join (output_dir s) (save_name t n)] else [].
Proof.
  unfold save_calls. destruct (n mod save_every_n_frames s =? 0); cbn; auto.
Qed.

(** What the rest of a turn adds to the log once the conversion returned:
    one release of the image, no fetch, no conversion, and the file of
    the frame if its number is due. *)
Lemma shown_ledger (s : settings) (t0 : Q) (i : image) (t : tick)
    (frame_count : Z) (r : nat) (a : ndarray) (w1 : world) :
  let out := shown s t0 i t frame_count r a w1 in
  cams (snd out) = cams w1 /\ fetched (snd out) = fetched w1 /\
  sdk (snd out) = sdk w1 /\ dirs (snd out) = dirs w1 /\
  fst out <> Raise cv2_error /\
  exists d, log (snd out) = d ++ log w1 /\
    acquired d = [] /\ normalized d = [] /\ released d = [image_id i] /\
    saved_paths d =
      if save_every_n_frames s =? 0 then []
      else if (frame_count + 1) mod save_every_n_frames s =? 0
           then [path_join (output_dir s) (save_name t (frame_count + 1))]
           else [].
Proof.
  unfold shown. cbv zeta.
  destruct (save_calls_ledger s t (frame_count + 1) r) as (A & B & C & D).
  set (sc := save_calls s t (frame_count + 1) r) in *.
  set (text := fps_text t0 t (frame_count + 1)).
  destruct (save_every_n_frames s =? 0).
  { cbn. repeat split; try discriminate.
    exists [PutText r text; ImageRelease (image_id i)]. repeat split. }
  assert (forall pre, forallb is_print pre = true ->
            acquired (pre ++ WaitKey 1 :: Imshow (window_name s) r :: sc
                      ++ [PutText r text; ImageRelease (image_id i)]) = [] /\
            normalized (pre ++ WaitKey 1 :: Imshow (window_name s) r :: sc
                        ++ [PutText r text; ImageRelease (image_id i)]) = [] /\
            released (pre ++ WaitKey 1 :: Imshow (window_name s) r :: sc
                      ++ [PutText r text; ImageRelease (image_id i)]) = [image_id i] /\
            saved_paths (pre ++ WaitKey 1 :: Imshow (window_name s) r :: sc
                         ++ [PutText r text; ImageRelease (image_id i)])
              = saved_paths sc) as K.
  { intros pre Hp.
    assert (acquired pre = [] /\ released pre = [] /\ normalized pre = [] /\
            saved_paths pre = []) as (P1 & P2 & P3 & P4).
    { destruct (prints_are_calm pre Hp) as [Hc Hn].
      destruct (calm_lists pre Hc) as (X & Y & Z). auto. }
    unfold acquired, normalized, released, saved_paths in *.
    rewrite !flat_map_app. cbn [flat_map]. rewrite !flat_map_app.
    rewrite A, B, C, P1, P2, P3, P4. cbn. rewrite app_nil_r. auto. }
  destruct (Z.land (pressed t) 255 =? 113); cbn [fst snd cams fetched sdk dirs log];
    repeat split; try discriminate.
  - exists ([Printed [Txt "[INFO] 'q' pressed. Exiting loop."]]
            ++ WaitKey 1 :: Imshow (window_name s) r :: sc
            ++ [PutText r text; ImageRelease (image_id i)]).
    split; [cbn; rewrite <- app_assoc; reflexivity|].
    destruct (K [Printed [Txt "[INFO] 'q' pressed. Exiting loop."]] eq_refl)
      as (K1 & K2 & K3 & K4).
    rewrite K1, K2, K3, K4, D. auto.
  - exists ([] ++ WaitKey 1 :: Imshow (window_name s) r :: sc
            ++ [PutText r text; ImageRelease (image_id i)]).
    split; [cbn; rewrite <- app_assoc; reflexivity|].
    destruct (K [] eq_refl) as (K1 & K2 & K3 & K4).
    rewrite K1, K2, K3, K4, D. auto.
Qed.

(** The ledger of [process_frame]: the image is given to the normalizer;
    it is released once when the conversion returns, and not at all when
    the conversion raises. *)
Lemma process_frame_ledger (s : settings) (t0 : Q) (i : image) (t : tick)
    (frame_count : Z) (w : world) :
  let out := process_frame s t0 i t frame_count w in
  cams (snd out) = cams w /\ fetched (snd out) = fetched w /\
  sdk (snd out) = sdk w /\ dirs (snd out) = dirs w /\
  exists d, log (snd out) = d ++ log w /\
    acquired d = [] /\ normalized d = [image_id i] /\
    if convertible (image_frame i)
    then fst out <> Raise cv2_error /\ released d = [image_id i]
    else fst out = Raise cv2_error /\ released d = [].
Proof.
  cbv zeta.
  destruct (convert_facts i w) as (C1 & C2 & C3 & C4 & (d1 & L1 & K1 & N1) & R).
  destruct (calm_lists d1 K1) as (A1 & B1 & _).
  destruct (convert_image_to_bgr i w) as [res w1] eqn:Ec. cbn [fst snd] in *.
  destruct (convertible (image_frame i)).
  - destruct R as (r & a & -> & Hr).
    rewrite (process_frame_shown s t0 i t frame_count w w1 r a Ec Hr).
    destruct (shown_ledger s t0 i t frame_count r a w1)
      as (S1 & S2 & S3 & S4 & Hne & d2 & L2 & A2 & N2 & B2 & _).
    cbv zeta in *. repeat split; try congruence.
    exists (d2 ++ d1). rewrite L2, L1, app_assoc.
    unfold acquired, normalized, released in *. rewrite !flat_map_app.
    rewrite A1, A2, N1, N2, B1, B2. repeat split; auto.
  - subst res. rewrite (process_frame_raises s t0 i t frame_count w w1 _ Ec).
    cbn [fst snd]. repeat split; auto. exists d1. auto.
Qed.

(* ================================================================== *)
(** ** The ledger of images over a whole loop *)

Lemma ledger_none (n0 : nat) (timeout : Z) :
  ledger n0 false [CallGetNextImage timeout] 0.
Proof. repeat split. intros x []. Qed.

Lemma ledger_last (n0 : nat) (d2 : list event) :
  acquired d2 = [] -> released d2 = [n0] -> incl (normalized d2) [n0] ->
  ledger n0 false (d2 ++ [ImageAcquired n0; CallGetNextImage 1000]) 1.
Proof.
  intros A B C. unfold ledger, acquired, released, normalized in *.
  rewrite !flat_map_app, A, B. cbn. rewrite app_nil_r. auto.
Qed.

Lemma ledger_last_raised (n0 : nat) (d2 : list event) :
  acquired d2 = [] -> released d2 = [] -> normalized d2 = [n0] ->
  ledger n0 true (d2 ++ [ImageAcquired n0; CallGetNextImage 1000]) 1.
Proof.
  intros A B C. unfold ledger, acquired, released, normalized in *.
  rewrite !flat_map_app, A, B, C. cbn. repeat split.
  - intros x Hx. exact Hx.
  - exists n0, []. auto.
Qed.

Lemma ledger_push (n0 : nat) (raised : bool) (d' d2 : list event) (k' : nat) :
  ledger (S n0) raised d' k' ->
  acquired d2 = [] -> released d2 = [n0] -> incl (normalized d2) [n0] ->
  ledger n0 raised (d' ++ d2 ++ [ImageAcquired n0; CallGetNextImage 1000]) (S k').
Proof.
  intros (A' & I' & R') A B C. unfold ledger, acquired, released, normalized in *.
  rewrite !flat_map_app, A, B. cbn [flat_map app]. rewrite !app_nil_r.
  split; [rewrite A'; cbn [seq rev]; reflexivity|].
  split.
  - intros x Hx. apply in_app_or in Hx. apply in_or_app. destruct Hx as [Hx|Hx].
    + left. apply I', Hx.
    + right. apply C, Hx.
  - destruct raised.
    + destruct R' as (id & more & E1 & E2). exists id, (more ++ flat_map
        (fun e => match e with ImageGetNDArray id0 => [id0] | _ => [] end) d2).
      rewrite E1, E2. auto.
    + rewrite R'. reflexivity.
Qed.

Lemma capture_loop_ledger (s : settings) (t0 : Q) (feed : list delivery) :
  forall (frame_count : Z) (w : world),
    let out := capture_loop s t0 feed frame_count w in
    exists d k,
      log (snd out) = d ++ log w /\
      fetched (snd out) = (fetched w + k)%nat /\
      ledger (fetched w) (is_cv2_error (fst out)) d k.
Proof.
  induction feed as [|d0 rest IH]; intros frame_count w; cbv zeta.
  - destruct (GetNextImage_cases 1000 None w) as [(f & Hf & _)|(e & He & Hg)];
      [discriminate|].
    rewrite (capture_loop_fetch_fails s t0 [] frame_count w _ e Hg).
    exists [CallGetNextImage 1000], 0%nat. cbn [fst snd log fetched set_log].
    split; [reflexivity|]. split; [lia|].
    replace (is_cv2_error (@Raise unit e)) with false
      by (destruct e; try reflexivity; congruence).
    apply ledger_none.
  - destruct (GetNextImage_cases 1000 (Some (outcome d0)) w)
      as [(f & Hf & Hg)|(e & He & Hg)].
    + rewrite (capture_loop_turn s t0 d0 rest frame_count w _ _ Hg).
      set (i := {| image_id := fetched w; image_frame := f |}).
      destruct (IsIncomplete i).
      * destruct (IH frame_count (skipped i (handed_out 1000 w)))
          as (d' & k' & L' & F' & G').
        cbv zeta in *. cbn [skipped handed_out set_log fetched log] in L', F', G'.
        exists (d' ++ [ImageRelease (image_id i);
                       Printed [Txt "[WARN] Incomplete image. Status: ";
                                Int (GetImageStatus i)]]
                   ++ [ImageAcquired (fetched w); CallGetNextImage 1000]), (S k').
        split; [rewrite L'; cbn; rewrite <- app_assoc; reflexivity|].
        split; [rewrite F'; lia|].
        apply ledger_push; auto. intros x [].
      * destruct (process_frame_ledger s t0 i (at_tick d0) frame_count
                    (handed_out 1000 w))
          as (P1 & P2 & P3 & P4 & d2 & L2 & A2 & N2 & R2).
        cbv zeta in *.
        destruct (process_frame s t0 i (at_tick d0) frame_count (handed_out 1000 w))
          as [r2 w2]. cbn [fst snd] in *. cbn [handed_out fetched log] in P2, L2.
        assert (incl (normalized d2) [fetched w]) as I2
          by (rewrite N2; intros x Hx; exact Hx).
        destruct (convertible (image_frame i)); destruct R2 as [Hres B2].
        -- destruct r2 as [[n [|]]|e].
           ++ exists (d2 ++ [ImageAcquired (fetched w); CallGetNextImage 1000]), 1%nat.
              cbn [fst snd]. split; [rewrite L2, <- app_assoc; reflexivity|].
              split; [rewrite P2; lia|]. apply ledger_last; auto.
           ++ destruct (IH n w2) as (d' & k' & L' & F' & G'). cbv zeta in *.
              rewrite P2 in F', G'.
              exists (d' ++ d2 ++ [ImageAcquired (fetched w); CallGetNextImage 1000]),
                     (S k').
              split; [rewrite L', L2, <- !app_assoc; reflexivity|].
              split; [rewrite F'; lia|]. apply ledger_push; auto.
           ++ exists (d2 ++ [ImageAcquired (fetched w); CallGetNextImage 1000]), 1%nat.
              cbn [fst snd]. split; [rewrite L2, <- app_assoc; reflexivity|].
              split; [rewrite P2; lia|].
              replace (is_cv2_error (@Raise unit e)) with false
                by (destruct e; try reflexivity; congruence).
              apply ledger_last; auto.
        -- subst r2.
           exists (d2 ++ [ImageAcquired (fetched w); CallGetNextImage 1000]), 1%nat.
           cbn [fst snd]. split; [rewrite L2, <- app_assoc; reflexivity|].
           split; [rewrite P2; lia|]. apply ledger_last_raised; auto.
    + rewrite (capture_loop_fetch_fails s t0 (d0 :: rest) frame_count w _ e Hg).
      exists [CallGetNextImage 1000], 0%nat. cbn [fst snd log fetched set_log].
      split; [reflexivity|]. split; [lia|].
      replace (is_cv2_error (@Raise unit e)) with false
        by (destruct e; try reflexivity; congruence).
      apply ledger_none.
Qed.

Lemma single_ledger_frame (n0 : nat) (next : option fetch) (d pre post : list event) :
  single_ledger n0 next d ->
  forallb calm pre = true -> normalized pre = [] ->
  forallb calm post = true -> normalized post = [] ->
  single_ledger n0 next (post ++ d ++ pre).
Proof.
  intros H Hpre Npre Hpost Npost.
  destruct (calm_lists pre Hpre) as (A1 & B1 & _).
  destruct (calm_lists post Hpost) as (A2 & B2 & _).
  unfold single_ledger, acquired, released, normalized in *.
  rewrite !flat_map_app, A1, A2, B1, B2, Npre, Npost, !app_nil_r. cbn [app].
  exact H.
Qed.

Lemma single_fetch_ledger (timeout : Z) (next : option fetch) (w : world) :
  let out := single_fetch timeout next w in
  exists d, log (snd out) = d ++ log w /\ single_ledger (fetched w) next d.
Proof.
  cbv zeta. unfold single_fetch.
  destruct (GetNextImage_cases timeout next w) as [(f & Hf & Hg)|(e & He & Hg)];
    unfold bind at 1; rewrite Hg.
  - set (i := {| image_id := fetched w; image_frame := f |}).
    unfold IsIncomplete. cbn [image_frame i].
    destruct (incomplete f) eqn:Hinc.
    + unfold print, Release. run.
      eexists [_; _; _; _]. split; [reflexivity|].
      right. exists f. rewrite Hinc. cbn. auto.
    + destruct (convert_facts i (handed_out timeout w))
        as (_ & _ & _ & _ & (d1 & L1 & K1 & N1) & R).
      destruct (calm_lists d1 K1) as (A1 & B1 & _).
      cbv zeta in *. cbn [image_frame i] in R.
      unfold bind at 1.
      destruct (convert_image_to_bgr i (handed_out timeout w)) as [res w1].
      cbn [fst snd] in *. cbn [handed_out log] in L1.
      destruct (convertible f) eqn:Hcv.
      * destruct R as (r & a & -> & _). unfold Release. run.
        exists (ImageRelease (fetched w) :: d1
                ++ [ImageAcquired (fetched w); CallGetNextImage timeout]).
        split; [rewrite L1; cbn; rewrite <- app_assoc; reflexivity|].
        right. exists f. rewrite Hinc, Hcv. unfold acquired, released, normalized in *.
        cbn [flat_map]. rewrite !flat_map_app, A1, B1, N1. cbn. auto.
      * subst res. cbn [snd fst].
        exists (d1 ++ [ImageAcquired (fetched w); CallGetNextImage timeout]).
        split; [rewrite L1, <- app_assoc; reflexivity|].
        right. exists f. rewrite Hinc, Hcv. unfold acquired, released, normalized in *.
        rewrite !flat_map_app, A1, B1, N1. cbn. auto.
  - cbn [snd log set_log]. exists [CallGetNextImage timeout].
    split; [reflexivity|]. left. auto.
Qed.

Lemma EndAcquisition_log (w : world) :
  log (snd (EndAcquisition w)) = CameraEndAcquisition :: log w.
Proof.
  destruct w as [cs hp lg ds ft fl]. unfold EndAcquisition. run.
  destruct (fail_EndAcquisition fl); run; [reflexivity|].
  destruct cs as [|c cs]; run; [reflexivity|].
  destruct (streaming c); reflexivity.
Qed.

Lemma acquire_single_frame_ledger (timeout : Z) (next : option fetch) (w : world) :
  let out := acquire_single_frame timeout next w in
  exists d, log (snd out) = d ++ log w /\ single_ledger (fetched w) next d.
Proof.
  cbv zeta.
  assert (forall pre w0,
            log w0 = pre ++ log w -> fetched w0 = fetched w ->
            forallb calm pre = true -> normalized pre = [] ->
            exists d,
              log (snd (try_finally (single_fetch timeout next) EndAcquisition w0))
                = d ++ log w /\ single_ledger (fetched w) next d) as K.
  { intros pre w0 L0 F0 Hpre Npre. unfold try_finally.
    destruct (single_fetch_ledger timeout next w0) as (d & L1 & G1). cbv zeta in *.
    destruct (single_fetch timeout next w0) as [r w1]. cbn [snd] in *.
    pose proof (EndAcquisition_log w1) as L2.
    destruct (EndAcquisition w1) as [[u|e] w2]; cbn [snd] in *;
      (exists ([CameraEndAcquisition] ++ d ++ pre);
       split; [rewrite L2, L1, L0, <- !app_assoc; reflexivity|];
       rewrite <- F0; apply single_ledger_frame; auto). }
  assert (forall pre, forallb calm pre = true -> normalized pre = [] ->
            single_ledger (fetched w) next pre) as Z0.
  { intros pre Hpre Npre. left. destruct (calm_lists pre Hpre) as (A & B & _). auto. }
  destruct w as [cs hp lg ds ft fl].
  unfold acquire_single_frame, GetEntryByName, entry_GetValue, enum_SetIntValue,
    BeginAcquisition.
  run. destruct cs as [|c cs]; run.
  { exists []. split; [reflexivity|]. apply Z0; reflexivity. }
  destruct (enum_writable (AcquisitionMode c)); run.
  2: { eexists [_]. split; [reflexivity|]. apply Z0; reflexivity. }
  destruct (lookup_entry "SingleFrame" (enum_entries (AcquisitionMode c))) as [e|]; run.
  2: { exists []. split; [reflexivity|]. apply Z0; reflexivity. }
  destruct (entry_readable e); run.
  2: { exists []. split; [reflexivity|]. apply Z0; reflexivity. }
  destruct (fail_BeginAcquisition fl); run.
  { eexists [_; _]. split; [reflexivity|]. apply Z0; reflexivity. }
  destruct (streaming c); run.
  { eexists [_; _]. split; [reflexivity|]. apply Z0; reflexivity. }
  match goal with
  | |- context [single_fetch timeout next ?W] =>
      destruct (K [CameraBeginAcquisition;
                   NodeSet "AcquisitionMode" (VInt (entry_value e))] W)
        as (d & Ld & Gd); try reflexivity
  end.
  unfold try_finally in Ld. exists d. split; [exact Ld | exact Gd].
Qed.

(* ================================================================== *)
(** ** Release of frames *)

(** The two [finally] blocks make calls that touch no image. *)
Lemma calm_cleanup : keeps (quiet calm) cleanup.
Proof.
  unfold cleanup, EndAcquisition, DeInit, Clear, ReleaseInstance,
    cv2_destroyAllWindows, print.
  repeat first [ apply quiet_emit; reflexivity | quiet_step ].
Qed.

Lemma calm_closing : keeps (quiet calm) (DeInit ;; Clear ;; ReleaseInstance).
Proof.
  unfold DeInit, Clear, ReleaseInstance.
  repeat first [ apply quiet_emit; reflexivity | quiet_step ].
Qed.

Lemma calm_keeps_the_books (w w' : world) :
  quiet calm w w' ->
  acquired (log w') = acquired (log w) /\ released (log w') = released (log w).
Proof.
  intros (_ & _ & _ & delta & L & K). rewrite L.
  destruct (calm_lists delta K) as (A & B & _).
  unfold acquired, released in *. rewrite !flat_map_app, A, B. auto.
Qed.

(** C1, as amended.  In the capture loop the images are handed out with
    consecutive numbers, only images handed out go to the normalizer, and
    no image is released twice.  When the loop ends in anything but an
    exception of the conversion, the releases are exactly the images
    handed out: each incomplete image and each converted image is
    released once.  When the conversion raises, the loop ends with that
    exception, every earlier image has been released once, and the image
    in conversion has not been released.  The same holds for the one
    image of [acquire_single_frame]: it is released once if it is
    incomplete or its conversion returns, and not at all if its
    conversion raises.  The [finally] blocks of the two scripts hand out
    no image and release none: the teardown stops the stream and closes
    the device and leaves the releases as they were. *)
Theorem frames_released_unless_conversion_raises (s : settings) (t0 : Q)
    (feed : list delivery) (frame_count timeout : Z) (next : option fetch)
    (w : world) :
  (let out := capture_loop s t0 feed frame_count w in
   exists d k,
     log (snd out) = d ++ log w /\
     acquired d = rev (seq (fetched w) k) /\
     incl (normalized d) (acquired d) /\
     NoDup (released d) /\
     if is_cv2_error (fst out)
     then exists id more, acquired d = id :: released d /\ normalized d = id :: more
     else released d = acquired d)
  /\ (let out := acquire_single_frame timeout next w in
      exists d,
        log (snd out) = d ++ log w /\
        ((acquired d = [] /\ released d = [] /\ normalized d = [])
         \/ (exists f, next = Some (Arrives f) /\
               acquired d = [fetched w] /\
               released d = (if incomplete f || convertible f
                             then [fetched w] else []) /\
               normalized d = (if incomplete f then [] else [fetched w]))))
  /\ (let after := snd (cleanup w) in
      acquired (log after) = acquired (log w) /\
      released (log after) = released (log w))
  /\ (let after := snd ((DeInit ;; Clear ;; ReleaseInstance) w) in
      acquired (log after) = acquired (log w) /\
      released (log after) = released (log w)).
Proof.
  split; [|split; [|split]]; cbv zeta.
  - destruct (capture_loop_ledger s t0 feed frame_count w) as (d & k & L & _ & A & I & R).
    exists d, k. repeat split; auto.
    assert (NoDup (acquired d)) as Hnd
      by (rewrite A; apply NoDup_rev, seq_NoDup).
    destruct (is_cv2_error (fst (capture_loop s t0 feed frame_count w))).
    + destruct R as (id & more & E & _). rewrite E in Hnd.
      inversion Hnd; assumption.
    + rewrite R. exact Hnd.
  - exact (acquire_single_frame_ledger timeout next w).
  - exact (calm_keeps_the_books _ _ (calm_cleanup w)).
  - exact (calm_keeps_the_books _ _ (calm_closing w)).
Qed.

(** C1 as stated fails: a frame is handed out and given to the
    normalizer, the conversion raises, and the run ends, teardown
    included, without a release of the frame.  This happens in both
    scripts, here for a complete frame of two channels under a name the
    dispatch does not recognize: its buffer goes to the RGB-to-BGR
    conversion, which OpenCV refuses. *)
Lemma frame_not_released_when_conversion_raises :
  let yuv := mk_frame false (Some "YUV422Packed") (Some 2%N) in
  let live := realtime_view_and_save default_settings 0 [arrival yuv (-1)] demo_world in
  let single := lab2_single_frame "single_frame.png" (Some (Arrives yuv)) demo_world in
  (fst live = Raise cv2_error /\
   acquired (log (snd live)) = [0%nat] /\
   normalized (log (snd live)) = [0%nat] /\
   released (log (snd live)) = [] /\
   filter is_teardown (history (snd live)) = teardown_calls)
  /\ (fst single = Raise cv2_error /\
      acquired (log (snd single)) = [0%nat] /\
      normalized (log (snd single)) = [0%nat] /\
      released (log (snd single)) = [] /\
      filter is_teardown (history (snd single)) = teardown_calls /\
      saved_paths (log (snd single)) = []).
Proof. vm_compute. repeat split. Qed.

(* ================================================================== *)
(** ** The save cadence *)

(** One turn on a good delivery with the stream running. *)
Lemma capture_loop_good_turn (s : settings) (t0 : Q) (d : delivery)
    (rest : list delivery) (frame_count : Z) (w : world) (c : camera)
    (cs : list camera) :
  cams w = c :: cs -> streaming c = true ->
  save_every_n_frames s <> 0 -> good d = true ->
  exists w2,
    (capture_loop s t0 (d :: rest) frame_count w =
       if quits d then (Ok tt, w2)
       else capture_loop s t0 rest (frame_count + 1) w2) /\
    cams w2 = cams w /\ dirs w2 = dirs w /\
    saved_paths (log w2) =
      (if (frame_count + 1) mod save_every_n_frames s =? 0
       then [path_join (output_dir s) (save_name (at_tick d) (frame_count + 1))]
       else []) ++ saved_paths (log w).
Proof.
  intros Hc Hs Hn Hg. unfold good in Hg.
  destruct (outcome d) as [f| |] eqn:Hout; try discriminate.
  apply andb_true_iff in Hg. destruct Hg as [Hinc Hcv].
  apply negb_true_iff in Hinc.
  set (i := {| image_id := fetched w; image_frame := f |}).
  rewrite (capture_loop_turn s t0 d rest frame_count w (handed_out 1000 w) i)
    by (rewrite Hout; eapply GetNextImage_arrives; eassumption).
  unfold IsIncomplete. cbn [image_frame i]. rewrite Hinc.
  destruct (convert_facts i (handed_out 1000 w))
    as (C1 & _ & _ & C4 & (d1 & L1 & K1 & _) & R).
  cbv zeta in *. cbn [image_frame i] in R. rewrite Hcv in R.
  destruct R as (r & a & Er & Hr).
  destruct (convert_image_to_bgr i (handed_out 1000 w)) as [res w1] eqn:Ec.
  cbn [fst snd] in *. subst res.
  rewrite (process_frame_shown s t0 i (at_tick d) frame_count _ w1 r a Ec Hr).
  destruct (shown_ledger s t0 i (at_tick d) frame_count r a w1)
    as (S1 & _ & _ & S4 & _ & d2 & L2 & _ & _ & _ & P2).
  cbv zeta in *.
  assert ((save_every_n_frames s =? 0) = false) as Hn0 by (apply Z.eqb_neq, Hn).
  rewrite Hn0 in P2.
  assert (fst (shown s t0 i (at_tick d) frame_count r a w1)
          = Ok (frame_count + 1, quits d)) as Hfst.
  { unfold shown, quits. rewrite Hn0.
    destruct (Z.land (pressed (at_tick d)) 255 =? 113); reflexivity. }
  destruct (shown s t0 i (at_tick d) frame_count r a w1) as [res w2].
  cbn [fst snd] in *. subst res.
  exists w2. split; [destruct (quits d); reflexivity|].
  split; [rewrite S1, C1; reflexivity|].
  split; [rewrite S4, C4; reflexivity|].
  rewrite L2, L1. destruct (calm_lists d1 K1) as (_ & _ & P1).
  unfold saved_paths in *. rewrite !flat_map_app, P1, P2. reflexivity.
Qed.

(** A run of usable deliveries in which no frame but the last may come
    with the 'q' key: whether it ends with the key or with the time-out of
    the fetch after the last delivery, the files written are the ones due
    for its frames; incomplete images do not count. *)
Lemma capture_loop_saves (s : settings) (t0 : Q) (feed : list delivery) :
  forall (frame_count : Z) (w : world) (c : camera) (cs : list camera),
    cams w = c :: cs -> streaming c = true ->
    save_every_n_frames s <> 0 ->
    forallb usable feed = true ->
    forallb (fun d => negb (quits d)) (removelast (filter complete feed)) = true ->
    let out := capture_loop s t0 feed frame_count w in
    saved_paths (log (snd out))
      = rev (due s frame_count (filter complete feed)) ++ saved_paths (log w)
    /\ dirs (snd out) = dirs w.
Proof.
  induction feed as [|d rest IH]; intros frame_count w c cs Hc Hs Hn Hg Hq; cbv zeta.
  - destruct (GetNextImage_cases 1000 None w) as [(f & Hf & _)|(e & He & Hgi)];
      [discriminate|].
    rewrite (capture_loop_fetch_fails s t0 [] frame_count w _ e Hgi). auto.
  - cbn [forallb] in Hg. apply andb_true_iff in Hg. destruct Hg as [Hgd Hgr].
    cbn [filter] in *. unfold usable in Hgd. unfold complete at 1. unfold complete at 1 in Hq.
    destruct (outcome d) as [f| |] eqn:Hout; try discriminate.
    destruct (incomplete f) eqn:Hinc; cbn [negb] in *.
    + set (i := {| image_id := fetched w; image_frame := f |}).
      rewrite (capture_loop_turn s t0 d rest frame_count w (handed_out 1000 w) i)
        by (rewrite Hout; eapply GetNextImage_arrives; eassumption).
      unfold IsIncomplete. cbn [image_frame i]. rewrite Hinc.
      destruct (IH frame_count (skipped i (handed_out 1000 w)) c cs Hc Hs Hn Hgr Hq)
        as [P D].
      cbv zeta in P, D. rewrite P, D. split; reflexivity.
    + assert (good d = true) as Hgood
        by (unfold good; rewrite Hout, Hinc; exact Hgd).
      destruct (capture_loop_good_turn s t0 d rest frame_count w c cs Hc Hs Hn Hgood)
        as (w2 & E & C2 & D2 & P2).
      rewrite E. cbn [due]. rewrite rev_app_distr.
      destruct (quits d) eqn:Hqd.
      * destruct (filter complete rest) as [|d' rest'].
        -- cbn [snd due rev app]. rewrite P2.
           destruct ((frame_count + 1) mod save_every_n_frames s =? 0); auto.
        -- cbn [removelast forallb] in Hq. rewrite Hqd in Hq. discriminate.
      * assert (forallb (fun d => negb (quits d)) (removelast (filter complete rest))
                = true) as Hq'.
        { destruct (filter complete rest) as [|d' rest']; [reflexivity|].
          cbn [removelast forallb] in Hq. apply andb_true_iff in Hq. apply Hq. }
        rewrite <- C2 in Hc.
        destruct (IH (frame_count + 1) w2 c cs Hc Hs Hn Hgr Hq') as [P D].
        cbv zeta in *. rewrite P, P2, D, D2. split; [|reflexivity].
        rewrite <- app_assoc.
        destruct ((frame_count + 1) mod save_every_n_frames s =? 0); reflexivity.
Qed.

Lemma append_empty_r (a : string) : (a ++ "")%string = a.
Proof. induction a as [|x a IH]; cbn; [reflexivity | rewrite IH; reflexivity]. Qed.

Lemma quiet_cleanup : keeps (quiet (fun _ => true)) cleanup.
Proof.
  unfold cleanup, EndAcquisition, DeInit, Clear, ReleaseInstance,
    cv2_destroyAllWindows, print.
  repeat first [ apply quiet_emit; reflexivity | quiet_step ].
Qed.

(** Whatever happens in a run, the output directory exists at its end. *)
Lemma output_dir_exists (s : settings) (t0 : Q) (feed : list delivery) (w : world) :
  In (output_dir s) (dirs (snd (realtime_view_and_save s t0 feed w))).
Proof.
  assert (exists w0,
            realtime_view_and_save s t0 feed w =
              (if (List.length (cams w) =? 0)%nat
               then print [Txt "[ERROR] No FLIR cameras found."] ;; Clear ;; ReleaseInstance
               else try_finally (capture_session s t0 feed) cleanup) w0 /\
            In (output_dir s) (dirs w0)) as (w0 & E & Hin).
  { destruct w as [cs hp lg ds ft fl].
    cbv beta iota zeta delta
      [realtime_view_and_save os_makedirs System_GetInstance GetCameras GetSize
       bind emit set_log set_dirs cams heap log dirs fetched sdk].
    destruct (existsb (String.eqb (output_dir s)) ds) eqn:Ex;
      eexists; (split; [reflexivity|]); cbn [dirs].
    - apply existsb_exists in Ex. destruct Ex as (x & Hx & Heq).
      apply String.eqb_eq in Heq. subst x. exact Hx.
    - left. reflexivity. }
  rewrite E.
  assert (keeps (quiet (fun _ => true))
            (if (List.length (cams w) =? 0)%nat
             then print [Txt "[ERROR] No FLIR cameras found."] ;; Clear ;; ReleaseInstance
             else try_finally (capture_session s t0 feed) cleanup)) as K.
  { destruct (List.length (cams w) =? 0)%nat.
    - unfold Clear, ReleaseInstance, print.
      repeat first [ apply quiet_emit; reflexivity | quiet_step ].
    - apply quiet_try_finally; [|apply quiet_cleanup].
      apply quiet_capture_session. reflexivity. }
  destruct (K w0) as (D & _). rewrite D. exact Hin.
Qed.

Ltac fold_counts :=
  repeat match goal with
         | |- context [Z.add ?a 1] =>
             let b := eval cbv in (Z.add a 1) in
             progress change (Z.add a 1) with b
         end;
  repeat match goal with
         | |- context [Z.eqb (Z.modulo ?a 10) 0] =>
             let b := eval cbv in (Z.eqb (Z.modulo a 10) 0) in
             progress change (Z.eqb (Z.modulo a 10) 0) with b
         end.

(** C8.  In a capture loop with the stream running and the cadence 10,
    a run of usable deliveries of which thirty-five are complete frames,
    the key 'q' coming with the last frame or not at all, leaves exactly
    three files: the tenth, the twentieth and the thirtieth frame, each
    under the output directory and named frame_, the time stamp of its
    turn, an underscore, the frame count on six digits, and .png.  The
    time stamp is the year followed by month, day, hour, minute and second
    on two digits each, with an underscore between day and hour.  The
    counts are the ones the cadence of the specification lists.  Whatever
    the run, the output directory exists when [realtime_view_and_save] is
    over. *)
Theorem saves_every_tenth_frame (s : settings) (t0 : Q) (feed : list delivery)
    (w : world) (c : camera) (cs : list camera)
    (Hcam : cams w = c :: cs) (Hon : streaming c = true)
    (Hten : save_every_n_frames s = 10)
    (Hlen : List.length (filter complete feed) = 35%nat)
    (Huse : forallb usable feed = true)
    (Hkeys : forallb (fun d => negb (quits d)) (removelast (filter complete feed))
             = true) :
  let out := capture_loop s t0 feed 0 w in
  let frames := filter complete feed in
  let name k n := ("frame_" ++ stamp_of frames k ++ "_" ++ n ++ ".png")%string in
  rev (saved_paths (log (snd out))) =
    rev (saved_paths (log w))
    ++ [path_join (output_dir s) (name 9%nat "000010"%string);
        path_join (output_dir s) (name 19%nat "000020"%string);
        path_join (output_dir s) (name 29%nat "000030"%string)]
  /\ save_counts 10 35 = [10; 20; 30]
  /\ map format_06d (save_counts 10 35)
     = ["000010"; "000020"; "000030"]%string
  /\ (forall lt,
        strftime "%Y%m%d_%H%M%S" lt =
          (dec (tm_year lt) ++ zfill 2 (dec (tm_mon lt)) ++ zfill 2 (dec (tm_mday lt))
           ++ "_" ++ zfill 2 (dec (tm_hour lt)) ++ zfill 2 (dec (tm_min lt))
           ++ zfill 2 (dec (tm_sec lt)))%string)
  /\ (forall t0' feed' w',
        In (output_dir s) (dirs (snd (realtime_view_and_save s t0' feed' w')))).
Proof.
  intros out frames name. subst out.
  assert (save_every_n_frames s <> 0) as Hn by (rewrite Hten; discriminate).
  destruct (capture_loop_saves s t0 feed 0 w c cs Hcam Hon Hn Huse Hkeys) as [P _].
  cbv zeta in P. rewrite P, rev_app_distr, rev_involutive. fold frames.
  split; [|split; [reflexivity|split; [reflexivity|split]]].
  - f_equal. subst name. unfold stamp_of. fold frames in Hlen. clearbody frames.
    do 35 (destruct frames as [|? frames]; [discriminate|]).
    destruct frames; [|discriminate].
    cbn [due nth]. rewrite Hten. fold_counts. cbn [app]. reflexivity.
  - intros lt. cbn [strftime Ascii.eqb Bool.eqb]. rewrite append_empty_r.
    reflexivity.
  - intros t0' feed' w'. apply output_dir_exists.
Qed.

(** An incomplete image and thirty-five BGR8 frames on a streaming device,
    and the whole script on the sample device with the same feed. *)
Lemma saves_every_tenth_frame_witness :
  let w := boot [streaming_camera] [] no_faults in
  let live := realtime_view_and_save default_settings 0 demo_feed demo_world in
  (cams w = streaming_camera :: [] /\
   rev (saved_paths (log (snd (capture_loop default_settings 0 demo_feed 0 w)))) =
     ["captures/frame_20250309_120005_000010.png";
      "captures/frame_20250309_120005_000020.png";
      "captures/frame_20250309_120005_000030.png"]%string)
  /\ rev (saved_paths (log (snd live))) =
       ["captures/frame_20250309_120005_000010.png";
        "captures/frame_20250309_120005_000020.png";
        "captures/frame_20250309_120005_000030.png"]%string
  /\ dirs (snd live) = ["captures"%string].
Proof.
  split; [split; [reflexivity|] | split; vm_compute; reflexivity].
  exact (proj1 (saves_every_tenth_frame default_settings 0 demo_feed
                  (boot [streaming_camera] [] no_faults) streaming_camera []
                  eq_refl eq_refl eq_refl eq_refl eq_refl eq_refl)).
Defined.

(* ================================================================== *)
(** ** Reading back the pixel format *)

Lemma debug_pixel_format_runs (w : world) (c : camera) (rest : list camera) :
  cams w = c :: rest ->
  debug_pixel_format w =
    (Ok tt,
     set_log
       (Printed
          (if enum_readable (PixelFormat c) then
             match lookup_value (enum_current (PixelFormat c))
                                (enum_entries (PixelFormat c)) with
             | Some (symbolic, e) =>
                 if entry_readable e
                 then [Txt "[INFO] Current PixelFormat: "; Str symbolic]
                 else [Txt "[WARN] Current PixelFormat entry is not readable."]
             | None => [Txt "[WARN] Current PixelFormat entry is not readable."]
             end
           else [Txt "[WARN] PixelFormat is not readable."])
        :: log w) w).
Proof.
  intros Hc. open_world w Hc. unfold debug_pixel_format, GetCurrentEntry. run.
  destruct (enum_readable (PixelFormat c)); run; [|reflexivity].
  destruct (lookup_value (enum_current (PixelFormat c)) (enum_entries (PixelFormat c)))
    as [[symbolic e]|]; [|reflexivity].
  destruct (entry_readable e); reflexivity.
Qed.

Lemma lookup_entry_value_in (name : string) (l : list (string * enum_entry))
    (e : enum_entry) :
  lookup_entry name l = Some e ->
  In (entry_value e) (map (fun p => entry_value (snd p)) l).
Proof.
  induction l as [|[n e0] l IH]; [discriminate|]. cbn.
  destruct (String.eqb n name).
  - intros H. injection H as <-. left. reflexivity.
  - intros H. right. apply IH, H.
Qed.

(** With pairwise distinct values, the entry found by name is the entry
    found by its value. *)
Lemma lookup_value_of_entry (name : string) (l : list (string * enum_entry))
    (e : enum_entry) :
  NoDup (map (fun p => entry_value (snd p)) l) ->
  lookup_entry name l = Some e ->
  lookup_value (entry_value e) l = Some (name, e).
Proof.
  induction l as [|[n e0] l IH]; [discriminate|]. cbn. intros Hnd H.
  inversion Hnd as [|v vs Hnotin Hnd']. subst.
  destruct (String.eqb n name) eqn:En.
  - injection H as <-. apply String.eqb_eq in En. subst n.
    rewrite Z.eqb_refl. reflexivity.
  - destruct (Z.eqb_spec (entry_value e0) (entry_value e)) as [Ev|Ev].
    + exfalso. apply Hnotin. rewrite Ev. eapply lookup_entry_value_in, H.
    + apply IH; assumption.
Qed.

(** X1.  [debug_pixel_format] only reads: with a camera at hand it returns
    normally and adds one printed line to the log, whatever the state of
    the node.  After [set_pixel_format] has written a format on a node
    that is readable and whose entries have pairwise distinct values, the
    line it prints names that very format. *)
Theorem set_pixel_format_is_read_back (w : world) (c : camera) (rest : list camera)
    (name : string)
    (Hcam : cams w = c :: rest)
    (Hread : enum_readable (PixelFormat c) = true)
    (Hwrite : enum_writable (PixelFormat c) = true)
    (Hdistinct : NoDup (entry_values (PixelFormat c)))
    (Hfirst : first_readable ["RGB8Packed"; "BGR8"; "Mono8"]%string (PixelFormat c)
              = Some name) :
  (exists msg, debug_pixel_format w = (Ok tt, set_log (Printed msg :: log w) w))
  /\ exists w1,
       set_pixel_format w = (Ok tt, w1) /\
       debug_pixel_format w1 =
         (Ok tt,
          set_log (Printed [Txt "[INFO] Current PixelFormat: "; Str name] :: log w1)
                  w1).
Proof.
  split; [eexists; apply (debug_pixel_format_runs w c rest Hcam)|].
  destruct (first_readable_sound _ _ _ Hfirst) as (_ & e & He & Hr).
  exists (format_written name (entry_value e) c rest w). split.
  - pose proof (try_formats_spec ["RGB8Packed"; "BGR8"; "Mono8"]%string w c rest Hcam)
      as Hloop.
    rewrite Hfirst, He in Hloop.
    open_world w Hcam. unfold set_pixel_format. run. rewrite Hwrite. cbn [negb].
    rewrite Hloop. reflexivity.
  - rewrite (debug_pixel_format_runs (format_written name (entry_value e) c rest w)
               (set_PixelFormat (with_current (entry_value e) (PixelFormat c)) c)
               rest eq_refl).
    cbn [PixelFormat set_PixelFormat with_current enum_readable enum_current
         enum_entries].
    rewrite Hread, (lookup_value_of_entry name _ e Hdistinct He), Hr. reflexivity.
Qed.

Lemma set_pixel_format_is_read_back_witness :
  exists w1,
    set_pixel_format demo_world = (Ok tt, w1) /\
    debug_pixel_format w1 =
      (Ok tt,
       set_log (Printed [Txt "[INFO] Current PixelFormat: "; Str "BGR8"] :: log w1) w1).
Proof.
  refine (proj2 (set_pixel_format_is_read_back demo_world demo_camera [] "BGR8"
                   eq_refl eq_refl eq_refl _ eq_refl)).
  repeat constructor; cbn; intuition discriminate.
Defined.

(** [set_pixel_format] in one equation. *)
Lemma set_pixel_format_runs (w : world) (c : camera) (rest : list camera) :
  cams w = c :: rest ->
  set_pixel_format w =
    if enum_writable (PixelFormat c) then
      match first_readable ["RGB8Packed"; "BGR8"; "Mono8"]%string (PixelFormat c) with
      | Some name =>
          match lookup_entry name (enum_entries (PixelFormat c)) with
          | Some e => (Ok tt, format_written name (entry_value e) c rest w)
          | None =>
              (Ok tt,
               set_log (Printed [Txt "[WARN] No preferred PixelFormat found. Using default."]
                        :: log w) w)
          end
      | None =>
          (Ok tt,
           set_log (Printed [Txt "[WARN] No preferred PixelFormat found. Using default."]
                    :: log w) w)
      end
    else
      (Ok tt,
       set_log (Printed [Txt "[WARN] Cannot write PixelFormat. Using current format."]
                :: log w) w).
Proof.
  intros Hc.
  pose proof (try_formats_spec ["RGB8Packed"; "BGR8"; "Mono8"]%string w c rest Hc)
    as Hloop.
  remember (first_readable ["RGB8Packed"; "BGR8"; "Mono8"]%string (PixelFormat c))
    as chosen eqn:Hch.
  clear Hch. open_world w Hc. unfold set_pixel_format. run.
  destruct (enum_writable (PixelFormat c)); cbn [negb]; [|reflexivity].
  rewrite Hloop.
  destruct chosen as [name|]; [|reflexivity].
  destruct (lookup_entry name (enum_entries (PixelFormat c))); reflexivity.
Qed.

(** X2.  Selecting the pixel format twice leaves the device as selecting
    it once does: the second call finds the same entry and writes the same
    value, or warns for the same reason. *)
Theorem set_pixel_format_idempotent (w : world) (c : camera) (rest : list camera)
    (Hcam : cams w = c :: rest) :
  fst ((set_pixel_format ;; set_pixel_format) w) = Ok tt /\
  cams (snd ((set_pixel_format ;; set_pixel_format) w))
    = cams (snd (set_pixel_format w)).
Proof.
  unfold bind. rewrite (set_pixel_format_runs w c rest Hcam).
  destruct (enum_writable (PixelFormat c)) eqn:Hw.
  - destruct (first_readable ["RGB8Packed"; "BGR8"; "Mono8"]%string (PixelFormat c))
      as [name|] eqn:Hf.
    + destruct (lookup_entry name (enum_entries (PixelFormat c))) as [e|] eqn:He.
      * rewrite (set_pixel_format_runs (format_written name (entry_value e) c rest w)
                   (set_PixelFormat (with_current (entry_value e) (PixelFormat c)) c)
                   rest eq_refl).
        cbn [PixelFormat set_PixelFormat with_current enum_writable].
        rewrite Hw.
        change (first_readable ["RGB8Packed"; "BGR8"; "Mono8"]%string
                  (with_current (entry_value e) (PixelFormat c)))
          with (first_readable ["RGB8Packed"; "BGR8"; "Mono8"]%string (PixelFormat c)).
        rewrite Hf. cbn [enum_entries with_current]. rewrite He.
        split; reflexivity.
      * erewrite (set_pixel_format_runs (set_log _ w) c rest Hcam).
        rewrite Hw, Hf, He. split; reflexivity.
    + erewrite (set_pixel_format_runs (set_log _ w) c rest Hcam).
      rewrite Hw, Hf. split; reflexivity.
  - erewrite (set_pixel_format_runs (set_log _ w) c rest Hcam).
    rewrite Hw. split; reflexivity.
Qed.

Lemma set_pixel_format_idempotent_witness :
  cams (snd ((set_pixel_format ;; set_pixel_format) demo_world))
    = cams (snd (set_pixel_format demo_world)).
Proof.
  exact (proj2 (set_pixel_format_idempotent demo_world demo_camera [] eq_refl)).
Defined.

(* ================================================================== *)
(** ** The rest of the configuration *)

Lemma py_min_bounds (a b : Q) : (py_min a b <= a)%Q /\ (py_min a b <= b)%Q.
Proof.
  unfold py_min. destruct (Qle_bool a b) eqn:E.
  - apply Qle_bool_iff in E. split; [apply Qle_refl | exact E].
  - split; [|apply Qle_refl].
    apply Qlt_le_weak, Qnot_le_lt. intros H. apply Qle_bool_iff in H. congruence.
Qed.

(** The frame-rate block, step by step: what becomes of the camera and
    that nothing else changes. *)
Lemma configure_frame_rate_camera (fps : Q) (w : world) (c : camera)
    (rest : list camera) :
  cams w = c :: rest ->
  exists w' c',
    configure_frame_rate fps w = (Ok tt, w') /\
    cams w' = c' :: rest /\
    heap w' = heap w /\ dirs w' = dirs w /\ fetched w' = fetched w /\ sdk w' = sdk w /\
    AcquisitionFrameRateEnable c' =
      (if bool_writable (AcquisitionFrameRateEnable c)
       then with_bool true (AcquisitionFrameRateEnable c)
       else AcquisitionFrameRateEnable c) /\
    AcquisitionFrameRate c' =
      (if float_writable (AcquisitionFrameRate c)
       then with_float (py_min fps (float_max (AcquisitionFrameRate c)))
                       (AcquisitionFrameRate c)
       else AcquisitionFrameRate c) /\
    PixelFormat c' = PixelFormat c /\ AcquisitionMode c' = AcquisitionMode c /\
    Width c' = Width c /\ Height c' = Height c /\
    OffsetX c' = OffsetX c /\ OffsetY c' = OffsetY c /\
    initialized c' = initialized c /\ streaming c' = streaming c.
Proof.
  intros Hc. open_world w Hc.
  unfold configure_frame_rate, bool_SetValue, float_SetValue. run.
  destruct (bool_writable (AcquisitionFrameRateEnable c)); run;
    destruct (float_writable (AcquisitionFrameRate c)); run;
    eexists; eexists; (split; [reflexivity|]); cbn; repeat split.
Qed.

(** X3.  The frame-rate block never raises.  When the rate node is
    writable the rate written is the smaller of the request and the device
    maximum, so it exceeds neither; when it is not writable the node is
    left alone.  The enable node is switched on when it is writable and
    left alone otherwise.  No other node and nothing else of the camera
    changes. *)
Theorem frame_rate_is_capped (fps : Q) (w : world) (c : camera)
    (rest : list camera) (Hcam : cams w = c :: rest) :
  let out := configure_frame_rate fps w in
  let c' := camera_of (snd out) in
  let rate := AcquisitionFrameRate c in
  let enable := AcquisitionFrameRateEnable c in
  fst out = Ok tt
  /\ (float_writable rate = true ->
      float_value (AcquisitionFrameRate c') = py_min fps (float_max rate) /\
      (float_value (AcquisitionFrameRate c') <= float_max rate)%Q /\
      (float_value (AcquisitionFrameRate c') <= fps)%Q /\
      float_max (AcquisitionFrameRate c') = float_max rate)
  /\ (float_writable rate = false -> AcquisitionFrameRate c' = rate)
  /\ (bool_writable enable = true ->
      bool_value (AcquisitionFrameRateEnable c') = true)
  /\ (bool_writable enable = false -> AcquisitionFrameRateEnable c' = enable)
  /\ (PixelFormat c' = PixelFormat c /\ AcquisitionMode c' = AcquisitionMode c /\
      Width c' = Width c /\ Height c' = Height c /\
      OffsetX c' = OffsetX c /\ OffsetY c' = OffsetY c /\
      initialized c' = initialized c /\ streaming c' = streaming c).
Proof.
  cbv zeta.
  destruct (configure_frame_rate_camera fps w c rest Hcam)
    as (w' & c' & E & Hc' & _ & _ & _ & _ & He & Hr & Hrest).
  rewrite E. cbn [fst snd]. unfold camera_of. rewrite Hc'. cbn [hd].
  split; [reflexivity|].
  split.
  { intros Hw. rewrite Hr, Hw. cbn [float_value float_max with_float].
    destruct (py_min_bounds fps (float_max (AcquisitionFrameRate c))). auto. }
  split; [intros Hw; rewrite Hr, Hw; reflexivity|].
  split; [intros Hw; rewrite He, Hw; reflexivity|].
  split; [intros Hw; rewrite He, Hw; reflexivity|].
  exact Hrest.
Qed.

Lemma frame_rate_is_capped_witness :
  float_value (AcquisitionFrameRate
                 (camera_of (snd (configure_frame_rate (90 # 1) demo_world))))
  = py_min (90 # 1) (60 # 1).
Proof.
  exact (proj1 (proj1 (proj2 (frame_rate_is_capped (90 # 1) demo_world
                                demo_camera [] eq_refl)) eq_refl)).
Defined.

Lemma even_down_even (v : Z) : Z.even (even_down v) = true.
Proof.
  rewrite even_down_floor. rewrite Z.even_mul. reflexivity.
Qed.

Lemma even_down_bounds (v : Z) : v - 1 <= even_down v <= v.
Proof.
  unfold even_down. destruct (v mod 2 =? 1); lia.
Qed.

(** [configure_camera_resolution_fps] as the resolution block, the offset
    block and the rest, with the camera after each. *)
Lemma configure_camera_splits (width height : Z) (fps : Q) (w : world)
    (c : camera) (rest : list camera) :
  cams w = c :: rest ->
  let both := int_writable (Width c) && int_writable (Height c) in
  let centred := int_writable (OffsetX c) && int_writable (OffsetY c) in
  exists w2 c2,
    configure_camera_resolution_fps width height fps w
      = (configure_frame_rate fps ;; report_applied) w2 /\
    cams w2 = c2 :: rest /\
    heap w2 = heap w /\ dirs w2 = dirs w /\ fetched w2 = fetched w /\ sdk w2 = sdk w /\
    Width c2 = (if both
                then with_int (even_down (Z.min width (int_max (Width c)))) (Width c)
                else Width c) /\
    Height c2 = (if both
                 then with_int (even_down (Z.min height (int_max (Height c)))) (Height c)
                 else Height c) /\
    OffsetX c2 = (if centred
                  then with_int (int_max (OffsetX c) / 2) (OffsetX c)
                  else OffsetX c) /\
    OffsetY c2 = (if centred
                  then with_int (int_max (OffsetY c) / 2) (OffsetY c)
                  else OffsetY c) /\
    AcquisitionFrameRateEnable c2 = AcquisitionFrameRateEnable c /\
    AcquisitionFrameRate c2 = AcquisitionFrameRate c /\
    PixelFormat c2 = PixelFormat c /\ AcquisitionMode c2 = AcquisitionMode c /\
    initialized c2 = initialized c /\ streaming c2 = streaming c.
Proof.
  intros Hc both centred. subst both centred.
  unfold configure_camera_resolution_fps.
  unfold bind at 1. rewrite (configure_resolution_runs width height w c rest Hc).
  destruct (int_writable (Width c) && int_writable (Height c)); cbv iota beta.
  - unfold bind at 1.
    rewrite (configure_offsets_runs (resolution_written _ _ c rest w) _ rest eq_refl).
    cbn [OffsetX OffsetY set_Height set_Width int_writable int_max].
    destruct (int_writable (OffsetX c) && int_writable (OffsetY c)); cbv iota beta;
      eexists; eexists; (split; [reflexivity|]); cbn; repeat split.
  - unfold bind at 1.
    rewrite (configure_offsets_runs (set_log _ w) c rest Hc).
    destruct (int_writable (OffsetX c) && int_writable (OffsetY c)); cbv iota beta;
      eexists; eexists; (split; [reflexivity|]); cbn; rewrite ?Hc; repeat split.
Qed.

Lemma report_applied_runs (w : world) (c : camera) (rest : list camera) :
  cams w = c :: rest ->
  report_applied w =
    (Ok tt,
     set_log
       (Printed
          [Txt "[CHECK] Applied resolution: ";
           Int (if int_readable (Width c) then int_value (Width c) else -1);
           Txt " x ";
           Int (if int_readable (Height c) then int_value (Height c) else -1);
           Txt ", FPS: ";
           Flt (if float_readable (AcquisitionFrameRate c)
                then float_value (AcquisitionFrameRate c) else (-1 # 1)%Q) 2]
        :: log w) w).
Proof. intros Hc. open_world w Hc. reflexivity. Qed.

(** The whole of [configure_camera_resolution_fps]: it returns normally,
    and the camera it leaves and the last line it prints are these. *)
Lemma configure_camera_result (width height : Z) (fps : Q) (w : world)
    (c : camera) (rest : list camera) :
  cams w = c :: rest ->
  let both := int_writable (Width c) && int_writable (Height c) in
  exists w' c',
    configure_camera_resolution_fps width height fps w = (Ok tt, w') /\
    cams w' = c' :: rest /\
    heap w' = heap w /\ dirs w' = dirs w /\ fetched w' = fetched w /\ sdk w' = sdk w /\
    Width c' = (if both
                then with_int (even_down (Z.min width (int_max (Width c)))) (Width c)
                else Width c) /\
    Height c' = (if both
                 then with_int (even_down (Z.min height (int_max (Height c)))) (Height c)
                 else Height c) /\
    PixelFormat c' = PixelFormat c /\ AcquisitionMode c' = AcquisitionMode c /\
    initialized c' = initialized c /\ streaming c' = streaming c /\
    hd_error (log w') =
      Some (Printed
              [Txt "[CHECK] Applied resolution: ";
               Int (if int_readable (Width c') then int_value (Width c') else -1);
               Txt " x ";
               Int (if int_readable (Height c') then int_value (Height c') else -1);
               Txt ", FPS: ";
               Flt (if float_readable (AcquisitionFrameRate c')
                    then float_value (AcquisitionFrameRate c') else (-1 # 1)%Q) 2]).
Proof.
  intros Hc both.
  destruct (configure_camera_splits width height fps w c rest Hc)
    as (w2 & c2 & E & Hc2 & H2 & D2 & F2 & S2 & W2 & Hh2 & _ & _ & _ & _ & P2 & M2
        & I2 & St2).
  destruct (configure_frame_rate_camera fps w2 c2 rest Hc2)
    as (w3 & c3 & E3 & Hc3 & H3 & D3 & F3 & S3 & _ & _ & P3 & M3 & W3 & Hh3 & _ & _
        & I3 & St3).
  exists (snd (report_applied w3)), c3.
  rewrite E. unfold bind at 1. rewrite E3.
  rewrite (report_applied_runs w3 c3 rest Hc3). cbn [snd cams heap dirs fetched sdk
    log set_log hd_error].
  subst both. repeat split; try congruence.
Qed.

(** X4.  When Width and Height are writable, the size that
    [configure_camera_resolution_fps] leaves on the device is even in both
    directions, exceeds neither the request nor the device maximum, and is
    at most one below the smaller of the two.  The function returns
    normally, and it leaves the pixel format, the acquisition mode and the
    state of the stream as they were. *)
Theorem negotiated_size_is_even_and_bounded (width height : Z) (fps : Q) (w : world)
    (c : camera) (rest : list camera)
    (Hcam : cams w = c :: rest)
    (Hboth : int_writable (Width c) && int_writable (Height c) = true) :
  let out := configure_camera_resolution_fps width height fps w in
  let c' := camera_of (snd out) in
  let wd := int_value (Width c') in
  let ht := int_value (Height c') in
  fst out = Ok tt
  /\ Z.even wd = true /\ Z.even ht = true
  /\ wd <= width /\ wd <= int_max (Width c) /\ Z.min width (int_max (Width c)) - 1 <= wd
  /\ ht <= height /\ ht <= int_max (Height c)
  /\ Z.min height (int_max (Height c)) - 1 <= ht
  /\ int_max (Width c') = int_max (Width c)
  /\ int_max (Height c') = int_max (Height c)
  /\ PixelFormat c' = PixelFormat c /\ AcquisitionMode c' = AcquisitionMode c
  /\ initialized c' = initialized c /\ streaming c' = streaming c.
Proof.
  cbv zeta.
  destruct (configure_camera_result width height fps w c rest Hcam)
    as (w' & c' & E & Hc' & _ & _ & _ & _ & W & H & P & M & I & S & _).
  cbv zeta in W, H. rewrite Hboth in W, H.
  rewrite E. cbn [fst snd]. unfold camera_of. rewrite Hc'. cbn [hd].
  rewrite W, H. cbn [int_value int_max with_int].
  pose proof (even_down_bounds (Z.min width (int_max (Width c)))).
  pose proof (even_down_bounds (Z.min height (int_max (Height c)))).
  repeat split; auto using even_down_even; lia.
Qed.

Lemma negotiated_size_is_even_and_bounded_witness :
  Z.even (int_value (Width (camera_of
            (snd (configure_camera_resolution_fps 2001 721 (30 # 1) demo_world)))))
  = true.
Proof.
  exact (proj1 (proj2 (negotiated_size_is_even_and_bounded 2001 721 (30 # 1)
                         demo_world demo_camera [] eq_refl eq_refl))).
Defined.

(** X5.  The last thing [configure_camera_resolution_fps] does is print
    the line that starts with CHECK, and the numbers in it are the values
    the nodes hold at that moment: for a readable node the value just
    negotiated or, where the node was not writable, the value it had; for
    an unreadable node the stand-in -1. *)
Theorem applied_values_are_reported (width height : Z) (fps : Q) (w : world)
    (c : camera) (rest : list camera) (Hcam : cams w = c :: rest) :
  let out := configure_camera_resolution_fps width height fps w in
  let c' := camera_of (snd out) in
  let both := int_writable (Width c) && int_writable (Height c) in
  hd_error (log (snd out)) =
    Some (Printed
            [Txt "[CHECK] Applied resolution: ";
             Int (if int_readable (Width c) then int_value (Width c') else -1);
             Txt " x ";
             Int (if int_readable (Height c) then int_value (Height c') else -1);
             Txt ", FPS: ";
             Flt (if float_readable (AcquisitionFrameRate c')
                  then float_value (AcquisitionFrameRate c') else (-1 # 1)%Q) 2])
  /\ int_value (Width c') =
       (if both then even_down (Z.min width (int_max (Width c)))
        else int_value (Width c))
  /\ int_value (Height c') =
       (if both then even_down (Z.min height (int_max (Height c)))
        else int_value (Height c)).
Proof.
  cbv zeta.
  destruct (configure_camera_result width height fps w c rest Hcam)
    as (w' & c' & E & Hc' & _ & _ & _ & _ & W & H & _ & _ & _ & _ & L).
  cbv zeta in W, H.
  rewrite E. cbn [snd]. unfold camera_of. rewrite Hc'. cbn [hd]. rewrite L.
  assert (int_readable (Width c') = int_readable (Width c)) as RW
    by (rewrite W; destruct (int_writable (Width c) && int_writable (Height c));
        reflexivity).
  assert (int_readable (Height c') = int_readable (Height c)) as RH
    by (rewrite H; destruct (int_writable (Width c) && int_writable (Height c));
        reflexivity).
  rewrite RW, RH. split; [reflexivity|].
  rewrite W, H.
  destruct (int_writable (Width c) && int_writable (Height c)); split; reflexivity.
Qed.

Lemma applied_values_are_reported_witness :
  hd_error (log (snd (configure_camera_resolution_fps 2001 721 (30 # 1)
                        (boot [locked_camera] [] no_faults)))) =
    Some (Printed [Txt "[CHECK] Applied resolution: "; Int 640; Txt " x "; Int 480;
                   Txt ", FPS: "; Flt (py_min (30 # 1) (60 # 1)) 2]).
Proof.
  exact (proj1 (applied_values_are_reported 2001 721 (30 # 1)
                  (boot [locked_camera] [] no_faults) locked_camera [] eq_refl)).
Defined.

(* ================================================================== *)
(** ** Starting the stream *)

(** X6.  [start_continuous_mode] on a camera whose AcquisitionMode is not
    writable prints one line and returns normally, with no stream started
    and nothing written.  On a writable node it raises the SDK's exception
    before it writes anything when the Continuous entry is missing or not
    readable, and also, after the write, when a stream is already running.
    Otherwise, with [BeginAcquisition] working, it returns with the mode
    set to the value of the Continuous entry and the stream running, after
    exactly one call of [BeginAcquisition]. *)
Theorem start_continuous_mode_outcomes (w : world) (c : camera) (rest : list camera)
    (Hcam : cams w = c :: rest) :
  let out := start_continuous_mode w in
  let mode := AcquisitionMode c in
  let continuous := lookup_entry "Continuous" (enum_entries mode) in
  (enum_writable mode = false ->
     out = (Ok tt,
            set_log (Printed [Txt "[ERROR] Cannot set AcquisitionMode to Continuous."]
                     :: log w) w))
  /\ (enum_writable mode = true -> IsReadable_entry continuous = false ->
      out = (Raise SpinnakerException, w))
  /\ (enum_writable mode = true -> IsReadable_entry continuous = true ->
      streaming c = true ->
      fst out = Raise SpinnakerException /\ streaming (camera_of (snd out)) = true)
  /\ (forall e, enum_writable mode = true -> continuous = Some e ->
      entry_readable e = true -> streaming c = false ->
      fail_BeginAcquisition (sdk w) = false ->
      fst out = Ok tt /\
      streaming (camera_of (snd out)) = true /\
      enum_current (AcquisitionMode (camera_of (snd out))) = entry_value e /\
      count_event is_begin_acquisition (log (snd out))
        = S (count_event is_begin_acquisition (log w))).
Proof.
  cbv zeta. open_world w Hcam.
  unfold start_continuous_mode, GetEntryByName, entry_GetValue, enum_SetIntValue,
    BeginAcquisition, IsReadable_entry, camera_of, count_event.
  run.
  split; [intros ->; reflexivity|].
  split.
  { intros -> Hr. run.
    destruct (lookup_entry "Continuous" (enum_entries (AcquisitionMode c))) as [e|];
      [rewrite Hr|]; reflexivity. }
  split.
  { intros -> Hr Hs. run.
    destruct (lookup_entry "Continuous" (enum_entries (AcquisitionMode c))) as [e|];
      [|discriminate].
    rewrite Hr. run. destruct (fail_BeginAcquisition _); run; [auto|].
    rewrite Hs. auto. }
  intros e -> He Hr Hs Hf. run. rewrite He, Hr. run. rewrite Hf. run. rewrite Hs. run.
  auto.
Qed.

Lemma start_continuous_mode_outcomes_witness :
  streaming (camera_of (snd (start_continuous_mode demo_world))) = true
  /\ fst (start_continuous_mode (boot [idle_camera] [] no_faults)) = Ok tt.
Proof.
  split.
  - exact (proj1 (proj2 (proj2 (proj2 (proj2
             (start_continuous_mode_outcomes demo_world demo_camera [] eq_refl)))
             (entry 0) eq_refl eq_refl eq_refl eq_refl eq_refl))).
  - exact (f_equal fst
             (proj1 (start_continuous_mode_outcomes (boot [idle_camera] [] no_faults)
                       idle_camera [] eq_refl) eq_refl)).
Defined.

(** X7.  With no stream running, the capture loop ends at its first fetch
    with the SDK's exception, whatever the device would have delivered:
    the log grows by that one call, no image is handed out and no frame is
    counted.  So when [start_continuous_mode] finds the acquisition mode
    locked and returns without a word to its caller, the loop that follows
    it ends in that exception. *)
Theorem capture_loop_needs_stream (s : settings) (t0 : Q) (feed : list delivery)
    (frame_count : Z) (w : world) (c : camera) (rest : list camera)
    (Hcam : cams w = c :: rest) (Hoff : streaming c = false) :
  capture_loop s t0 feed frame_count w
    = (Raise SpinnakerException, set_log (CallGetNextImage 1000 :: log w) w)
  /\ (enum_writable (AcquisitionMode c) = false ->
      (start_continuous_mode ;; capture_loop s t0 feed frame_count) w
        = (Raise SpinnakerException,
           set_log (CallGetNextImage 1000
                    :: Printed [Txt "[ERROR] Cannot set AcquisitionMode to Continuous."]
                    :: log w) w)).
Proof.
  assert (forall lg,
            capture_loop s t0 feed frame_count (set_log lg w)
            = (Raise SpinnakerException,
               set_log (CallGetNextImage 1000 :: lg) w)) as K.
  { intros lg. open_world w Hcam.
    destruct feed as [|d more]; cbn [capture_loop]; unfold GetNextImage; run;
      rewrite Hoff; reflexivity. }
  split.
  - rewrite <- (K (log w)). destruct w; reflexivity.
  - intros Hw. unfold bind at 1.
    replace (start_continuous_mode w) with
      (Ok tt, set_log (Printed [Txt "[ERROR] Cannot set AcquisitionMode to Continuous."]
                       :: log w) w).
    + apply K.
    + open_world w Hcam. unfold start_continuous_mode. run. rewrite Hw. reflexivity.
Qed.

Lemma capture_loop_needs_stream_witness :
  fst (capture_loop default_settings 0 demo_feed 0 demo_world)
  = Raise SpinnakerException.
Proof.
  exact (f_equal fst
           (proj1 (capture_loop_needs_stream default_settings 0 demo_feed 0
                     demo_world demo_camera [] eq_refl eq_refl))).
Defined.

(* ================================================================== *)
(** ** The calls of a conversion *)

Lemma convert_calls (i : image) (w : world) :
  exists d, log (snd (convert_image_to_bgr i w)) = d ++ log w /\
            forallb is_conversion_call d = true.
Proof.
  assert (forall code notes, forallb is_print notes = true ->
            exists d, log (snd (cvt_outcome code notes i w)) = d ++ log w /\
                      forallb is_conversion_call d = true) as K.
  { intros code notes Hn. rewrite cvt_outcome_log.
    exists (CvtColor (List.length (heap w)) code
            :: notes ++ [ImageGetNDArray (image_id i)]).
    split; [cbn; rewrite <- app_assoc; reflexivity|].
    cbn [forallb is_conversion_call andb]. rewrite forallb_app.
    apply andb_true_iff. split; [|reflexivity].
    clear -Hn. induction notes as [|e notes IH]; [reflexivity|].
    cbn [forallb] in *. apply andb_true_iff in Hn. destruct Hn as [He Hn].
    rewrite (IH Hn). destruct e; try discriminate. reflexivity. }
  rewrite convert_image_to_bgr_runs.
  destruct (format_name (image_frame i)) as [fmt_name|]; cbv zeta;
    repeat match goal with
           | |- context [if str_in ?n ?u then _ else _] => destruct (str_in n u)
           end;
    try (apply K; reflexivity).
  exists [ImageGetNDArray (image_id i)]. split; reflexivity.
Qed.

Lemma count_event_app (p : event -> bool) (a b : list event) :
  count_event p (a ++ b) = (count_event p a + count_event p b)%nat.
Proof. unfold count_event. rewrite filter_app, length_app. reflexivity. Qed.

Lemma count_event_none (p q : event -> bool) (d : list event) :
  (forall e, q e = true -> p e = false) ->
  forallb q d = true -> count_event p d = 0%nat.
Proof.
  intros Hpq. induction d as [|e d IH]; [reflexivity|].
  cbn [forallb]. intros H. apply andb_true_iff in H. destruct H as [He Hd].
  unfold count_event in *. cbn [filter]. rewrite (Hpq e He). apply IH, Hd.
Qed.

Lemma conversion_calls_are_calm (d : list event) :
  forallb is_conversion_call d = true -> forallb calm d = true.
Proof.
  induction d as [|e d IH]; [reflexivity|]. cbn [forallb]. intros H.
  apply andb_true_iff in H. destruct H as [He Hd]. rewrite (IH Hd).
  destruct e; try discriminate; reflexivity.
Qed.

(* ================================================================== *)
(** ** A cadence of zero *)

(** One turn on a good delivery when the cadence is zero. *)
Lemma capture_loop_zero_turn (s : settings) (t0 : Q) (d : delivery)
    (rest : list delivery) (frame_count : Z) (w : world) (c : camera)
    (cs : list camera) :
  cams w = c :: cs -> streaming c = true ->
  save_every_n_frames s = 0 -> good d = true ->
  exists delta,
    fst (capture_loop s t0 (d :: rest) frame_count w) = Raise ZeroDivisionError /\
    log (snd (capture_loop s t0 (d :: rest) frame_count w)) = delta ++ log w /\
    saved_paths delta = [] /\ count_event is_display delta = 0%nat /\
    acquired delta = [fetched w] /\ released delta = [fetched w].
Proof.
  intros Hc Hs Hz Hg. unfold good in Hg.
  destruct (outcome d) as [f| |] eqn:Hout; try discriminate.
  apply andb_true_iff in Hg. destruct Hg as [Hinc Hcv].
  apply negb_true_iff in Hinc.
  set (i := {| image_id := fetched w; image_frame := f |}).
  rewrite (capture_loop_turn s t0 d rest frame_count w (handed_out 1000 w) i)
    by (rewrite Hout; eapply GetNextImage_arrives; eassumption).
  unfold IsIncomplete. cbn [image_frame i]. rewrite Hinc.
  destruct (convert_facts i (handed_out 1000 w)) as (_ & _ & _ & _ & _ & R).
  destruct (convert_calls i (handed_out 1000 w)) as (d1 & L1 & K1).
  cbv zeta in *. cbn [image_frame i] in R. rewrite Hcv in R.
  destruct R as (r & a & Er & Hr).
  destruct (convert_image_to_bgr i (handed_out 1000 w)) as [res w1] eqn:Ec.
  cbn [fst snd] in *. subst res.
  rewrite (process_frame_shown s t0 i (at_tick d) frame_count _ w1 r a Ec Hr).
  unfold shown. rewrite Hz. cbn [Z.eqb fst snd log].
  exists (PutText r (fps_text t0 (at_tick d) (frame_count + 1))
          :: ImageRelease (image_id i)
          :: d1 ++ [ImageAcquired (fetched w); CallGetNextImage 1000]).
  split; [reflexivity|].
  split; [rewrite L1; cbn; rewrite <- app_assoc; reflexivity|].
  destruct (calm_lists d1 (conversion_calls_are_calm d1 K1)) as (A1 & B1 & P1).
  assert (count_event is_display d1 = 0%nat) as D1.
  { apply (count_event_none is_display is_conversion_call); [|exact K1].
    intros [] E; try discriminate; reflexivity. }
  unfold saved_paths, acquired, released in *. cbn [flat_map app].
  rewrite !flat_map_app, A1, B1, P1.
  change (PutText r (fps_text t0 (at_tick d) (frame_count + 1))
          :: ImageRelease (image_id i)
          :: d1 ++ [ImageAcquired (fetched w); CallGetNextImage 1000])
    with ([PutText r (fps_text t0 (at_tick d) (frame_count + 1));
           ImageRelease (image_id i)]
          ++ d1 ++ [ImageAcquired (fetched w); CallGetNextImage 1000]).
  rewrite !count_event_app, D1. repeat split.
Qed.

(** X8.  With [save_every_n_frames] zero the loop never gets past its
    first complete frame: incomplete images before it are skipped as
    usual, then the frame is converted, released and drawn on, and the
    test of the cadence raises ZeroDivisionError.  No file has been
    written and no picture shown, and every image handed out has been
    released. *)
Theorem zero_cadence_raises (s : settings) (t0 : Q) (skip : list delivery)
    (d : delivery) (rest : list delivery) (frame_count : Z) (w : world)
    (c : camera) (cs : list camera)
    (Hcam : cams w = c :: cs) (Hon : streaming c = true)
    (Hzero : save_every_n_frames s = 0)
    (Hskip : forallb partial_image skip = true)
    (Hgood : good d = true) :
  let out := capture_loop s t0 (skip ++ d :: rest) frame_count w in
  fst out = Raise ZeroDivisionError
  /\ exists delta,
       log (snd out) = delta ++ log w /\
       saved_paths delta = [] /\
       count_event is_display delta = 0%nat /\
       released delta = acquired delta /\
       List.length (acquired delta) = S (List.length skip).
Proof.
  cbv zeta. revert w Hcam.
  induction skip as [|d0 skip IH]; intros w Hcam.
  - cbn [app].
    destruct (capture_loop_zero_turn s t0 d rest frame_count w c cs Hcam Hon Hzero Hgood)
      as (delta & F & L & P & D & A & B).
    split; [exact F|]. exists delta. rewrite A, B. auto.
  - cbn [forallb] in Hskip. apply andb_true_iff in Hskip. destruct Hskip as [H0 Hskip].
    unfold partial_image in H0.
    destruct (outcome d0) as [f| |] eqn:Hout; try discriminate.
    set (i := {| image_id := fetched w; image_frame := f |}).
    cbn [app].
    rewrite (capture_loop_turn s t0 d0 (skip ++ d :: rest) frame_count w
               (handed_out 1000 w) i)
      by (rewrite Hout; eapply GetNextImage_arrives; eassumption).
    unfold IsIncomplete. cbn [image_frame i]. rewrite H0.
    destruct (IH Hskip (skipped i (handed_out 1000 w)) Hcam)
      as (F & delta & L & P & D & B & A).
    split; [exact F|].
    exists (delta ++ [ImageRelease (fetched w);
                      Printed [Txt "[WARN] Incomplete image. Status: ";
                               Int (image_status f)];
                      ImageAcquired (fetched w); CallGetNextImage 1000]).
    split; [rewrite L, <- app_assoc; reflexivity|].
    unfold saved_paths, acquired, released in *.
    rewrite count_event_app, !flat_map_app, P, D, B, length_app, A.
    cbn. repeat split. lia.
Qed.

Lemma zero_cadence_raises_witness :
  let s := {| output_dir := "captures"; save_every_n_frames := 0;
              window_name := "FLIR Realtime"; width := 1280; height := 720;
              fps := (30 # 1)%Q |} in
  fst (capture_loop s 0
         ([arrival (mk_frame true (Some "BGR8") (Some 3%N)) (-1)]
          ++ arrival (mk_frame false (Some "BGR8") (Some 3%N)) (-1) :: [])
         0 (boot [streaming_camera] [] no_faults))
  = Raise ZeroDivisionError.
Proof.
  intros s.
  exact (proj1 (zero_cadence_raises s 0
                  [arrival (mk_frame true (Some "BGR8") (Some 3%N)) (-1)]
                  (arrival (mk_frame false (Some "BGR8") (Some 3%N)) (-1)) []
                  0 (boot [streaming_camera] [] no_faults) streaming_camera []
                  eq_refl eq_refl eq_refl eq_refl eq_refl)).
Defined.

(* ================================================================== *)
(** ** The key test *)

Lemma quits_low_byte (d : delivery) :
  quits d = (pressed (at_tick d) mod 256 =? 113).
Proof.
  unfold quits. change 255 with (Z.ones 8). rewrite Z.land_ones by lia. reflexivity.
Qed.

(** One turn on a good delivery, the same for every continuation of the
    feed. *)
Lemma capture_loop_frame_turn (s : settings) (t0 : Q) (d : delivery)
    (frame_count : Z) (w : world) (c : camera) (cs : list camera) :
  cams w = c :: cs -> streaming c = true ->
  save_every_n_frames s <> 0 -> good d = true ->
  exists w2,
    (forall rest,
       capture_loop s t0 (d :: rest) frame_count w =
         if quits d then (Ok tt, w2)
         else capture_loop s t0 rest (frame_count + 1) w2) /\
    cams w2 = cams w /\ fetched w2 = S (fetched w) /\
    hd_error (log w2) =
      Some (if quits d then Printed [Txt "[INFO] 'q' pressed. Exiting loop."]
            else WaitKey 1).
Proof.
  intros Hc Hs Hn Hg. unfold good in Hg.
  destruct (outcome d) as [f| |] eqn:Hout; try discriminate.
  apply andb_true_iff in Hg. destruct Hg as [Hinc Hcv].
  apply negb_true_iff in Hinc.
  set (i := {| image_id := fetched w; image_frame := f |}).
  destruct (convert_facts i (handed_out 1000 w)) as (C1 & C2 & _ & _ & _ & R).
  cbv zeta in *. cbn [image_frame i] in R. rewrite Hcv in R.
  destruct R as (r & a & Er & Hr).
  destruct (convert_image_to_bgr i (handed_out 1000 w)) as [res w1] eqn:Ec.
  cbn [fst snd] in *. subst res.
  assert ((save_every_n_frames s =? 0) = false) as Hn0 by (apply Z.eqb_neq, Hn).
  exists (snd (shown s t0 i (at_tick d) frame_count r a w1)).
  split; [|unfold shown, quits; rewrite Hn0;
           destruct (Z.land (pressed (at_tick d)) 255 =? 113);
           cbn [snd cams fetched log hd_error]; rewrite C1, C2; auto].
  intros rest.
  rewrite (capture_loop_turn s t0 d rest frame_count w (handed_out 1000 w) i)
    by (rewrite Hout; eapply GetNextImage_arrives; eassumption).
  unfold IsIncomplete. cbn [image_frame i]. rewrite Hinc.
  rewrite (process_frame_shown s t0 i (at_tick d) frame_count _ w1 r a Ec Hr).
  unfold shown, quits. rewrite Hn0.
  destruct (Z.land (pressed (at_tick d)) 255 =? 113); reflexivity.
Qed.

(** X9.  After a frame has been converted, saved if due and shown, the
    loop looks at the low byte of what [cv2.waitKey] returned and at
    nothing else of it.  If that byte is the code of q, the loop prints
    its last line and ends normally, whatever the device would still have
    delivered; if it is anything else, the loop goes on to the next
    delivery with the frame count raised by one.  Either way exactly one
    image has been handed out. *)
Theorem quit_key_ends_the_loop (s : settings) (t0 : Q) (d : delivery)
    (frame_count : Z) (w : world) (c : camera) (cs : list camera)
    (Hcam : cams w = c :: cs) (Hon : streaming c = true)
    (Hcadence : save_every_n_frames s <> 0) (Hgood : good d = true) :
  exists w2,
    fetched w2 = S (fetched w) /\
    (pressed (at_tick d) mod 256 = 113 ->
       (forall rest, capture_loop s t0 (d :: rest) frame_count w = (Ok tt, w2)) /\
       hd_error (log w2) = Some (Printed [Txt "[INFO] 'q' pressed. Exiting loop."])) /\
    (pressed (at_tick d) mod 256 <> 113 ->
       forall rest,
         capture_loop s t0 (d :: rest) frame_count w
         = capture_loop s t0 rest (frame_count + 1) w2).
Proof.
  destruct (capture_loop_frame_turn s t0 d frame_count w c cs Hcam Hon Hcadence Hgood)
    as (w2 & E & _ & F & L).
  rewrite quits_low_byte in E, L.
  exists w2. split; [exact F|]. split.
  - intros Hk. apply Z.eqb_eq in Hk. rewrite Hk in L. split; [|exact L].
    intros rest. rewrite (E rest), Hk. reflexivity.
  - intros Hk. apply Z.eqb_neq in Hk. intros rest. rewrite (E rest), Hk. reflexivity.
Qed.

Lemma quit_key_ends_the_loop_witness :
  exists w2,
    forall rest,
      capture_loop default_settings 0
        (arrival (mk_frame false (Some "BGR8") (Some 3%N)) (113 + 256 * 4) :: rest)
        0 (boot [streaming_camera] [] no_faults)
      = (Ok tt, w2).
Proof.
  destruct (quit_key_ends_the_loop default_settings 0
              (arrival (mk_frame false (Some "BGR8") (Some 3%N)) (113 + 256 * 4)) 0
              (boot [streaming_camera] [] no_faults) streaming_camera []
              eq_refl eq_refl ltac:(discriminate) eq_refl) as (w2 & _ & Q & _).
  exists w2. exact (proj1 (Q eq_refl)).
Defined.

(* ================================================================== *)
(** ** How many files a run writes *)

Lemma mod_abs_zero (a n : Z) : n <> 0 -> (a mod n =? 0) = (a mod Z.abs n =? 0).
Proof.
  intros Hn. apply Bool.eq_iff_eq_true. rewrite !Z.eqb_eq.
  rewrite !Z.mod_divide by lia. symmetry. apply Z.divide_abs_l.
Qed.

Lemma div_step (n m : Z) :
  0 < m -> (n + 1) / m - n / m = if (n + 1) mod m =? 0 then 1 else 0.
Proof.
  intros Hm.
  pose proof (Z.div_mod n m ltac:(lia)) as E0.
  pose proof (Z.mod_pos_bound n m Hm) as B0.
  pose proof (Z.div_mod (n + 1) m ltac:(lia)) as E1.
  pose proof (Z.mod_pos_bound (n + 1) m Hm) as B1.
  destruct ((n + 1) mod m =? 0) eqn:T.
  - apply Z.eqb_eq in T. nia.
  - apply Z.eqb_neq in T. nia.
Qed.

Lemma due_length (s : settings) (frames : list delivery) :
  save_every_n_frames s <> 0 ->
  forall n,
    Z.of_nat (List.length (due s n frames)) =
      (n + Z.of_nat (List.length frames)) / Z.abs (save_every_n_frames s)
      - n / Z.abs (save_every_n_frames s).
Proof.
  intros Hn. induction frames as [|d frames IH]; intros n.
  - cbn [due List.length]. rewrite Z.add_0_r. lia.
  - cbn [due]. rewrite length_app, Nat2Z.inj_add, IH.
    rewrite (mod_abs_zero (n + 1) _ Hn).
    pose proof (div_step n (Z.abs (save_every_n_frames s)) ltac:(lia)) as St.
    replace (n + Z.of_nat (List.length (d :: frames)))
      with (n + 1 + Z.of_nat (List.length frames))
      by (cbn [List.length]; lia).
    destruct ((n + 1) mod Z.abs (save_every_n_frames s) =? 0); cbn [List.length]; lia.
Qed.

(** X10.  For any cadence N other than zero, a run of usable deliveries
    of which k are complete frames, with the key q on the last frame or on
    none, writes as many files as there are multiples of N among 1 .. k,
    that is the quotient of k by the absolute value of N: a negative
    cadence saves like its absolute value.  The images that arrive
    incomplete do not count. *)
Theorem files_written_count (s : settings) (t0 : Q) (feed : list delivery)
    (w : world) (c : camera) (cs : list camera)
    (Hcam : cams w = c :: cs) (Hon : streaming c = true)
    (Hcadence : save_every_n_frames s <> 0)
    (Huse : forallb usable feed = true)
    (Hkeys : forallb (fun d => negb (quits d)) (removelast (filter complete feed))
             = true) :
  let out := capture_loop s t0 feed 0 w in
  let k := Z.of_nat (List.length (filter complete feed)) in
  Z.of_nat (List.length (saved_paths (log (snd out))))
  = Z.of_nat (List.length (saved_paths (log w)))
    + k / Z.abs (save_every_n_frames s).
Proof.
  cbv zeta.
  destruct (capture_loop_saves s t0 feed 0 w c cs Hcam Hon Hcadence Huse Hkeys)
    as [P _].
  cbv zeta in P. rewrite P, length_app, length_rev, Nat2Z.inj_add.
  rewrite (due_length s _ Hcadence 0). rewrite Z.add_0_l, Zdiv_0_l. lia.
Qed.

Lemma files_written_count_witness :
  Z.of_nat (List.length (saved_paths (log (snd
     (capture_loop default_settings 0 demo_feed 0
        (boot [streaming_camera] [] no_faults))))))
  = 0 + 35 / 10.
Proof.
  exact (files_written_count default_settings 0 demo_feed
           (boot [streaming_camera] [] no_faults) streaming_camera []
           eq_refl eq_refl ltac:(discriminate) eq_refl eq_refl).
Defined.

(* ================================================================== *)
(** ** What a conversion returns *)

Lemma cvt_outcome_returns (code : ColorConversionCode) (notes : list event)
    (i : image) (w w1 : world) (r : nat) :
  cvt_outcome code notes i w = (Ok r, w1) ->
  r = S (List.length (heap w)) /\
  heap w1 = heap w ++ [raw_of i; cv_result code (raw_of i)] /\
  cv_accepts code (raw_of i) = true.
Proof.
  unfold cvt_outcome. destruct (cv_accepts code (raw_of i)); [|discriminate].
  intros E. inversion E. subst. auto.
Qed.

Lemma nth_error_second {A : Type} (l : list A) (x y : A) :
  nth_error (l ++ [x; y]) (S (List.length l)) = Some y.
Proof.
  rewrite nth_error_app2 by lia.
  replace (S (List.length l) - List.length l)%nat with 1%nat by lia. reflexivity.
Qed.

(** X11.  Whenever [convert_image_to_bgr] returns, the frame it returns
    has the rows and columns of the image.  Either it is the very buffer
    [GetNDArray] gave, and this happens only in the BGR8 branch, where the
    number of channels is not looked at; or it is a second array, of three
    channels, that [cv2.cvtColor] made from a buffer it accepted, the
    buffer itself being left as it was.  Arrays that existed before are
    not touched. *)
Theorem convert_result_shape (i : image) (w w1 : world) (r : nat)
    (Hret : convert_image_to_bgr i w = (Ok r, w1)) :
  let raw := raw_of i in
  exists a,
    nth_error (heap w1) r = Some a /\
    rows a = shape_rows (image_frame i) /\ cols a = shape_cols (image_frame i) /\
    ((r = List.length (heap w) /\ a = raw /\ heap w1 = heap w ++ [raw] /\
      exists name, format_name (image_frame i) = Some name /\
                   str_in "BGR8" (upper name) = true)
     \/ (r = S (List.length (heap w)) /\ chans a = Some 3%N /\
         exists code, a = cv_result code raw /\ heap w1 = heap w ++ [raw; a] /\
                      cv_accepts code raw = true)).
Proof.
  cbv zeta.
  assert (forall code notes, cvt_outcome code notes i w = (Ok r, w1) ->
            exists a,
              nth_error (heap w1) r = Some a /\
              rows a = shape_rows (image_frame i) /\
              cols a = shape_cols (image_frame i) /\
              ((r = List.length (heap w) /\ a = raw_of i /\
                heap w1 = heap w ++ [raw_of i] /\
                exists name, format_name (image_frame i) = Some name /\
                             str_in "BGR8" (upper name) = true)
               \/ (r = S (List.length (heap w)) /\ chans a = Some 3%N /\
                   exists code, a = cv_result code (raw_of i) /\
                                heap w1 = heap w ++ [raw_of i; a] /\
                                cv_accepts code (raw_of i) = true))) as K.
  { intros code notes E. apply cvt_outcome_returns in E. destruct E as (-> & H & Acc).
    exists (cv_result code (raw_of i)). rewrite H.
    split; [apply nth_error_second|]. split; [reflexivity|]. split; [reflexivity|].
    right. split; [reflexivity|]. split; [reflexivity|]. exists code. auto. }
  rewrite convert_image_to_bgr_runs in Hret.
  destruct (format_name (image_frame i)) as [fmt_name|] eqn:Hname; cbv zeta in Hret;
    [|exact (K _ _ Hret)].
  destruct (str_in "MONO8" (upper fmt_name)); [exact (K _ _ Hret)|].
  destruct (str_in "RGB8" (upper fmt_name)); [exact (K _ _ Hret)|].
  destruct (str_in "BGR8" (upper fmt_name)) eqn:Hbgr.
  { unfold reused in Hret. inversion Hret. subst. cbn [heap].
    exists (raw_of i). split; [apply nth_error_snoc|].
    split; [reflexivity|]. split; [reflexivity|].
    left. split; [reflexivity|]. split; [reflexivity|]. split; [reflexivity|].
    exists fmt_name. auto. }
  repeat match type of Hret with
         | context [if str_in ?n ?u then _ else _] => destruct (str_in n u)
         end; exact (K _ _ Hret).
Qed.

Lemma convert_result_shape_witness :
  exists a,
    nth_error (heap (snd (convert_image_to_bgr (mk_image (Some "BayerRG8") None)
                            demo_world))) 1 = Some a
    /\ rows a = 4%N /\ cols a = 6%N.
Proof.
  destruct (convert_result_shape (mk_image (Some "BayerRG8") None) demo_world
              (snd (convert_image_to_bgr (mk_image (Some "BayerRG8") None) demo_world))
              1 eq_refl) as (a & H & R & C & _).
  exists a. split; [exact H|]. split; [exact R | exact C].
Defined.

(* ================================================================== *)
(** ** Upper and lower case in format names *)

Lemma upper_ascii_idem (c : ascii) : upper_ascii (upper_ascii c) = upper_ascii c.
Proof. destruct c as [[] [] [] [] [] [] [] []]; reflexivity. Qed.

Lemma upper_idem (s : string) : upper (upper s) = upper s.
Proof.
  induction s as [|c s IH]; [reflexivity|].
  cbn [upper]. rewrite upper_ascii_idem, IH. reflexivity.
Qed.

Lemma cvt_outcome_notes (code : ColorConversionCode) (notes notes' : list event)
    (i : image) (w : world) :
  fst (cvt_outcome code notes i w) = fst (cvt_outcome code notes' i w) /\
  heap (snd (cvt_outcome code notes i w)) = heap (snd (cvt_outcome code notes' i w)).
Proof.
  unfold cvt_outcome. destruct (cv_accepts code (raw_of i)); split; reflexivity.
Qed.

(** X12.  The dispatch of [convert_image_to_bgr] looks at the format name
    in upper case only.  Two names that agree in upper case, on the same
    image, give the same result and the same arrays; if one of the seven
    tests recognizes the name, all that is logged is the same as well,
    and if none does, the two runs differ in nothing but the name quoted
    in the warning.  In particular a name and its upper case are
    dispatched alike. *)
Theorem dispatch_ignores_case (id : nat) (f : frame) (name name' : string)
    (w : world) (Hsame : upper name = upper name') :
  let run_with n :=
    convert_image_to_bgr {| image_id := id; image_frame := with_name (Some n) f |} w in
  fst (run_with name) = fst (run_with name')
  /\ heap (snd (run_with name)) = heap (snd (run_with name'))
  /\ (unrecognized name = false -> run_with name = run_with name')
  /\ fst (run_with name) = fst (run_with (upper name)).
Proof.
  cbv zeta.
  assert (forall n n', upper n = upper n' ->
            fst (convert_image_to_bgr
                   {| image_id := id; image_frame := with_name (Some n) f |} w)
            = fst (convert_image_to_bgr
                     {| image_id := id; image_frame := with_name (Some n') f |} w)
            /\ heap (snd (convert_image_to_bgr
                   {| image_id := id; image_frame := with_name (Some n) f |} w))
            = heap (snd (convert_image_to_bgr
                     {| image_id := id; image_frame := with_name (Some n') f |} w))
            /\ (unrecognized n = false ->
                convert_image_to_bgr
                   {| image_id := id; image_frame := with_name (Some n) f |} w
                = convert_image_to_bgr
                     {| image_id := id; image_frame := with_name (Some n') f |} w))
    as K.
  { intros n n' H. rewrite !convert_image_to_bgr_runs.
    cbn [format_name with_name image_frame]. cbv zeta. unfold unrecognized.
    rewrite H.
    destruct (str_in "MONO8" (upper n')); [repeat split|].
    destruct (str_in "RGB8" (upper n')); [repeat split|].
    destruct (str_in "BGR8" (upper n')); [repeat split|].
    destruct (str_in "BAYERRG8" (upper n')); [repeat split|].
    destruct (str_in "BAYERGB8" (upper n')); [repeat split|].
    destruct (str_in "BAYERGR8" (upper n')); [repeat split|].
    destruct (str_in "BAYERBG8" (upper n')); [repeat split|].
    split; [|split; [|discriminate]].
    - apply (cvt_outcome_notes _ [unhandled_warning n] [unhandled_warning n']
               {| image_id := id; image_frame := with_name (Some n) f |} w).
    - apply (cvt_outcome_notes _ [unhandled_warning n] [unhandled_warning n']
               {| image_id := id; image_frame := with_name (Some n) f |} w). }
  destruct (K name name' Hsame) as (A & B & C).
  destruct (K name (upper name) (eq_sym (upper_idem name))) as (D & _).
  auto.
Qed.

Lemma dispatch_ignores_case_witness :
  fst (convert_image_to_bgr
         {| image_id := 0; image_frame := with_name (Some "bayerrg8") (mk_frame false None None) |}
         demo_world)
  = fst (convert_image_to_bgr
           {| image_id := 0; image_frame := with_name (Some "BayerRG8") (mk_frame false None None) |}
           demo_world).
Proof.
  exact (proj1 (dispatch_ignores_case 0 (mk_frame false None None)
                  "bayerrg8" "BayerRG8" demo_world eq_refl)).
Defined.

(* ================================================================== *)
(** ** The frame that is saved and shown *)

Lemma list_set_nth {A : Type} (l : list A) (r : nat) (a x : A) :
  nth_error l r = Some a -> nth_error (list_set r x l) r = Some x.
Proof.
  revert r. induction l as [|h l IH]; intros [|r] H; try discriminate.
  - reflexivity.
  - cbn [list_set nth_error] in *. apply IH, H.
Qed.

(** X13.  In a turn of the loop whose conversion returns, with a cadence
    other than zero, the array the conversion returned is the one the FPS
    text is drawn into, and this happens before anything else is done with
    it: the file written when the frame is due and the picture shown are
    that same array, so both carry the text.  The image has been released
    before the text is drawn, and the drawing follows the conversion
    directly.  The turn returns the frame count raised by one and whether the low
    byte of the key is the code of q. *)
Theorem saved_frame_carries_overlay (s : settings) (t0 : Q) (i : image) (t : tick)
    (frame_count : Z) (w : world)
    (Hconv : convertible (image_frame i) = true)
    (Hcadence : save_every_n_frames s <> 0) :
  let text := fps_text t0 t (frame_count + 1) in
  let converted := convert_image_to_bgr i w in
  let out := process_frame s t0 i t frame_count w in
  exists r a,
    fst converted = Ok r /\ nth_error (heap (snd converted)) r = Some a /\
    nth_error (heap (snd out)) r = Some (overlay text a) /\
    fst out = Ok (frame_count + 1, Z.land (pressed t) 255 =? 113) /\
    (exists pre,
       forallb is_print pre = true /\
       log (snd out) =
         pre ++ WaitKey 1 :: Imshow (window_name s) r
             :: save_calls s t (frame_count + 1) r
             ++ PutText r text :: ImageRelease (image_id i) :: log (snd converted)) /\
    ((frame_count + 1) mod save_every_n_frames s = 0 ->
     In (Imwrite (path_join (output_dir s) (save_name t (frame_count + 1))) r)
        (log (snd out))).
Proof.
  cbv zeta.
  destruct (convert_facts i w) as (_ & _ & _ & _ & _ & R).
  cbv zeta in R. rewrite Hconv in R. destruct R as (r & a & Er & Hr).
  destruct (convert_image_to_bgr i w) as [res w1] eqn:Ec. cbn [fst snd] in *. subst res.
  rewrite (process_frame_shown s t0 i t frame_count w w1 r a Ec Hr).
  assert ((save_every_n_frames s =? 0) = false) as Hn0 by (apply Z.eqb_neq, Hcadence).
  exists r, a. split; [reflexivity|]. split; [exact Hr|].
  unfold shown. rewrite Hn0.
  assert (forall p, (frame_count + 1) mod save_every_n_frames s = 0 ->
            In (Imwrite (path_join (output_dir s) (save_name t (frame_count + 1))) r)
               (p ++ WaitKey 1 :: Imshow (window_name s) r
                  :: save_calls s t (frame_count + 1) r
                  ++ PutText r (fps_text t0 t (frame_count + 1))
                  :: ImageRelease (image_id i) :: log w1)) as Hin.
  { intros p Hdue. apply in_or_app. right. right. right. apply in_or_app. left.
    unfold save_calls. rewrite Hdue. cbn. auto. }
  destruct (Z.land (pressed t) 255 =? 113); cbn [fst snd heap log].
  - split; [eapply list_set_nth; exact Hr|]. split; [reflexivity|]. split.
    + exists [Printed [Txt "[INFO] 'q' pressed. Exiting loop."]]. split; reflexivity.
    + apply (Hin [Printed [Txt "[INFO] 'q' pressed. Exiting loop."]]).
  - split; [eapply list_set_nth; exact Hr|]. split; [reflexivity|]. split.
    + exists []. split; reflexivity.
    + apply (Hin []).
Qed.

Lemma saved_frame_carries_overlay_witness :
  exists r a,
    fst (convert_image_to_bgr (mk_image (Some "BGR8") (Some 3%N)) demo_world) = Ok r /\
    nth_error (heap (snd (convert_image_to_bgr (mk_image (Some "BGR8") (Some 3%N))
                            demo_world))) r = Some a /\
    nth_error (heap (snd (process_frame default_settings 0
                            (mk_image (Some "BGR8") (Some 3%N)) (tick_with (-1)) 9
                            demo_world))) r
    = Some (overlay (fps_text 0 (tick_with (-1)) (9 + 1)) a).
Proof.
  destruct (saved_frame_carries_overlay default_settings 0
              (mk_image (Some "BGR8") (Some 3%N)) (tick_with (-1)) 9 demo_world
              eq_refl ltac:(discriminate)) as (r & a & H1 & H2 & H3 & _).
  exists r, a. split; [exact H1|]. split; [exact H2 | exact H3].
Defined.

(* ================================================================== *)
(** ** The single-frame script *)

(** The fetch of the single-frame script leaves the camera and the SDK as
    they are and neither starts nor ends a stream. *)
Lemma single_fetch_frame (timeout : Z) (next : option fetch) (w : world) :
  let out := single_fetch timeout next w in
  cams (snd out) = cams w /\ sdk (snd out) = sdk w /\
  exists d, log (snd out) = d ++ log w /\
            count_event is_begin_acquisition d = 0%nat /\
            count_event is_end_acquisition d = 0%nat /\
            count_event is_closing d = 0%nat /\
            saved_paths d = [].
Proof.
  cbv zeta. unfold single_fetch.
  destruct (GetNextImage_cases timeout next w) as [(f & Hf & Hg)|(e & He & Hg)];
    unfold bind; rewrite Hg.
  - set (i := {| image_id := fetched w; image_frame := f |}).
    unfold IsIncomplete. cbn [image_frame i].
    destruct (incomplete f) eqn:Hinc.
    + unfold print, Release. run. split; [reflexivity|]. split; [reflexivity|].
      eexists [_; _; _; _]. split; [reflexivity|]. repeat split.
    + destruct (convert_facts i (handed_out timeout w)) as (C1 & _ & C3 & _ & _ & _).
      destruct (convert_calls i (handed_out timeout w)) as (d1 & L1 & K1).
      cbv zeta in *.
      assert (forall p, (forall e, is_conversion_call e = true -> p e = false) ->
                count_event p d1 = 0%nat) as Z1
        by (intros p Hp; apply (count_event_none p is_conversion_call); assumption).
      pose proof (Z1 is_begin_acquisition
                    ltac:(intros []; intros; try discriminate; reflexivity)) as B1.
      pose proof (Z1 is_end_acquisition
                    ltac:(intros []; intros; try discriminate; reflexivity)) as E1.
      pose proof (Z1 is_closing
                    ltac:(intros []; intros; try discriminate; reflexivity)) as G1.
      destruct (calm_lists d1 (conversion_calls_are_calm d1 K1)) as (_ & _ & P1).
      destruct (convert_image_to_bgr i (handed_out timeout w)) as [[r|e] w1];
        cbn [fst snd] in *; cbn [handed_out log cams sdk] in L1, C1, C3.
      * unfold Release. run. split; [exact C1|]. split; [exact C3|].
        exists ([ImageRelease (fetched w)] ++ d1
                ++ [ImageAcquired (fetched w); CallGetNextImage timeout]).
        split; [rewrite L1; cbn; rewrite <- app_assoc; reflexivity|].
        unfold saved_paths in *.
        rewrite !count_event_app, !flat_map_app, B1, E1, G1, P1. repeat split.
      * split; [exact C1|]. split; [exact C3|].
        exists (d1 ++ [ImageAcquired (fetched w); CallGetNextImage timeout]).
        split; [rewrite L1, <- app_assoc; reflexivity|].
        unfold saved_paths in *.
        rewrite !count_event_app, !flat_map_app, B1, E1, G1, P1. repeat split.
  - cbn [snd log set_log cams sdk]. split; [reflexivity|]. split; [reflexivity|].
    exists [CallGetNextImage timeout]. repeat split.
Qed.

Lemma single_fetch_result (timeout : Z) (next : option fetch) (w : world)
    (c : camera) (rest : list camera) :
  cams w = c :: rest -> streaming c = true ->
  returns_frame (fst (single_fetch timeout next w)) = frame_arrives next.
Proof.
  intros Hc Hs. unfold single_fetch, frame_arrives.
  destruct next as [[f| |]|].
  - unfold bind. rewrite (GetNextImage_arrives timeout f w c rest Hc Hs).
    unfold IsIncomplete. cbn [image_frame].
    destruct (incomplete f); [reflexivity|].
    destruct (convert_facts {| image_id := fetched w; image_frame := f |}
                (handed_out timeout w)) as (_ & _ & _ & _ & _ & R).
    cbv zeta in R. cbn [image_frame] in R.
    destruct (convert_image_to_bgr {| image_id := fetched w; image_frame := f |}
                (handed_out timeout w)) as [res w1].
    cbn [fst] in R. destruct (convertible f).
    + destruct R as (r & a & -> & _). reflexivity.
    + subst res. reflexivity.
  - open_world w Hc. unfold GetNextImage. run. rewrite Hs. reflexivity.
  - open_world w Hc. unfold GetNextImage. run. rewrite Hs. reflexivity.
  - open_world w Hc. unfold GetNextImage. run. rewrite Hs. reflexivity.
Qed.

(** [acquire_single_frame] on an idle camera with a working
    [EndAcquisition], in one piece. *)
Lemma acquire_single_frame_stream (timeout : Z) (next : option fetch) (w : world)
    (c : camera) (rest : list camera) :
  cams w = c :: rest -> streaming c = false ->
  fail_EndAcquisition (sdk w) = false ->
  let out := acquire_single_frame timeout next w in
  let mode := AcquisitionMode c in
  let single := lookup_entry "SingleFrame" (enum_entries mode) in
  sdk (snd out) = sdk w /\
  List.length (cams (snd out)) = List.length (cams w) /\
  streaming (camera_of (snd out)) = false /\
  initialized (camera_of (snd out)) = initialized c /\
  returns_frame (fst out) = single_starts c (sdk w) && frame_arrives next /\
  (enum_writable mode = false -> fst out = Ok None) /\
  (single_starts c (sdk w) = true ->
   hd_error (log (snd out)) = Some CameraEndAcquisition) /\
  exists d,
    log (snd out) = d ++ log w /\
    count_event is_end_acquisition d
      = (if single_starts c (sdk w) then 1 else 0)%nat /\
    count_event is_begin_acquisition d
      = (if enum_writable mode && IsReadable_entry single then 1 else 0)%nat /\
    count_event is_closing d = 0%nat /\
    (saved_paths d = []).
Proof.
  intros Hc Hoff Hend. cbv zeta. open_world w Hc. cbn [sdk] in Hend.
  unfold acquire_single_frame, GetEntryByName, entry_GetValue, enum_SetIntValue,
    BeginAcquisition, single_starts, IsReadable_entry, camera_of.
  run.
  destruct (enum_writable (AcquisitionMode c)); run.
  2: { rewrite Hoff. repeat split; try discriminate.
       eexists [_]. split; [reflexivity|]. repeat split. }
  destruct (lookup_entry "SingleFrame" (enum_entries (AcquisitionMode c))) as [e|]; run.
  2: { rewrite Hoff. repeat split; try discriminate.
       exists []. split; [reflexivity|]. repeat split. }
  destruct (entry_readable e); run.
  2: { rewrite Hoff. repeat split; try discriminate.
       exists []. split; [reflexivity|]. repeat split. }
  destruct (fail_BeginAcquisition sdk0) eqn:Hb; run.
  { rewrite Hoff. repeat split; try discriminate.
    eexists [_; _]. split; [reflexivity|]. repeat split. }
  rewrite Hoff. run.
  match goal with
  | |- context [single_fetch timeout next ?W] =>
      destruct (single_fetch_frame timeout next W) as (C & S & d & L & B & E & G & P);
      pose proof (single_fetch_result timeout next W _ rest eq_refl eq_refl) as Rr;
      cbv zeta in *;
      destruct (single_fetch timeout next W) as [res w1]
  end.
  destruct w1 as [cs1 hp1 lg1 ds1 ft1 fl1]. cbn [fst snd cams sdk log] in C, S, L, Rr.
  subst cs1 fl1 lg1.
  unfold EndAcquisition. run. rewrite Hend. run.
  split; [reflexivity|]. split; [reflexivity|]. split; [reflexivity|].
  split; [reflexivity|]. split; [exact Rr|].
  split; [discriminate|]. split; [reflexivity|].
  exists ([CameraEndAcquisition] ++ d
          ++ [CameraBeginAcquisition;
              NodeSet "AcquisitionMode" (VInt (entry_value e))]).
  split; [cbn; rewrite <- app_assoc; reflexivity|].
  unfold saved_paths in *.
  rewrite !count_event_app, !flat_map_app, B, E, G, P. repeat split.
Qed.

(** X14.  [acquire_single_frame], called on an idle camera whose
    [EndAcquisition] works, leaves the camera idle again on every path:
    whether the fetch returns a frame, reports an incomplete image, times
    out, is interrupted, or the conversion raises.  [EndAcquisition] is
    called once and last if the stream was started, that is if the mode
    is writable, its SingleFrame entry is readable and [BeginAcquisition]
    works, and it is not called at all otherwise.  With the mode not
    writable the function returns None.  The function itself writes no
    file. *)
Theorem single_frame_stops_the_stream (timeout : Z) (next : option fetch)
    (w : world) (c : camera) (rest : list camera)
    (Hcam : cams w = c :: rest) (Hidle : streaming c = false)
    (Hend : fail_EndAcquisition (sdk w) = false) :
  let out := acquire_single_frame timeout next w in
  streaming (camera_of (snd out)) = false
  /\ (enum_writable (AcquisitionMode c) = false -> fst out = Ok None)
  /\ (single_starts c (sdk w) = true ->
      hd_error (log (snd out)) = Some CameraEndAcquisition)
  /\ exists d,
       log (snd out) = d ++ log w /\
       count_event is_end_acquisition d
         = (if single_starts c (sdk w) then 1 else 0)%nat /\
       count_event is_begin_acquisition d
         = (if enum_writable (AcquisitionMode c)
               && IsReadable_entry
                    (lookup_entry "SingleFrame" (enum_entries (AcquisitionMode c)))
            then 1 else 0)%nat /\
       saved_paths d = [].
Proof.
  cbv zeta.
  destruct (acquire_single_frame_stream timeout next w c rest Hcam Hidle Hend)
    as (_ & _ & St & _ & _ & Hn & Hl & d & L & E & B & _ & P).
  split; [exact St|]. split; [exact Hn|]. split; [exact Hl|].
  exists d. auto.
Qed.

Lemma single_frame_stops_the_stream_witness :
  streaming (camera_of (snd (acquire_single_frame 1000 (Some TimesOut) demo_world)))
  = false.
Proof.
  exact (proj1 (single_frame_stops_the_stream 1000 (Some TimesOut) demo_world
                  demo_camera [] eq_refl eq_refl eq_refl)).
Defined.

(* ================================================================== *)
(** ** The single-frame script as a whole *)

Lemma bind_runs {A B : Type} (m : M A) (k : A -> M B) (w w1 : world) (a : A) :
  m w = (Ok a, w1) -> bind m k w = k a w1.
Proof. intros H. unfold bind. rewrite H. reflexivity. Qed.

Lemma bind_raises {A B : Type} (m : M A) (k : A -> M B) (w w1 : world) (e : exn) :
  m w = (Raise e, w1) -> bind m k w = (Raise e, w1).
Proof. intros H. unfold bind. rewrite H. reflexivity. Qed.

Lemma Init_runs (w : world) (c : camera) (rest : list camera) :
  cams w = c :: rest -> fail_Init (sdk w) = false ->
  Init w = (Ok tt, set_cams (set_initialized true c :: rest)
                     (set_log (CameraInit :: log w) w)).
Proof.
  intros Hc Hf. open_world w Hc. cbn [sdk] in Hf. unfold Init. run. rewrite Hf.
  reflexivity.
Qed.

Lemma closing_runs (w : world) (c : camera) (rest : list camera) :
  cams w = c :: rest -> fail_DeInit (sdk w) = false ->
  fail_Clear (sdk w) = false -> fail_ReleaseInstance (sdk w) = false ->
  (DeInit ;; Clear ;; ReleaseInstance) w =
    (Ok tt,
     set_cams (set_initialized false c :: rest)
       (set_log (SystemReleaseInstance :: CameraListClear :: CameraDeInit :: log w) w)).
Proof.
  intros Hc H1 H2 H3. open_world w Hc. cbn [sdk] in H1, H2, H3.
  unfold DeInit, Clear, ReleaseInstance. run. rewrite H1. run. rewrite H2. run.
  rewrite H3. reflexivity.
Qed.

(** What [set_pixel_format] leaves behind: a camera that differs in its
    pixel format at most, and a log grown by prints and node writes. *)
Lemma set_pixel_format_camera (w : world) (c : camera) (rest : list camera) :
  cams w = c :: rest ->
  exists w1 c1 d,
    set_pixel_format w = (Ok tt, w1) /\ cams w1 = c1 :: rest /\
    AcquisitionMode c1 = AcquisitionMode c /\ streaming c1 = streaming c /\
    initialized c1 = initialized c /\
    sdk w1 = sdk w /\ log w1 = d ++ log w /\ forallb is_setup_call d = true.
Proof.
  intros Hc. rewrite (set_pixel_format_runs w c rest Hc).
  destruct (enum_writable (PixelFormat c)).
  - destruct (first_readable _ _) as [name|].
    + destruct (lookup_entry name _) as [e|].
      * eexists; eexists; eexists [_; _]. split; [reflexivity|]. cbn. auto 10.
      * eexists; exists c; eexists [_]. split; [reflexivity|]. cbn. auto 10.
    + eexists; exists c; eexists [_]. split; [reflexivity|]. cbn. auto 10.
  - eexists; exists c; eexists [_]. split; [reflexivity|]. cbn. auto 10.
Qed.

Lemma setup_calls_count (p : event -> bool) (d : list event) :
  (forall e, is_setup_call e = true -> p e = false) ->
  forallb is_setup_call d = true -> count_event p d = 0%nat.
Proof. intros Hp. apply (count_event_none p is_setup_call), Hp. Qed.

Lemma setup_calls_save_nothing (d : list event) :
  forallb is_setup_call d = true -> saved_paths d = [].
Proof.
  induction d as [|e d IH]; [reflexivity|]. cbn [forallb]. intros H.
  apply andb_true_iff in H. destruct H as [He Hd].
  unfold saved_paths in *. cbn [flat_map]. rewrite (IH Hd).
  destruct e; try discriminate; reflexivity.
Qed.

(** X15.  [lab2_single_frame] on an idle camera, with every SDK call but
    possibly [BeginAcquisition] working: whatever the device delivers, and
    whether the body returns or raises, the last three calls are
    [DeInit], [Clear] and [ReleaseInstance] in this order, none of them is
    made earlier, and the camera is left neither initialized nor
    streaming.  One file is written, under the path given, when the stream
    could be started and the device delivered a complete image that OpenCV
    accepts, and then the script returns normally; in every other case no
    file is written. *)
Theorem single_frame_script_closes_the_device (output_path : string)
    (next : option fetch) (w : world) (c : camera) (rest : list camera)
    (Hcam : cams w = c :: rest) (Hidle : streaming c = false)
    (Hinit : fail_Init (sdk w) = false)
    (Hend : fail_EndAcquisition (sdk w) = false)
    (Hdeinit : fail_DeInit (sdk w) = false)
    (Hclear : fail_Clear (sdk w) = false)
    (Hrelease : fail_ReleaseInstance (sdk w) = false) :
  let out := lab2_single_frame output_path next w in
  let saved := single_starts c (sdk w) && frame_arrives next in
  (exists d,
     log (snd out)
       = [SystemReleaseInstance; CameraListClear; CameraDeInit] ++ d ++ log w /\
     count_event is_closing d = 0%nat /\
     saved_paths d = if saved then [output_path] else [])
  /\ initialized (camera_of (snd out)) = false
  /\ streaming (camera_of (snd out)) = false
  /\ (saved = true -> fst out = Ok tt).
Proof.
  cbv zeta. unfold lab2_single_frame.
  rewrite (bind_runs System_GetInstance _ w _ tt eq_refl).
  rewrite (bind_runs GetCameras _ _ _ tt eq_refl).
  rewrite (bind_runs GetSize _ _ _ _ eq_refl).
  cbn [cams set_log]. rewrite Hcam. cbn [List.length Nat.eqb].
  set (w0 := set_log (SystemGetCameras :: log (set_log (SystemGetInstance :: log w) w))
               (set_log (SystemGetInstance :: log w) w)).
  assert (cams w0 = c :: rest) as Hc0 by exact Hcam.
  assert (sdk w0 = sdk w) as Hs0 by reflexivity.
  assert (log w0 = [SystemGetCameras; SystemGetInstance] ++ log w) as Hl0
    by reflexivity.
  clearbody w0.
  unfold try_finally.
  (* Init and the two reports around the selection of the format *)
  rewrite (bind_runs Init _ w0 _ tt
             (Init_runs w0 c rest Hc0 ltac:(rewrite Hs0; exact Hinit))).
  rewrite (bind_runs (print _) _ _ _ tt eq_refl).
  erewrite (bind_runs debug_pixel_format)
    by (apply (debug_pixel_format_runs _ (set_initialized true c) rest); reflexivity).
  match goal with
  | |- context [bind set_pixel_format _ ?W] =>
      destruct (set_pixel_format_camera W (set_initialized true c) rest eq_refl)
        as (w1 & c1 & d1 & E1 & Hc1 & M1 & St1 & I1 & S1 & L1 & K1);
      rewrite (bind_runs set_pixel_format _ W w1 tt E1)
  end.
  cbn [sdk log set_log set_cams] in S1, L1.
  rewrite (bind_runs (print _) _ _ _ tt eq_refl).
  erewrite (bind_runs debug_pixel_format)
    by (apply (debug_pixel_format_runs _ c1 rest); exact Hc1).
  match goal with
  | |- context [bind (acquire_single_frame 1000 next) _ ?W] =>
      set (w3 := W)
  end.
  assert (cams w3 = c1 :: rest) as Hc3 by exact Hc1.
  assert (sdk w3 = sdk w) as Hs3 by (subst w3; cbn [sdk set_log]; congruence).
  assert (forall p, (forall e, is_setup_call e = true -> p e = false) ->
            count_event p d1 = 0%nat) as Z0
    by (intros p Hp; apply (setup_calls_count p); assumption).
  pose proof (Z0 is_closing ltac:(intros []; intros; try discriminate; reflexivity))
    as G1.
  pose proof (setup_calls_save_nothing d1 K1) as P1.
  assert (exists d3, log w3 = d3 ++ log w /\ count_event is_closing d3 = 0%nat /\
                     saved_paths d3 = []) as (d3 & L3 & G3 & P3).
  { subst w3. cbn [log set_log]. rewrite L1, Hl0.
    eexists ([_; _] ++ d1 ++ [_; _; _; _; _]).
    split; [cbn [app]; rewrite <- app_assoc; reflexivity|].
    unfold saved_paths in *. rewrite !count_event_app, !flat_map_app, G1, P1.
    split; reflexivity. }
  clearbody w3.
  assert (streaming c1 = false) as Hoff1 by (rewrite St1; exact Hidle).
  assert (single_starts c1 (sdk w3) = single_starts c (sdk w)) as Hss
    by (unfold single_starts; rewrite M1, Hs3; reflexivity).
  destruct (acquire_single_frame_stream 1000 next w3 c1 rest Hc3 Hoff1
              ltac:(rewrite Hs3; exact Hend))
    as (S4 & Len4 & St4 & I4 & R4 & _ & _ & d4 & L4 & _ & _ & G4 & P4).
  cbv zeta in *. rewrite Hss in R4.
  destruct (acquire_single_frame 1000 next w3) as [res w4] eqn:Eacq.
  cbn [fst snd] in *.
  assert (exists c4 rest4, cams w4 = c4 :: rest4) as (c4 & rest4 & Hc4).
  { destruct (cams w4) as [|c4 rest4]; [rewrite Hc3 in Len4; discriminate|].
    eexists; eexists; reflexivity. }
  unfold camera_of in St4, I4. rewrite Hc4 in St4, I4. cbn [hd] in St4, I4.
  assert (forall (r : result unit) (w5 : world) (d5 : list event),
            cams w5 = cams w4 -> sdk w5 = sdk w4 -> log w5 = d5 ++ log w4 ->
            count_event is_closing d5 = 0%nat ->
            saved_paths d5
              = (if single_starts c (sdk w) && frame_arrives next
                 then [output_path] else []) ->
            (single_starts c (sdk w) && frame_arrives next = true -> r = Ok tt) ->
            let out := try_finally (fun _ => (r, w5))
                         (DeInit ;; Clear ;; ReleaseInstance) w5 in
            (exists d,
               log (snd out)
                 = [SystemReleaseInstance; CameraListClear; CameraDeInit] ++ d ++ log w /\
               count_event is_closing d = 0%nat /\
               saved_paths d = if single_starts c (sdk w) && frame_arrives next
                               then [output_path] else [])
            /\ initialized (camera_of (snd out)) = false
            /\ streaming (camera_of (snd out)) = false
            /\ (single_starts c (sdk w) && frame_arrives next = true -> fst out = Ok tt))
    as Fin.
  { intros r w5 d5 C5 S5 L5 G5 P5 Hr. cbv zeta. unfold try_finally.
    rewrite (closing_runs w5 c4 rest4 ltac:(congruence)
               ltac:(rewrite S5, S4, Hs3; exact Hdeinit)
               ltac:(rewrite S5, S4, Hs3; exact Hclear)
               ltac:(rewrite S5, S4, Hs3; exact Hrelease)).
    cbn [fst snd log set_log set_cams cams]. unfold camera_of. cbn [cams hd].
    split; [|split; [reflexivity|split; [exact St4|exact Hr]]].
    exists (d5 ++ d4 ++ d3).
    split; [rewrite L5, L4, L3; cbn [app]; rewrite <- !app_assoc; reflexivity|].
    unfold saved_paths in *.
    rewrite !count_event_app, !flat_map_app, G5, G4, G3, P5, P4, P3.
    rewrite !app_nil_r. split; reflexivity. }
  destruct res as [[r|]|e]; cbn [returns_frame] in R4; rewrite <- R4 in *.
  - (* a frame came back: it is written *)
    rewrite (bind_runs _ _ _ _ _ Eacq).
    rewrite (bind_runs (cv2_imwrite output_path r) _ w4 _ tt eq_refl).
    apply (Fin (Ok tt)
             (set_log (Printed [Txt "[INFO] Saved single frame to: "; Str output_path]
                       :: log (set_log (Imwrite output_path r :: log w4) w4))
                (set_log (Imwrite output_path r :: log w4) w4))
             [Printed [Txt "[INFO] Saved single frame to: "; Str output_path];
              Imwrite output_path r]); reflexivity.
  - (* None came back *)
    rewrite (bind_runs _ _ _ _ _ Eacq).
    apply (Fin (Ok tt)
             (set_log (Printed [Txt "[ERROR] Failed to acquire single frame."]
                       :: log w4) w4)
             [Printed [Txt "[ERROR] Failed to acquire single frame."]]);
      try reflexivity.
  - (* the acquisition raised *)
    rewrite (bind_raises _ _ _ _ _ Eacq).
    apply (Fin (Raise e) w4 []); try reflexivity. discriminate.
Qed.

(** A run on a BGR8 frame, and a run on a single-plane BayerGB8 frame,
    which OpenCV converts as C3 describes: both end normally with the file
    written. *)
Lemma single_frame_script_closes_the_device_witness :
  let next := Some (Arrives (mk_frame false (Some "BGR8") (Some 3%N))) in
  let gb := Some (Arrives (mk_frame false (Some "BayerGB8") None)) in
  (fst (lab2_single_frame "single_frame.png" next demo_world) = Ok tt
   /\ initialized (camera_of (snd (lab2_single_frame "single_frame.png" next
                                     demo_world)))
      = false)
  /\ (fst (lab2_single_frame "single_frame.png" gb demo_world) = Ok tt
      /\ saved_paths (log (snd (lab2_single_frame "single_frame.png" gb demo_world)))
         = ["single_frame.png"%string]
      /\ released (log (snd (lab2_single_frame "single_frame.png" gb demo_world)))
         = [0%nat]).
Proof.
  intros next gb.
  pose proof (single_frame_script_closes_the_device "single_frame.png" next
                demo_world demo_camera [] eq_refl eq_refl eq_refl eq_refl eq_refl
                eq_refl eq_refl) as H.
  pose proof (single_frame_script_closes_the_device "single_frame.png" gb
                demo_world demo_camera [] eq_refl eq_refl eq_refl eq_refl eq_refl
                eq_refl eq_refl) as G.
  split; [split|split; [|split]].
  - exact (proj2 (proj2 (proj2 H)) eq_refl).
  - exact (proj1 (proj2 H)).
  - exact (proj2 (proj2 (proj2 G)) eq_refl).
  - vm_compute. reflexivity.
  - vm_compute. reflexivity.
Defined.

(* ================================================================== *)
(** ** The device-information script *)

(** X16.  [lab1_camera_info] with at least one camera and an SDK whose
    closing calls work: it reports the number of cameras, and whether
    [Init] works or raises, [DeInit], [Clear] and [ReleaseInstance] are
    the last three calls, in this order and made once each.  When [Init]
    works, the three lines of the report are printed between the two, with
    the word Unknown for every node that is not readable, and the script
    returns normally; when [Init] raises, nothing of the report is printed
    and the exception is passed on after the closing calls. *)
Theorem camera_info_closes_the_device (tl : tl_device) (w : world) (c : camera)
    (rest : list camera)
    (Hcam : cams w = c :: rest)
    (Hdeinit : fail_DeInit (sdk w) = false)
    (Hclear : fail_Clear (sdk w) = false)
    (Hrelease : fail_ReleaseInstance (sdk w) = false) :
  let out := lab1_camera_info tl w in
  let counted :=
    Printed [Txt "[INFO] Number of FLIR cameras detected: ";
             Int (Z.of_nat (S (List.length rest)))] in
  let report :=
    [Printed [Txt "=== Camera Information ==="];
     Printed [Txt "  Vendor : "; Str (value_or_unknown (DeviceVendorName tl))];
     Printed [Txt "  Model  : "; Str (value_or_unknown (DeviceModelName tl))];
     Printed [Txt "  Serial : "; Str (value_or_unknown (DeviceSerialNumber tl))]] in
  history (snd out) =
    history w
    ++ [SystemGetInstance; SystemGetCameras; counted; CameraInit]
    ++ (if fail_Init (sdk w) then [] else report)
    ++ closing_calls
  /\ fst out = (if fail_Init (sdk w) then Raise SpinnakerException else Ok tt)
  /\ initialized (camera_of (snd out)) = false.
Proof.
  cbv zeta. open_world w Hcam. cbn [sdk] in Hdeinit, Hclear, Hrelease.
  unfold lab1_camera_info, print_camera_info, System_GetInstance, GetCameras, GetSize,
    Init, DeInit, Clear, ReleaseInstance, history, camera_of, closing_calls.
  run. cbn [List.length Nat.eqb]. run.
  destruct (fail_Init sdk0); run; rewrite Hdeinit; run; rewrite Hclear; run;
    rewrite Hrelease; run.
  - split; [|split; reflexivity].
    rewrite <- !app_assoc. reflexivity.
  - split; [|split; reflexivity].
    rewrite <- !app_assoc. reflexivity.
Qed.

Lemma camera_info_closes_the_device_witness :
  fst (lab1_camera_info demo_tl (boot [demo_camera] [] init_fails))
  = Raise SpinnakerException.
Proof.
  exact (proj1 (proj2 (camera_info_closes_the_device demo_tl
                         (boot [demo_camera] [] init_fails) demo_camera []
                         eq_refl eq_refl eq_refl eq_refl))).
Defined.

(* ================================================================== *)
(** ** The V4L2 script: which device is opened *)

Lemma leb_trans (a : string) :
  forall b c, String.leb a b = true -> String.leb b c = true -> String.leb a c = true.
Proof.
  unfold String.leb.
  induction a as [|x a IH]; intros [|y b] [|z c]; cbn [String.compare];
    try (intros; reflexivity); try (intros; discriminate).
  unfold Ascii.compare.
  destruct (N.compare_spec (N_of_ascii x) (N_of_ascii y));
    destruct (N.compare_spec (N_of_ascii y) (N_of_ascii z));
    destruct (N.compare_spec (N_of_ascii x) (N_of_ascii z));
    try (intros; reflexivity); try (intros; discriminate); try lia.
  apply IH.
Qed.

Lemma insert_sorted_perm (x : string) (l : list string) :
  Permutation (insert_sorted x l) (x :: l).
Proof.
  induction l as [|y l IH]; cbn [insert_sorted]; [reflexivity|].
  destruct (String.leb x y); [reflexivity|].
  rewrite IH. apply perm_swap.
Qed.

Lemma sorted_perm (l : list string) : Permutation (sorted l) l.
Proof.
  induction l as [|x l IH]; [reflexivity|].
  cbn [sorted fold_right]. fold (sorted l). rewrite insert_sorted_perm, IH. reflexivity.
Qed.

Lemma insert_sorted_ordered (x : string) (l : list string) :
  StronglySorted (fun a b => String.leb a b = true) l ->
  StronglySorted (fun a b => String.leb a b = true) (insert_sorted x l).
Proof.
  induction 1 as [|y l Hs IH Hy]; cbn [insert_sorted].
  - constructor; constructor.
  - destruct (String.leb x y) eqn:E.
    + constructor; [constructor; assumption|].
      constructor; [exact E|].
      rewrite Forall_forall in *. intros z Hz. apply (leb_trans x y z E), Hy, Hz.
    + constructor; [exact IH|].
      assert (String.leb y x = true) as Hyx
        by (destruct (String.leb_total x y); congruence).
      rewrite Forall_forall in *. intros z Hz.
      apply (Permutation_in _ (insert_sorted_perm x l)) in Hz.
      destruct Hz as [<-|Hz]; [exact Hyx | apply Hy, Hz].
Qed.

Lemma sorted_ordered (l : list string) :
  StronglySorted (fun a b => String.leb a b = true) (sorted l).
Proof.
  induction l as [|x l IH]; [constructor|].
  cbn [sorted fold_right]. apply insert_sorted_ordered, IH.
Qed.

Lemma leb_refl (a : string) : String.leb a a = true.
Proof. destruct (String.leb_total a a); assumption. Qed.

(** X17.  [lab1_gstreamer_info] looks at the entries of /dev whose names
    start with video, each as often as it is listed, in the order of their
    characters.  With none it prints two lines and returns, opening
    nothing.  Otherwise the first line states how many there are, and the
    one device it passes to [cv2.VideoCapture] is the least of them in
    that order, which is the order of strings and not of numbers: video10
    comes before video2.  The capture is released if and only if it was
    opened, and the windows are destroyed last, also when the constructor
    raises. *)
Theorem gstreamer_opens_least_device (os : v4l2) :
  let names := filter (String.prefix "video") (listdir_dev os) in
  let calls := snd (lab1_gstreamer_info os) in
  Permutation (video_devices os) names
  /\ StronglySorted (fun a b => String.leb a b = true) (video_devices os)
  /\ (names = [] ->
      lab1_gstreamer_info os =
        (Ok tt, [Said [Txt "[INFO] Number of V4L2 video devices detected: "; Int 0];
                 Said [Txt "[INFO] No /dev/video* devices found."]]))
  /\ (names <> [] ->
      exists first others,
        video_devices os = first :: others /\
        In first (listdir_dev os) /\ String.prefix "video" first = true /\
        (forall y, In y (listdir_dev os) -> String.prefix "video" y = true ->
                   String.leb first y = true) /\
        hd_error calls =
          Some (Said [Txt "[INFO] Number of V4L2 video devices detected: ";
                      Int (Z.of_nat (List.length names))]) /\
        In (CaptureCreated ("/dev/" ++ first)%string) calls /\
        (forall p, In (CaptureCreated p) calls -> p = ("/dev/" ++ first)%string) /\
        (In CaptureReleased calls <->
         exists shape, VideoCapture os ("/dev/" ++ first)%string = Opened shape) /\
        last calls (Said []) = WindowsDestroyed)
  /\ video_devices demo_dev = ["video10"; "video2"; "videodev"]%string.
Proof.
  cbv zeta.
  pose proof (sorted_perm (filter (String.prefix "video") (listdir_dev os))) as Hp.
  pose proof (sorted_ordered (filter (String.prefix "video") (listdir_dev os))) as Hs.
  fold (video_devices os) in Hp, Hs.
  split; [exact Hp|]. split; [exact Hs|]. split; [|split; [|reflexivity]].
  - intros Hnil. rewrite Hnil in Hp. apply Permutation_sym, Permutation_nil in Hp.
    unfold lab1_gstreamer_info. rewrite Hp. reflexivity.
  - intros Hsome.
    destruct (video_devices os) as [|first others] eqn:Hvd.
    { apply Permutation_nil in Hp. congruence. }
    exists first, others. split; [reflexivity|].
    assert (In first (filter (String.prefix "video") (listdir_dev os))) as Hin
      by (apply (Permutation_in _ Hp); left; reflexivity).
    apply filter_In in Hin. destruct Hin as [Hin Hpre].
    split; [exact Hin|]. split; [exact Hpre|]. split.
    { intros y Hy Hyp.
      assert (In y (first :: others)) as Hy'
        by (apply (Permutation_in _ (Permutation_sym Hp)), filter_In; auto).
      apply StronglySorted_inv in Hs. destruct Hs as [_ Hall].
      rewrite Forall_forall in Hall.
      destruct Hy' as [<-|Hy']; [apply leb_refl | apply Hall, Hy']. }
    unfold lab1_gstreamer_info. rewrite Hvd.
    rewrite <- (Permutation_length Hp).
    unfold print_gstreamer_info.
    destruct (realpath os ("/dev/" ++ first)%string);
      destruct (VideoCapture os ("/dev/" ++ first)%string) as [| |[shape|]];
      cbn [snd app hd_error In last];
      (split; [reflexivity|]);
      (split; [auto 10|]);
      (split; [intros p H;
               repeat (destruct H as [H|H]; try discriminate;
                       try (inversion H; reflexivity));
               destruct H|]);
      (split; [|reflexivity]);
      (split; [intros H;
               repeat (destruct H as [H|H]; try discriminate);
               try (destruct H); eexists; reflexivity
              | intros [sh H]; try discriminate; auto 12]).
Qed.

(* ================================================================== *)
(** ** The camera after the capture script *)

(** The [finally] block on a camera, when [DeInit], [Clear] and
    [ReleaseInstance] work. *)
Lemma cleanup_camera (w : world) (c : camera) (rest : list camera) :
  cams w = c :: rest ->
  fail_DeInit (sdk w) = false -> fail_Clear (sdk w) = false ->
  fail_ReleaseInstance (sdk w) = false ->
  exists w' c',
    cleanup w = (Ok tt, w') /\ cams w' = c' :: rest /\
    initialized c' = false /\
    streaming c' = (if fail_EndAcquisition (sdk w) then streaming c else false) /\
    dirs w' = dirs w /\ saved_paths (log w') = saved_paths (log w).
Proof.
  intros Hc H1 H2 H3. open_world w Hc. cbn [sdk] in *.
  unfold cleanup, EndAcquisition, DeInit, Clear, ReleaseInstance,
    cv2_destroyAllWindows.
  run. destruct (fail_EndAcquisition sdk0); run.
  - rewrite H1. run. rewrite H2. run. rewrite H3. run.
    eexists; eexists. split; [reflexivity|]. cbn. auto.
  - destruct (streaming c) eqn:Hs; run; rewrite H1; run; rewrite H2; run;
      rewrite H3; run; eexists; eexists; (split; [reflexivity|]); cbn; auto.
Qed.

(** X18.  Whatever happens in the [try] block of
    [realtime_view_and_save], when a camera was found and [DeInit],
    [Clear] and [ReleaseInstance] work, the script leaves the camera
    de-initialized; and it leaves it without a running stream provided
    [EndAcquisition] works too.  The script passes on what the [try]
    block returned or raised, the [finally] block adding no exception of
    its own. *)
Theorem realtime_leaves_camera_closed (s : settings) (t0 : Q) (feed : list delivery)
    (w : world) (c : camera) (rest : list camera)
    (Hcam : cams w = c :: rest)
    (Hdeinit : fail_DeInit (sdk w) = false)
    (Hclear : fail_Clear (sdk w) = false)
    (Hrelease : fail_ReleaseInstance (sdk w) = false) :
  let out := realtime_view_and_save s t0 feed w in
  initialized (camera_of (snd out)) = false
  /\ (fail_EndAcquisition (sdk w) = false -> streaming (camera_of (snd out)) = false)
  /\ List.length (cams (snd out)) = List.length (cams w)
  /\ exists w0,
       fst out = fst (capture_session s t0 feed w0) /\
       cams w0 = cams w /\ sdk w0 = sdk w /\ heap w0 = heap w /\
       log w0 = SystemGetCameras :: SystemGetInstance
                :: Makedirs (output_dir s) :: log w.
Proof.
  cbv zeta.
  assert (exists w0,
            realtime_view_and_save s t0 feed w =
              try_finally (capture_session s t0 feed) cleanup w0 /\
            cams w0 = cams w /\ sdk w0 = sdk w /\ heap w0 = heap w /\
            log w0 = SystemGetCameras :: SystemGetInstance
                     :: Makedirs (output_dir s) :: log w)
    as (w0 & E & C0 & S0 & H0 & L0).
  { open_world w Hcam.
    cbv beta iota zeta delta
      [realtime_view_and_save os_makedirs System_GetInstance GetCameras GetSize
       bind emit set_log set_dirs cams heap log dirs fetched sdk].
    destruct (existsb (String.eqb (output_dir s)) dirs0);
      eexists; (split; [reflexivity|]); cbn; auto. }
  rewrite E. unfold try_finally.
  pose proof (quiet_capture_session (fun _ => true) (fun _ _ => eq_refl) s t0 feed w0)
    as (_ & Hs & Hn & _).
  destruct (capture_session s t0 feed w0) as [r w1] eqn:Eb. cbn [fst snd] in *.
  destruct (cams w1) as [|c1 rest1] eqn:Hc1;
    [rewrite C0, Hcam in Hn; discriminate|].
  destruct (cleanup_camera w1 c1 rest1 Hc1) as (w2 & c2 & E2 & Hc2 & I2 & St2 & _);
    try (rewrite Hs, S0; assumption).
  rewrite E2. cbn [fst snd]. unfold camera_of. rewrite Hc2. cbn [hd].
  split; [exact I2|]. split.
  - intros He. rewrite St2, Hs, S0, He. reflexivity.
  - split; [cbn [List.length] in *; congruence|].
    exists w0. rewrite Eb. auto.
Qed.

Lemma realtime_leaves_camera_closed_witness :
  initialized (camera_of (snd (realtime_view_and_save default_settings 0 demo_feed
                                 demo_world))) = false.
Proof.
  exact (proj1 (realtime_leaves_camera_closed default_settings 0 demo_feed
                  demo_world demo_camera [] eq_refl eq_refl eq_refl eq_refl)).
Defined.

(* ================================================================== *)
(** ** A whole run on a device in working order *)

Lemma configure_setup_calls (width height : Z) (fps : Q) :
  keeps (quiet is_setup_call) (configure_camera_resolution_fps width height fps).
Proof.
  unfold configure_camera_resolution_fps, configure_resolution,
    configure_offsets, configure_frame_rate, report_applied,
    int_SetValue, bool_SetValue, float_SetValue, print.
  repeat first [ apply quiet_emit; reflexivity | quiet_step ].
Qed.

Lemma start_continuous_mode_runs (w : world) (c : camera) (rest : list camera) :
  cams w = c :: rest ->
  enum_writable (AcquisitionMode c) = true ->
  IsReadable_entry (lookup_entry "Continuous" (enum_entries (AcquisitionMode c)))
    = true ->
  streaming c = false -> fail_BeginAcquisition (sdk w) = false ->
  exists w' c',
    start_continuous_mode w = (Ok tt, w') /\ cams w' = c' :: rest /\
    streaming c' = true /\ sdk w' = sdk w /\ dirs w' = dirs w /\
    saved_paths (log w') = saved_paths (log w).
Proof.
  intros Hc Hw Hr Hs Hf. open_world w Hc. cbn [sdk] in Hf.
  unfold start_continuous_mode, GetEntryByName, entry_GetValue, enum_SetIntValue,
    BeginAcquisition, IsReadable_entry in *.
  run. rewrite Hw. run.
  destruct (lookup_entry "Continuous" (enum_entries (AcquisitionMode c))) as [e|];
    [|discriminate].
  rewrite Hr. run. rewrite Hf. run. rewrite Hs. run.
  eexists; eexists. split; [reflexivity|]. cbn. auto.
Qed.

(** On a device in working order the [try] block gets to its loop with
    the stream running and no file written. *)
Lemma capture_session_reaches_loop (s : settings) (t0 : Q) (feed : list delivery)
    (w : world) (c : camera) (rest : list camera) :
  cams w = c :: rest -> streaming c = false ->
  fail_Init (sdk w) = false -> fail_BeginAcquisition (sdk w) = false ->
  enum_writable (AcquisitionMode c) = true ->
  IsReadable_entry (lookup_entry "Continuous" (enum_entries (AcquisitionMode c)))
    = true ->
  exists w5 c5,
    capture_session s t0 feed w = capture_loop s t0 feed 0 w5 /\
    cams w5 = c5 :: rest /\ streaming c5 = true /\
    sdk w5 = sdk w /\ dirs w5 = dirs w /\
    saved_paths (log w5) = saved_paths (log w).
Proof.
  intros Hc Hidle Hinit Hbegin Hmode Hcont. unfold capture_session.
  rewrite (bind_runs Init _ w _ tt (Init_runs w c rest Hc Hinit)).
  rewrite (bind_runs (print _) _ _ _ tt eq_refl).
  erewrite (bind_runs debug_pixel_format)
    by (apply (debug_pixel_format_runs _ (set_initialized true c) rest); reflexivity).
  match goal with
  | |- context [bind set_pixel_format _ ?W] =>
      destruct (set_pixel_format_camera W (set_initialized true c) rest eq_refl)
        as (w1 & c1 & d1 & E1 & Hc1 & M1 & St1 & I1 & S1 & L1 & K1);
      rewrite (bind_runs set_pixel_format _ W w1 tt E1);
      assert (dirs w1 = dirs w) as D1
        by (pose proof (quiet_set_pixel_format (fun _ => true) (fun _ _ => eq_refl) W)
              as (Hd & _); rewrite E1 in Hd; exact Hd)
  end.
  cbn [sdk log set_log set_cams] in S1, L1.
  assert (saved_paths (log w1) = saved_paths (log w)) as P1.
  { rewrite L1. unfold saved_paths. rewrite flat_map_app.
    pose proof (setup_calls_save_nothing d1 K1) as Z1. unfold saved_paths in Z1.
    rewrite Z1. reflexivity. }
  rewrite (bind_runs (print _) _ _ _ tt eq_refl).
  erewrite (bind_runs debug_pixel_format)
    by (apply (debug_pixel_format_runs _ c1 rest); exact Hc1).
  match goal with
  | |- context [bind (configure_camera_resolution_fps ?a ?b ?f) _ ?W] =>
      destruct (configure_camera_result a b f W c1 rest Hc1)
        as (w2 & c2 & E2 & Hc2 & _ & D2 & _ & S2 & _ & _ & _ & M2 & _ & St2 & _);
      pose proof (configure_setup_calls a b f W) as (_ & _ & _ & d2 & L2 & K2);
      rewrite (bind_runs _ _ W w2 tt E2);
      rewrite E2 in L2
  end.
  cbn [snd sdk dirs log set_log] in S2, D2, L2.
  assert (saved_paths (log w2) = saved_paths (log w)) as P2.
  { rewrite L2. unfold saved_paths in *. rewrite flat_map_app.
    pose proof (setup_calls_save_nothing d2 K2) as Z2. unfold saved_paths in Z2.
    rewrite Z2. cbn [flat_map app]. exact P1. }
  cbn [AcquisitionMode streaming set_initialized] in M1, St1.
  destruct (start_continuous_mode_runs w2 c2 rest Hc2
              ltac:(rewrite M2, M1; exact Hmode)
              ltac:(rewrite M2, M1; exact Hcont)
              ltac:(rewrite St2, St1; exact Hidle)
              ltac:(rewrite S2, S1; exact Hbegin))
    as (w3 & c3 & E3 & Hc3 & St3 & S3 & D3 & P3).
  rewrite (bind_runs _ _ w2 w3 tt E3).
  rewrite (bind_runs (print _) _ _ _ tt eq_refl).
  rewrite (bind_runs (print _) _ _ _ tt eq_refl).
  eexists; exists c3. split; [reflexivity|].
  cbn [cams sdk dirs log set_log]. unfold saved_paths in *. cbn [flat_map app].
  repeat split; congruence.
Qed.

(** X19.  The whole of [realtime_view_and_save] on an idle camera, with
    an SDK that works, a writable acquisition mode with a readable
    Continuous entry and a cadence other than zero: for every run of
    usable deliveries in which the key q comes with the last complete
    frame or not at all, the files written by the script are exactly the
    ones due for the complete frames, in the order of the frames, and at
    the end the camera is neither streaming nor initialized. *)
Theorem healthy_run_saves_and_closes (s : settings) (t0 : Q) (feed : list delivery)
    (w : world) (c : camera) (rest : list camera)
    (Hcam : cams w = c :: rest) (Hidle : streaming c = false)
    (Hsdk : sdk w = no_faults)
    (Hmode : enum_writable (AcquisitionMode c) = true)
    (Hcont : IsReadable_entry
               (lookup_entry "Continuous" (enum_entries (AcquisitionMode c))) = true)
    (Hcadence : save_every_n_frames s <> 0)
    (Huse : forallb usable feed = true)
    (Hkeys : forallb (fun d => negb (quits d)) (removelast (filter complete feed))
             = true) :
  let out := realtime_view_and_save s t0 feed w in
  rev (saved_paths (log (snd out)))
    = rev (saved_paths (log w)) ++ due s 0 (filter complete feed)
  /\ initialized (camera_of (snd out)) = false
  /\ streaming (camera_of (snd out)) = false.
Proof.
  cbv zeta.
  assert (exists w0,
            realtime_view_and_save s t0 feed w =
              try_finally (capture_session s t0 feed) cleanup w0 /\
            cams w0 = cams w /\ sdk w0 = sdk w /\
            saved_paths (log w0) = saved_paths (log w))
    as (w0 & E & C0 & S0 & P0).
  { open_world w Hcam.
    cbv beta iota zeta delta
      [realtime_view_and_save os_makedirs System_GetInstance GetCameras GetSize
       bind emit set_log set_dirs cams heap log dirs fetched sdk].
    destruct (existsb (String.eqb (output_dir s)) dirs0);
      eexists; (split; [reflexivity|]); cbn; auto. }
  rewrite E. unfold try_finally.
  rewrite <- C0 in Hcam. rewrite <- S0 in Hsdk.
  destruct (capture_session_reaches_loop s t0 feed w0 c rest Hcam Hidle)
    as (w5 & c5 & E5 & Hc5 & St5 & S5 & _ & P5);
    try (rewrite Hsdk; reflexivity); try assumption.
  rewrite E5.
  destruct (capture_loop_saves s t0 feed 0 w5 c5 rest Hc5 St5 Hcadence Huse Hkeys)
    as [P6 _].
  pose proof (quiet_capture_loop (fun _ => true) (fun _ _ => eq_refl) s t0 feed 0 w5)
    as (_ & S6 & N6 & _).
  cbv zeta in P6.
  destruct (capture_loop s t0 feed 0 w5) as [r w6]. cbn [fst snd] in *.
  destruct (cams w6) as [|c6 rest6] eqn:Hc6; [rewrite Hc5 in N6; discriminate|].
  destruct (cleanup_camera w6 c6 rest6 Hc6) as (w7 & c7 & E7 & Hc7 & I7 & St7 & _ & P7);
    try (rewrite S6, S5, Hsdk; reflexivity).
  rewrite E7. cbn [snd]. unfold camera_of. rewrite Hc7. cbn [hd].
  split; [|split; [exact I7|]].
  - rewrite P7, P6, P5, P0, rev_app_distr, rev_involutive. reflexivity.
  - rewrite St7, S6, S5, Hsdk. reflexivity.
Qed.

Lemma healthy_run_saves_and_closes_witness :
  rev (saved_paths (log (snd (realtime_view_and_save default_settings 0 demo_feed
                                demo_world))))
  = rev (saved_paths (log demo_world))
    ++ due default_settings 0 (filter complete demo_feed).
Proof.
  exact (proj1 (healthy_run_saves_and_closes default_settings 0 demo_feed
                  demo_world demo_camera [] eq_refl eq_refl eq_refl eq_refl
                  eq_refl ltac:(discriminate) eq_refl eq_refl)).
Defined.

(* ================================================================== *)
(** ** The names of the files *)

Lemma list_of_append (a b : string) :
  list_ascii_of_string (a ++ b)%string
  = list_ascii_of_string a ++ list_ascii_of_string b.
Proof.
  induction a as [|x a IH]; [reflexivity|]. cbn. rewrite IH. reflexivity.
Qed.

Lemma append_inv_head (a x y : string) : (a ++ x)%string = (a ++ y)%string -> x = y.
Proof.
  induction a as [|c a IH]; cbn; intros H; [exact H|].
  injection H as H. apply IH, H.
Qed.

Lemma digits_of_uint (u : Decimal.uint) :
  ~ In "_"%char (list_ascii_of_string (NilEmpty.string_of_uint u)).
Proof.
  induction u; cbn; intros H; try (destruct H as [H|H]; [discriminate|auto]).
  exact H.
Qed.

Lemma digits_of_dec (n : N) : ~ In "_"%char (list_ascii_of_string (dec n)).
Proof.
  unfold dec, NilZero.string_of_uint.
  destruct (N.to_uint n) eqn:E; try (rewrite <- E; apply digits_of_uint).
  cbn. intros [H|H]; [discriminate | exact H].
Qed.

Lemma digits_of_zeros (k : nat) : ~ In "_"%char (list_ascii_of_string (zeros k)).
Proof.
  induction k as [|k IH]; cbn; [auto|]. intros [H|H]; [discriminate | auto].
Qed.

Lemma digits_of_format (n : Z) :
  0 <= n -> ~ In "_"%char (list_ascii_of_string (format_06d n)).
Proof.
  intros Hn. unfold format_06d.
  destruct (n <? 0) eqn:E; [apply Z.ltb_lt in E; lia|].
  unfold zfill. rewrite list_of_append. intros H. apply in_app_or in H.
  destruct H as [H|H]; [exact (digits_of_zeros _ H) | exact (digits_of_dec _ H)].
Qed.

(** Reading a number back from its decimal text, with or without zeros
    in front. *)
Lemma decode_dec (n : N) :
  option_map N.of_uint (NilEmpty.uint_of_string (dec n)) = Some n.
Proof.
  unfold dec, NilZero.string_of_uint.
  pose proof (DecimalN.Unsigned.of_to n) as R.
  destruct (N.to_uint n) eqn:E;
    try (rewrite NilEmpty.usu; cbn [option_map]; rewrite R; reflexivity).
  cbn in *. rewrite <- R. reflexivity.
Qed.

Lemma decode_zeros (k : nat) (s : string) :
  option_map N.of_uint (NilEmpty.uint_of_string (zeros k ++ s)%string)
  = option_map N.of_uint (NilEmpty.uint_of_string s).
Proof.
  induction k as [|k IH]; [reflexivity|].
  cbn [zeros String.append NilEmpty.uint_of_string]. rewrite <- IH.
  destruct (NilEmpty.uint_of_string (zeros k ++ s)%string); reflexivity.
Qed.

Lemma format_06d_inj (n m : Z) :
  0 <= n -> 0 <= m -> format_06d n = format_06d m -> n = m.
Proof.
  intros Hn Hm. unfold format_06d.
  destruct (n <? 0) eqn:E1; [apply Z.ltb_lt in E1; lia|].
  destruct (m <? 0) eqn:E2; [apply Z.ltb_lt in E2; lia|].
  unfold zfill. intros H.
  apply (f_equal (fun s => option_map N.of_uint (NilEmpty.uint_of_string s))) in H.
  rewrite !decode_zeros, !decode_dec in H. injection H as H. lia.
Qed.

Lemma split_at_mark {A : Type} (u : A) (p q a b : list A) :
  ~ In u p -> ~ In u q -> p ++ u :: a = q ++ u :: b -> p = q.
Proof.
  revert q. induction p as [|x p IH]; intros [|y q] Hp Hq H; cbn in *.
  - reflexivity.
  - injection H as H _. subst y. tauto.
  - injection H as H _. subst x. tauto.
  - injection H as H1 H2. subst y. f_equal. apply IH; tauto.
Qed.

Lemma save_name_inj (t t' : tick) (n m : Z) :
  0 <= n -> 0 <= m -> save_name t n = save_name t' m -> n = m.
Proof.
  intros Hn Hm H. apply (format_06d_inj n m Hn Hm).
  unfold save_name in H. apply append_inv_head in H.
  apply (f_equal list_ascii_of_string) in H.
  rewrite !list_of_append in H.
  apply (f_equal (@rev ascii)) in H.
  rewrite !rev_app_distr in H. cbn [list_ascii_of_string rev app] in H.
  rewrite <- !app_assoc in H. cbn [app] in H.
  injection H as H.
  apply split_at_mark in H.
  - apply (f_equal (@rev ascii)) in H. rewrite !rev_involutive in H.
    apply (f_equal string_of_list_ascii) in H.
    rewrite !string_of_list_ascii_of_string in H. exact H.
  - intros K. apply in_rev in K. exact (digits_of_format n Hn K).
  - intros K. apply in_rev in K. exact (digits_of_format m Hm K).
Qed.

Lemma path_join_inj (dir a b : string) : path_join dir a = path_join dir b -> a = b.
Proof.
  unfold path_join. destruct dir as [|c dir]; [auto|].
  destruct (ends_with_slash (String c dir)); intros H.
  - apply append_inv_head in H. exact H.
  - apply append_inv_head in H. apply (append_inv_head "/") in H. exact H.
Qed.

Lemma due_counts (s : settings) (frames : list delivery) :
  forall n p, In p (due s n frames) ->
    exists t k, n < k /\ p = path_join (output_dir s) (save_name t k).
Proof.
  induction frames as [|d frames IH]; intros n p H; [destruct H|].
  cbn [due] in H. apply in_app_or in H. destruct H as [H|H].
  - destruct ((n + 1) mod save_every_n_frames s =? 0); [|destruct H].
    destruct H as [<-|[]]. exists (at_tick d), (n + 1). split; [lia | reflexivity].
  - destruct (IH (n + 1) p H) as (t & k & Hk & E). exists t, k. split; [lia | exact E].
Qed.

Lemma due_distinct (s : settings) (frames : list delivery) :
  forall n, 0 <= n -> NoDup (due s n frames).
Proof.
  induction frames as [|d frames IH]; intros n Hn; [constructor|].
  cbn [due].
  destruct ((n + 1) mod save_every_n_frames s =? 0); cbn [app];
    [|apply IH; lia].
  constructor; [|apply IH; lia].
  intros H. destruct (due_counts s frames (n + 1) _ H) as (t & k & Hk & E).
  apply path_join_inj, save_name_inj in E; lia.
Qed.

(** X20.  The files of a run do not overwrite one another.  Two frames
    with different counts get different paths, whatever the clock shows
    when they are saved, because the count is the run of digits after the
    last underscore of the name and is printed with all its digits; and so
    the paths written by a loop that starts at count 0 with nothing
    written, on usable deliveries with the key q on the last frame or on
    none, are all different. *)
Theorem saved_files_are_distinct (s : settings) (t0 : Q) (feed : list delivery)
    (w : world) (c : camera) (cs : list camera)
    (Hcam : cams w = c :: cs) (Hon : streaming c = true)
    (Hfresh : saved_paths (log w) = [])
    (Hcadence : save_every_n_frames s <> 0)
    (Huse : forallb usable feed = true)
    (Hkeys : forallb (fun d => negb (quits d)) (removelast (filter complete feed))
             = true) :
  NoDup (saved_paths (log (snd (capture_loop s t0 feed 0 w))))
  /\ (forall dir t t' n m,
        0 <= n -> 0 <= m ->
        path_join dir (save_name t n) = path_join dir (save_name t' m) -> n = m).
Proof.
  split.
  - destruct (capture_loop_saves s t0 feed 0 w c cs Hcam Hon Hcadence Huse Hkeys)
      as [P _].
    cbv zeta in P. rewrite P, Hfresh, app_nil_r.
    apply NoDup_rev, due_distinct. lia.
  - intros dir t t' n m Hn Hm H. apply path_join_inj in H.
    exact (save_name_inj t t' n m Hn Hm H).
Qed.

Lemma saved_files_are_distinct_witness :
  NoDup (saved_paths (log (snd (capture_loop default_settings 0 demo_feed 0
                                  (boot [streaming_camera] [] no_faults))))).
Proof.
  exact (proj1 (saved_files_are_distinct default_settings 0 demo_feed
                  (boot [streaming_camera] [] no_faults) streaming_camera []
                  eq_refl eq_refl eq_refl ltac:(discriminate) eq_refl eq_refl)).
Defined.

(* ================================================================== *)
(** ** Incomplete frames *)

(** [acquire_single_frame] on an incomplete image, on a device that
    accepts the mode and starts the stream. *)
Lemma acquire_single_frame_incomplete (timeout : Z) (w : world) (c : camera)
    (cs : list camera) (f : frame) (e : enum_entry) :
  cams w = c :: cs -> incomplete f = true ->
  enum_writable (AcquisitionMode c) = true ->
  lookup_entry "SingleFrame" (enum_entries (AcquisitionMode c)) = Some e ->
  entry_readable e = true ->
  streaming c = false ->
  fail_BeginAcquisition (sdk w) = false ->
  fail_EndAcquisition (sdk w) = false ->
  exists w',
    acquire_single_frame timeout (Some (Arrives f)) w = (Ok None, w') /\
    log w' = [CameraEndAcquisition; ImageRelease (fetched w);
              Printed [Txt "[WARN] Image incomplete. Status: ";
                       Int (image_status f)];
              ImageAcquired (fetched w); CallGetNextImage timeout;
              CameraBeginAcquisition;
              NodeSet "AcquisitionMode" (VInt (entry_value e))] ++ log w /\
    heap w' = heap w /\ dirs w' = dirs w /\ sdk w' = sdk w /\
    cams w' = set_streaming false
                (set_streaming true
                   (set_AcquisitionMode
                      (with_current (entry_value e) (AcquisitionMode c)) c)) :: cs.
Proof.
  intros Hcam Hinc Hw He Hr Hs Hb Hf. open_world w Hcam.
  destruct sdk0 as [f1 f2 f3 f4 f5 f6]. cbn in Hb, Hf. subst.
  unfold acquire_single_frame, GetEntryByName, entry_GetValue, enum_SetIntValue,
    BeginAcquisition, EndAcquisition, single_fetch, GetNextImage, IsIncomplete,
    GetImageStatus, Release.
  run. rewrite Hw. run. rewrite He. run. rewrite Hr. run. rewrite Hs. run.
  rewrite Hinc. run.
  eexists. split; [reflexivity|]. cbn. auto 10.
Qed.

Lemma set_pixel_format_store (w : world) (c : camera) (rest : list camera) :
  cams w = c :: rest ->
  heap (snd (set_pixel_format w)) = heap w /\
  dirs (snd (set_pixel_format w)) = dirs w /\
  fetched (snd (set_pixel_format w)) = fetched w.
Proof.
  intros Hc. rewrite (set_pixel_format_runs w c rest Hc).
  destruct (enum_writable (PixelFormat c)); [|cbn; auto].
  destruct (first_readable _ _) as [name|]; [|cbn; auto].
  destruct (lookup_entry name _) as [e|]; cbn; auto.
Qed.

Lemma setup_calls_are_calm (d : list event) :
  forallb is_setup_call d = true -> forallb calm d = true /\ normalized d = [].
Proof.
  induction d as [|e d IH]; [auto|]. cbn [forallb]. intros H.
  apply andb_true_iff in H. destruct H as [He Hd]. destruct (IH Hd) as [A B].
  unfold normalized in *. cbn [flat_map]. rewrite A, B.
  destruct e; try discriminate; auto.
Qed.

(** [lab2_single_frame] when the one image it fetches is incomplete, on a
    device and an SDK in working order: the image is reported and
    released, the script prints that it failed and comes to its end
    through the closing calls. *)
Lemma lab2_single_frame_incomplete (output_path : string) (w : world) (c : camera)
    (cs : list camera) (f : frame) (e : enum_entry) :
  cams w = c :: cs -> incomplete f = true ->
  enum_writable (AcquisitionMode c) = true ->
  lookup_entry "SingleFrame" (enum_entries (AcquisitionMode c)) = Some e ->
  entry_readable e = true ->
  streaming c = false ->
  sdk w = no_faults ->
  exists w' setup,
    lab2_single_frame output_path (Some (Arrives f)) w = (Ok tt, w') /\
    log w' = [SystemReleaseInstance; CameraListClear; CameraDeInit;
              Printed [Txt "[ERROR] Failed to acquire single frame."];
              CameraEndAcquisition; ImageRelease (fetched w);
              Printed [Txt "[WARN] Image incomplete. Status: ";
                       Int (image_status f)];
              ImageAcquired (fetched w); CallGetNextImage 1000;
              CameraBeginAcquisition;
              NodeSet "AcquisitionMode" (VInt (entry_value e))]
             ++ setup ++ log w /\
    forallb calm setup = true /\ normalized setup = [] /\
    heap w' = heap w /\ dirs w' = dirs w.
Proof.
  intros Hcam Hinc Hmode He Hr Hidle Hsdk. unfold lab2_single_frame.
  rewrite (bind_runs System_GetInstance _ w _ tt eq_refl).
  rewrite (bind_runs GetCameras _ _ _ tt eq_refl).
  rewrite (bind_runs GetSize _ _ _ _ eq_refl).
  cbn [cams set_log]. rewrite Hcam. cbn [List.length Nat.eqb].
  set (w0 := set_log (SystemGetCameras :: log (set_log (SystemGetInstance :: log w) w))
               (set_log (SystemGetInstance :: log w) w)).
  assert (cams w0 = c :: cs) as Hc0 by exact Hcam.
  assert (sdk w0 = no_faults) as Hs0 by exact Hsdk.
  assert (log w0 = [SystemGetCameras; SystemGetInstance] ++ log w) as Hl0
    by reflexivity.
  assert (heap w0 = heap w /\ dirs w0 = dirs w /\ fetched w0 = fetched w)
    as (Hh0 & Hd0 & Hf0) by (split; [|split]; reflexivity).
  clearbody w0.
  unfold try_finally.
  rewrite (bind_runs Init _ w0 _ tt
             (Init_runs w0 c cs Hc0 ltac:(rewrite Hs0; reflexivity))).
  rewrite (bind_runs (print _) _ _ _ tt eq_refl).
  erewrite (bind_runs debug_pixel_format)
    by (apply (debug_pixel_format_runs _ (set_initialized true c) cs); reflexivity).
  match goal with
  | |- context [bind set_pixel_format _ ?W] =>
      destruct (set_pixel_format_camera W (set_initialized true c) cs eq_refl)
        as (w1 & c1 & d1 & E1 & Hc1 & M1 & St1 & I1 & S1 & L1 & K1);
      destruct (set_pixel_format_store W (set_initialized true c) cs eq_refl)
        as (Hh1 & Hd1 & Hf1);
      rewrite (bind_runs set_pixel_format _ W w1 tt E1);
      rewrite E1 in Hh1, Hd1, Hf1
  end.
  cbn [snd sdk log heap dirs fetched set_log set_cams] in S1, L1, Hh1, Hd1, Hf1.
  cbn [AcquisitionMode streaming set_initialized] in M1, St1.
  rewrite (bind_runs (print _) _ _ _ tt eq_refl).
  erewrite (bind_runs debug_pixel_format)
    by (apply (debug_pixel_format_runs _ c1 cs); exact Hc1).
  match goal with
  | |- context [bind (acquire_single_frame 1000 _) _ ?W] => set (w3 := W)
  end.
  destruct (setup_calls_are_calm d1 K1) as [C1 N1].
  assert (exists setup, log w3 = setup ++ log w /\ forallb calm setup = true /\
                        normalized setup = []) as (setup & L3 & C3 & N3).
  { subst w3. cbn [log set_log]. rewrite L1, Hl0.
    eexists ([_; _] ++ d1 ++ [_; _; _; _; _]).
    split; [cbn [app]; rewrite <- app_assoc; reflexivity|].
    unfold normalized in *. rewrite !forallb_app, !flat_map_app, C1, N1.
    split; reflexivity. }
  assert (cams w3 = c1 :: cs) as Hc3 by exact Hc1.
  assert (sdk w3 = no_faults) as Hs3 by (subst w3; cbn [sdk set_log]; congruence).
  assert (heap w3 = heap w /\ dirs w3 = dirs w /\ fetched w3 = fetched w)
    as (Hh3 & Hd3 & Hf3)
    by (subst w3; cbn [heap dirs fetched set_log]; repeat split; congruence).
  clearbody w3.
  destruct (acquire_single_frame_incomplete 1000 w3 c1 cs f e Hc3 Hinc)
    as (w4 & E4 & L4 & Hh4 & Hd4 & Hs4 & Hc4);
    try (rewrite ?M1, ?St1, ?Hs3; first [assumption | reflexivity]).
  rewrite (bind_runs _ _ _ _ _ E4).
  unfold print, emit.
  erewrite closing_runs;
    [ | cbn [cams set_log]; exact Hc4
      | cbn [sdk set_log]; rewrite Hs4, Hs3; reflexivity
      | cbn [sdk set_log]; rewrite Hs4, Hs3; reflexivity
      | cbn [sdk set_log]; rewrite Hs4, Hs3; reflexivity ].
  eexists; exists setup. split; [reflexivity|].
  cbn [log heap dirs set_log set_cams]. rewrite L4, L3, Hf3.
  split; [cbn [app]; reflexivity|].
  split; [exact C3|]. split; [exact N3|]. split; congruence.
Qed.

(** C5, as amended.  In the capture loop, with the stream running, a turn
    whose image is incomplete does three things and no more: the fetch,
    the warning with the status of the image, and the release of the
    image; the loop then goes on with the next delivery and the frame
    count it had.  No array is made, the normalizer is not called, no file
    is written.  In [acquire_single_frame] on a device that accepts the
    mode and starts the stream, an incomplete image is reported and
    released in the same way, the acquisition is ended, and the function
    returns [None] without raising.  The single-frame script does not try
    again: on [None] it prints that it failed to acquire the frame, writes
    no file, and ends through its closing calls, returning normally. *)
Theorem incomplete_frame_is_skipped (s : settings) (t0 : Q) (d : delivery)
    (rest : list delivery) (frame_count timeout : Z) (w : world) (c : camera)
    (cs : list camera) (f : frame)
    (Hcam : cams w = c :: cs) (Hinc : incomplete f = true) :
  let i := {| image_id := fetched w; image_frame := f |} in
  (outcome d = Arrives f -> streaming c = true ->
     capture_loop s t0 (d :: rest) frame_count w =
       capture_loop s t0 rest frame_count (skipped i (handed_out 1000 w)))
  /\ (let w2 := skipped i (handed_out 1000 w) in
      log w2 = [ImageRelease (fetched w);
                Printed [Txt "[WARN] Incomplete image. Status: "; Int (image_status f)];
                ImageAcquired (fetched w); CallGetNextImage 1000] ++ log w /\
      heap w2 = heap w /\ cams w2 = cams w /\ dirs w2 = dirs w /\
      normalized (log w2) = normalized (log w) /\
      saved_paths (log w2) = saved_paths (log w) /\
      released (log w2) = fetched w :: released (log w))
  /\ (forall e,
        enum_writable (AcquisitionMode c) = true ->
        lookup_entry "SingleFrame" (enum_entries (AcquisitionMode c)) = Some e ->
        entry_readable e = true ->
        streaming c = false ->
        fail_BeginAcquisition (sdk w) = false ->
        fail_EndAcquisition (sdk w) = false ->
        exists w',
          acquire_single_frame timeout (Some (Arrives f)) w = (Ok None, w') /\
          log w' = [CameraEndAcquisition; ImageRelease (fetched w);
                    Printed [Txt "[WARN] Image incomplete. Status: ";
                             Int (image_status f)];
                    ImageAcquired (fetched w); CallGetNextImage timeout;
                    CameraBeginAcquisition;
                    NodeSet "AcquisitionMode" (VInt (entry_value e))] ++ log w /\
          heap w' = heap w /\ dirs w' = dirs w)
  /\ (let out := capture_loop s t0 rest frame_count (skipped i (handed_out 1000 w)) in
      exists later,
        log (snd out) = later ++ log (skipped i (handed_out 1000 w)) /\
        ~ In (fetched w) (normalized later))
  /\ (forall e output_path,
        enum_writable (AcquisitionMode c) = true ->
        lookup_entry "SingleFrame" (enum_entries (AcquisitionMode c)) = Some e ->
        entry_readable e = true ->
        streaming c = false ->
        sdk w = no_faults ->
        exists w' setup,
          lab2_single_frame output_path (Some (Arrives f)) w = (Ok tt, w') /\
          log w' = [SystemReleaseInstance; CameraListClear; CameraDeInit;
                    Printed [Txt "[ERROR] Failed to acquire single frame."];
                    CameraEndAcquisition; ImageRelease (fetched w);
                    Printed [Txt "[WARN] Image incomplete. Status: ";
                             Int (image_status f)];
                    ImageAcquired (fetched w); CallGetNextImage 1000;
                    CameraBeginAcquisition;
                    NodeSet "AcquisitionMode" (VInt (entry_value e))]
                   ++ setup ++ log w /\
          forallb calm setup = true /\ normalized setup = [] /\
          saved_paths (log w') = saved_paths (log w) /\
          normalized (log w') = normalized (log w)).
Proof.
  intros i. split; [|split; [|split; [|split]]].
  4: { cbv zeta.
       destruct (capture_loop_ledger s t0 rest frame_count
                   (skipped i (handed_out 1000 w))) as (later & k & L & _ & A & I & _).
       exists later. split; [exact L|]. intros Hin. apply I in Hin.
       rewrite A in Hin. apply in_rev, in_seq in Hin.
       cbn [skipped handed_out set_log fetched] in Hin. lia. }
  - intros Hout Hs.
    rewrite (capture_loop_turn s t0 d rest frame_count w (handed_out 1000 w) i).
    + unfold IsIncomplete. cbn [image_frame i]. rewrite Hinc. reflexivity.
    + rewrite Hout. eapply GetNextImage_arrives; eassumption.
  - cbn. repeat split.
  - intros e Hw He Hr Hs Hb Hf.
    destruct (acquire_single_frame_incomplete timeout w c cs f e Hcam Hinc Hw He Hr
                Hs Hb Hf) as (w' & E & L & H & D & _).
    exists w'. auto.
  - intros e output_path Hw He Hr Hs Hsdk.
    destruct (lab2_single_frame_incomplete output_path w c cs f e Hcam Hinc Hw He Hr
                Hs Hsdk) as (w' & setup & E & L & C & N & _).
    exists w', setup. split; [exact E|]. split; [exact L|].
    split; [exact C|]. split; [exact N|].
    destruct (calm_lists setup C) as (_ & _ & P).
    rewrite L. unfold saved_paths, normalized in *.
    rewrite !flat_map_app, P, N. split; reflexivity.
Qed.

Lemma incomplete_frame_is_skipped_witness :
  let w := boot [streaming_camera] [] no_faults in
  let partial := mk_frame true (Some "BGR8") (Some 3%N) in
  cams w = streaming_camera :: [] /\ incomplete partial = true /\
  capture_loop default_settings 0 [arrival partial (-1)] 0 w =
    capture_loop default_settings 0 [] 0
      (skipped {| image_id := 0; image_frame := partial |} (handed_out 1000 w)).
Proof.
  split; [reflexivity|]. split; [reflexivity|].
  exact (proj1 (incomplete_frame_is_skipped default_settings 0
                  (arrival (mk_frame true (Some "BGR8") (Some 3%N)) (-1)) [] 0 1000
                  (boot [streaming_camera] [] no_faults) streaming_camera []
                  (mk_frame true (Some "BGR8") (Some 3%N)) eq_refl eq_refl)
               eq_refl eq_refl).
Defined.

(** C5 as stated fails in the single-frame script: an incomplete image is
    the end of its run.  The script fetches once, the image is reported
    and released, and the last line printed is the error; no file is
    written, though the device and the SDK are in working order. *)
Lemma incomplete_frame_ends_single_frame_script :
  let partial := mk_frame true (Some "BGR8") (Some 3%N) in
  let out := lab2_single_frame "single_frame.png" (Some (Arrives partial)) demo_world in
  fst out = Ok tt
  /\ nth_error (log (snd out)) 3
     = Some (Printed [Txt "[ERROR] Failed to acquire single frame."])
  /\ firstn 3 (log (snd out)) = rev closing_calls
  /\ count_event is_fetch_call (log (snd out)) = 1%nat
  /\ released (log (snd out)) = [0%nat]
  /\ normalized (log (snd out)) = []
  /\ saved_paths (log (snd out)) = [].
Proof. vm_compute. repeat split. Qed.
